(** * HeyPico: the places gateway, the chat orchestrator and the SSE endpoint

    A shallow embedding of
    - [backend/maps/places.js]  (geo utility and places gateways),
    - [backend/maps/directions.js] (directions gateway),
    - [backend/agent.js]        (intent extractor and chat orchestrator),
    - the Express server        (the [POST /api/chat] handler and the
                                 query routes),
    - [streamChat] of the frontend (the browser's reading of the stream),
    and the properties the specification states about them.

    Conventions.
    - A JavaScript Number is a binary64 [float]; comparisons, products and
      sums are the IEEE operations of [PrimFloat].  [Math.round],
      [toFixed(1)] and the conversion of a Number to a string are computed
      from the exact value of the double.
    - A JavaScript string is read through its UTF-8 encoding as a [string];
      every string operation used by the code ([startsWith] with an ASCII
      prefix, [split] on a newline, JSON quoting) acts bytewise on it.
    - [undefined] and [null] are [None].
    - Values that come from JSON (provider results, LLM replies, the
      request body) are read at the types the code expects of them.
    - A function that may throw returns a [completion]; a function that
      calls the caller's callbacks also returns the calls, in order.  The
      callbacks are taken to return normally, as those of the endpoint do.
    - An awaited call of the outside world settles: it resolves or it
      rejects.  The reads of a streamed reply are a finite list.
    - Console output, and the chunk counter kept for it, are left out. *)

From Stdlib Require Import ZArith List String Ascii Floats Bool Lia DecimalString.
Import ListNotations.
Local Open Scope string_scope.
Local Open Scope Z_scope.

Set Warnings "-inexact-float".

(* ================================================================== *)
(** * JavaScript Numbers *)
(* ================================================================== *)

Module JsNumber.

Definition number := float.

(** [ToBoolean] of a Number: false for [+0], [-0] and [NaN]. *)
Definition truthy (x : number) : bool :=
  negb (PrimFloat.eqb x 0%float) && PrimFloat.eqb x x.

(** Decimal digits of a non-negative integer. *)
Definition digits (z : Z) : string :=
  NilZero.string_of_uint (N.to_uint (Z.to_N z)).

Definition cond_neg (s : bool) (z : Z) : Z := if s then - z else z.

(** [floor (v + 1/2)] for [v = (-1)^s * m * 2^e]: the integer closest to
    [v], the larger one when two are equally close. *)
Definition round_half_up (s : bool) (m : positive) (e : Z) : Z :=
  if 0 <=? e then cond_neg s (Z.pos m * 2 ^ e)
  else (2 * cond_neg s (Z.pos m) + 2 ^ (- e)) / (2 * 2 ^ (- e)).

(** [Math.round]: integral Numbers, infinities and NaN are returned as
    they are; a value that rounds to zero keeps the sign of the argument. *)
Definition Math_round (x : number) : number :=
  match Prim2SF x with
  | S754_finite s m e =>
      if 0 <=? e then x
      else SF2Prim (binary_normalize prec emax (round_half_up s m e) 0 s)
  | _ => x
  end.

(** ** [Number::toString], radix 10

    The digits are the shortest decimal [s * 10^(n-k)] that reads back as
    the same double, the closest one to it when several have that length.
    A double [m * 2^e] and the midpoints to its two neighbours are kept
    as integers over one denominator. *)

Record interval := {
  iv_lo : Z; iv_x : Z; iv_hi : Z; iv_den : Z;
  iv_closed : bool   (* ties go to the even mantissa *)
}.

Definition rounding_interval (m : positive) (e : Z) : interval :=
  let below := if (Z.pos m =? 2 ^ 52) && (-1074 <? e) then 1 else 2 in
  let E := e - 2 in
  let mul := if 0 <=? E then 2 ^ E else 1 in
  {| iv_lo := (4 * Z.pos m - below) * mul;
     iv_x := 4 * Z.pos m * mul;
     iv_hi := (4 * Z.pos m + 2) * mul;
     iv_den := if 0 <=? E then 1 else 2 ^ (- E);
     iv_closed := Z.even (Z.pos m) |}.

(** [10^(n-1) <= x] *)
Definition reaches (i : interval) (n : Z) : bool :=
  if 1 <=? n then 10 ^ (n - 1) * iv_den i <=? iv_x i
  else iv_den i <=? iv_x i * 10 ^ (1 - n).

(** The [n] with [10^(n-1) <= x < 10^n], searched downwards from an
    upper estimate. *)
Fixpoint magnitude (fuel : nat) (i : interval) (n : Z) : Z :=
  match fuel with
  | O => n
  | S fuel' => if reaches i n then n else magnitude fuel' i (n - 1)
  end.

Definition magnitude_estimate (m : positive) (e : Z) : Z :=
  (Z.log2 (Z.pos m) + e + 1) * 30103 / 100000 + 2.

(** Whether [s * 10^q] reads back as [x], and its distance to [x]. *)
Definition candidate (i : interval) (q s : Z) : option Z :=
  let up := if 0 <=? q then 1 else 10 ^ (- q) in
  let v := if 0 <=? q then s * 10 ^ q * iv_den i else s * iv_den i in
  let inside :=
    if iv_closed i then (iv_lo i * up <=? v) && (v <=? iv_hi i * up)
    else (iv_lo i * up <? v) && (v <? iv_hi i * up) in
  if inside then Some (Z.abs (v - iv_x i * up)) else None.

Definition floor_at (i : interval) (q : Z) : Z :=
  if 0 <=? q then iv_x i / (iv_den i * 10 ^ q)
  else (iv_x i * 10 ^ (- q)) / iv_den i.

Definition pick (i : interval) (q : Z) : option Z :=
  let s := floor_at i q in
  match candidate i q s, candidate i q (s + 1) with
  | Some d0, Some d1 =>
      if d0 <? d1 then Some s
      else if d1 <? d0 then Some (s + 1)
      else if Z.even s then Some s else Some (s + 1)
  | Some _, None => Some s
  | None, Some _ => Some (s + 1)
  | None, None => None
  end.

(** [(s, k, n)] with [k] as small as possible; 17 digits always do. *)
Fixpoint shortest (fuel : nat) (i : interval) (n0 k : Z) : Z * Z * Z :=
  match fuel with
  | O => (floor_at i (n0 - k), k, n0)
  | S fuel' =>
      match pick i (n0 - k) with
      | Some s => if s =? 10 ^ k then (10 ^ (k - 1), k, n0 + 1) else (s, k, n0)
      | None => shortest fuel' i n0 (k + 1)
      end
  end.

Fixpoint zeros (n : nat) : string :=
  match n with O => "" | S n' => "0" ++ zeros n' end.

Definition take (n : Z) (s : string) : string := substring 0 (Z.to_nat n) s.
Definition drop (n : Z) (s : string) : string :=
  substring (Z.to_nat n) (String.length s - Z.to_nat n) s.

Definition exponent_part (n : Z) : string :=
  "e" ++ (if 0 <=? n - 1 then "+" else "-") ++ digits (Z.abs (n - 1)).

Definition format_positive (m : positive) (e : Z) : string :=
  let i := rounding_interval m e in
  let n0 := magnitude 8 i (magnitude_estimate m e) in
  let '(s, k, n) := shortest 17 i n0 1 in
  let ds := digits s in
  if (k <=? n) && (n <=? 21) then ds ++ zeros (Z.to_nat (n - k))
  else if (0 <? n) && (n <=? 21) then take n ds ++ "." ++ drop n ds
  else if (-6 <? n) && (n <=? 0) then "0." ++ zeros (Z.to_nat (- n)) ++ ds
  else if k =? 1 then ds ++ exponent_part n
  else take 1 ds ++ "." ++ drop 1 ds ++ exponent_part n.

(** What a template literal or string concatenation does to a Number. *)
Definition ToString (x : number) : string :=
  match Prim2SF x with
  | S754_nan => "NaN"
  | S754_zero _ => "0"
  | S754_infinity s => if s then "-Infinity" else "Infinity"
  | S754_finite s m e => (if s then "-" else "") ++ format_positive m e
  end.

(** [floor (10 * v + 1/2)] for [v = m * 2^e]: the integer [n] for which
    [n / 10 - v] is closest to zero, the larger one on a tie. *)
Definition tenths (m : positive) (e : Z) : Z :=
  if 0 <=? e then 10 * (Z.pos m * 2 ^ e)
  else (2 * (10 * Z.pos m) + 2 ^ (- e)) / (2 * 2 ^ (- e)).

(** The digits of [n] with a decimal point before the last one, and a
    leading zero when there is one digit only. *)
Definition insert_point (n : Z) : string :=
  let ds := digits n in
  let ds := if n <? 10 then "0" ++ ds else ds in
  let k := Z.of_nat (String.length ds) in
  take (k - 1) ds ++ "." ++ drop (k - 1) ds.

(** [Number.prototype.toFixed(1)] *)
Definition toFixed1 (x : number) : string :=
  match Prim2SF x with
  | S754_finite s m e =>
      if PrimFloat.leb 1e21%float (PrimFloat.abs x) then ToString x
      else (if s then "-" else "") ++ insert_point (tenths m e)
  | S754_zero _ => "0.0"
  | _ => ToString x
  end.

End JsNumber.

(* ================================================================== *)
(** * Geo utility ([backend/maps/places.js]) *)
(* ================================================================== *)

(** The arithmetic [calculateDistance] is written with: the operations
    of Numbers, and [Math.sin], [Math.cos] and [Math.atan2] as the host
    provides them. *)
Class Arith (N : Type) := {
  lit : Z -> N;
  Math_PI : N;
  add : N -> N -> N;
  sub : N -> N -> N;
  mul : N -> N -> N;
  div : N -> N -> N;
  Math_sqrt : N -> N;
  Math_sin : N -> N;
  Math_cos : N -> N;
  Math_atan2 : N -> N -> N
}.

Declare Scope num_scope.
Delimit Scope num_scope with num.
Infix "+" := add : num_scope.
Infix "-" := sub : num_scope.
Infix "*" := mul : num_scope.
Infix "/" := div : num_scope.

Module Geo.
Section Haversine.
Context {N : Type} `{Arith N}.
Local Open Scope num_scope.

(** function toRad(degrees) *)
Definition toRad (degrees : N) : N := degrees * (Math_PI / lit 180).

(** export function calculateDistance(lat1, lon1, lat2, lon2) *)
Definition calculateDistance (lat1 lon1 lat2 lon2 : N) : N :=
  let R := lit 6371 in
  let dLat := toRad (lat2 - lat1) in
  let dLon := toRad (lon2 - lon1) in
  let a :=
    Math_sin (dLat / lit 2) * Math_sin (dLat / lit 2) +
    Math_cos (toRad lat1) * Math_cos (toRad lat2) *
    Math_sin (dLon / lit 2) * Math_sin (dLon / lit 2) in
  let c := lit 2 * Math_atan2 (Math_sqrt a) (Math_sqrt (lit 1 - a)) in
  R * c.

End Haversine.

Import JsNumber.

(** export function formatDistance(distanceKm) *)
Definition formatDistance (distanceKm : number) : string :=
  if PrimFloat.ltb distanceKm 1%float then
    ToString (Math_round (PrimFloat.mul distanceKm 1000%float)) ++ "m"
  else if PrimFloat.ltb distanceKm 10%float then
    toFixed1 distanceKm ++ "km"
  else
    ToString (Math_round distanceKm) ++ "km".

End Geo.


(** ** The host's Math functions

    [Math.sin], [Math.cos] and [Math.atan2] are implementation-approximated
    in ECMAScript; they are taken from the host. *)

Module FloatGeo.
Import JsNumber.

Record MathHost := {
  host_sin : number -> number;
  host_cos : number -> number;
  host_atan2 : number -> number -> number
}.

Definition of_literal (z : Z) : number :=
  SF2Prim (binary_normalize prec emax z 0 false).

Definition float_arith (h : MathHost) : Arith number := {|
  lit := of_literal;
  Math_PI := 0x1.921fb54442d18p+1%float;
  add := PrimFloat.add;
  sub := PrimFloat.sub;
  mul := PrimFloat.mul;
  div := PrimFloat.div;
  Math_sqrt := PrimFloat.sqrt;
  Math_sin := host_sin h;
  Math_cos := host_cos h;
  Math_atan2 := host_atan2 h
|}.

Definition calculateDistance (h : MathHost) (lat1 lon1 lat2 lon2 : number)
  : number :=
  @Geo.calculateDistance number (float_arith h) lat1 lon1 lat2 lon2.

End FloatGeo.

(* ================================================================== *)
(** * JSON text *)
(* ================================================================== *)

Module Json.
Import JsNumber.

Definition dquote : string := String (ascii_of_nat 34) EmptyString.
Definition bslash : string := String (ascii_of_nat 92) EmptyString.

Definition hex_digit (n : nat) : string :=
  match get n "0123456789abcdef" with
  | Some c => String c EmptyString
  | None => EmptyString
  end.

(** One character of [QuoteJSONString]. *)
Definition escape_char (c : ascii) : string :=
  let n := nat_of_ascii c in
  if Nat.eqb n 34 then bslash ++ dquote
  else if Nat.eqb n 92 then bslash ++ bslash
  else if Nat.eqb n 8 then bslash ++ "b"
  else if Nat.eqb n 9 then bslash ++ "t"
  else if Nat.eqb n 10 then bslash ++ "n"
  else if Nat.eqb n 12 then bslash ++ "f"
  else if Nat.eqb n 13 then bslash ++ "r"
  else if Nat.ltb n 32 then
    bslash ++ "u00" ++ hex_digit (Nat.div n 16) ++ hex_digit (Nat.modulo n 16)
  else String c EmptyString.

Fixpoint escape (s : string) : string :=
  match s with
  | EmptyString => EmptyString
  | String c rest => escape_char c ++ escape rest
  end.

(** [JSON.stringify] of a string. *)
Definition quote (s : string) : string := dquote ++ escape s ++ dquote.

(** [JSON.stringify] of a Number: non-finite Numbers are [null]. *)
Definition of_number (x : number) : string :=
  match Prim2SF x with
  | S754_nan | S754_infinity _ => "null"
  | _ => ToString x
  end.

Definition of_bool (b : bool) : string := if b then "true" else "false".

Fixpoint join (sep : string) (l : list string) : string :=
  match l with
  | [] => EmptyString
  | [x] => x
  | x :: rest => x ++ sep ++ join sep rest
  end.

Definition array (items : list string) : string := "[" ++ join "," items ++ "]".

(** A property whose value is [undefined] is left out of the object. *)
Definition member {A : Type} (key : string) (render : A -> string)
  (v : option A) : option string :=
  option_map (fun a => quote key ++ ":" ++ render a) v.

(** A property that is [null] when it has no value. *)
Definition member_or_null {A : Type} (key : string) (render : A -> string)
  (v : option A) : option string :=
  Some (quote key ++ ":" ++ match v with Some a => render a | None => "null" end).

Fixpoint present (l : list (option string)) : list string :=
  match l with
  | [] => []
  | Some x :: rest => x :: present rest
  | None :: rest => present rest
  end.

Definition object (members : list (option string)) : string :=
  "{" ++ join "," (present members) ++ "}".

End Json.

(* ================================================================== *)
(** * Thrown values and completions *)
(* ================================================================== *)

(** An [Error] as the code inspects it: [error.name], [error.message] and
    [error.response?.status]. *)
Record JsError := {
  err_name : string;
  err_message : string;
  err_status : option Z
}.

Definition Error (message : string) : JsError :=
  {| err_name := "Error"; err_message := message; err_status := None |}.

Inductive completion (A : Type) : Type :=
| Returned (a : A)
| Thrown (e : JsError).
Arguments Returned {A} a.
Arguments Thrown {A} e.

(** [ToBoolean] of a string. *)
Definition nonempty (s : string) : bool :=
  match s with EmptyString => false | _ => true end.

Definition truthy_string (s : option string) : bool :=
  match s with Some t => nonempty t | None => false end.

Definition truthy_number (x : option JsNumber.number) : bool :=
  match x with Some v => JsNumber.truthy v | None => false end.

(** The completion monad: [x <- c ;; k] runs [k] when [c] returned. *)
Definition bind {A B : Type} (c : completion A) (k : A -> completion B)
  : completion B :=
  match c with
  | Returned a => k a
  | Thrown e => Thrown e
  end.

(** [try { body } catch (error) { handler }] *)
Definition try_catch {A : Type} (body : completion A)
  (handler : JsError -> completion A) : completion A :=
  match body with
  | Returned a => Returned a
  | Thrown e => handler e
  end.

Declare Scope js_scope.
Delimit Scope js_scope with js.
Notation "x <- c ;; k" := (bind c (fun x => k))
  (at level 61, c at next level, right associativity) : js_scope.

(* ================================================================== *)
(** * Places gateway ([backend/maps/places.js]) *)
(* ================================================================== *)

(** A [{lat, lng}] object. *)
Module LatLng.
Record t := { lat : option JsNumber.number; lng : option JsNumber.number }.
End LatLng.

(** What the provider's text search returns for one place, at the fields
    the gateway reads. *)
Module Provider.
Import JsNumber.

Record DayTime := { day : option number; time : option string }.

Record Period := { open : option DayTime; close : option DayTime }.

Record OpeningHours := {
  open_now : option bool;
  periods : option (list Period);
  weekday_text : option (list string)
}.

Record Photo := {
  photo_reference : option string;
  width : option number;
  height : option number;
  html_attributions : option (list string)
}.

Record Geometry := { location : option LatLng.t }.

Record Place := {
  place_id : option string;
  name : option string;
  formatted_address : option string;
  vicinity : option string;
  geometry : option Geometry;
  rating : option number;
  user_ratings_total : option number;
  price_level : option number;
  international_phone_number : option string;
  website : option string;
  opening_hours : option OpeningHours;
  types : option (list string);
  photos : option (list Photo);
  permanently_closed : option bool
}.

End Provider.

Module Places.
Import JsNumber.
Local Open Scope js_scope.

Record PhotoRef := {
  photo_reference : option string;
  width : option number;
  height : option number
}.

Record PlaceRecord := {
  place_id : option string;
  name : option string;
  formatted_address : option string;
  vicinity : option string;
  lat : option number;
  lng : option number;
  rating : option number;
  user_ratings_total : option number;
  price_level : option number;
  phone : option string;
  website : option string;
  opening_hours : option Provider.OpeningHours;
  types : option (list string);
  photos : list PhotoRef;
  distance_km : option number;
  distance_text : option string;
  permanently_closed : option bool
}.

(** The [location] option: an object or a string. *)
Inductive LocationArg :=
| LocationObject (c : LatLng.t)
| LocationText (s : string).

Record Options := {
  query : string;
  location : option LocationArg;
  radius : option number;             (* default 5000 *)
  userLocation : option LatLng.t;     (* default null *)
  language : option string            (* default 'en' *)
}.

(** [searchParams], without the API key of the environment. *)
Record TextSearchParams := {
  params_query : string;
  params_language : string;
  params_location : option LatLng.t;
  params_radius : option number
}.

(** [client.textSearch]: it resolves with [response.data.results] or
    rejects. *)
Record Client := {
  textSearch : TextSearchParams -> completion (option (list Provider.Place))
}.

Record SearchResult := {
  results : list PlaceRecord;
  search_center : option LatLng.t;
  error : option string
}.

Definition default {A : Type} (d : A) (v : option A) : A :=
  match v with Some a => a | None => d end.

Definition searchParams (o : Options) : TextSearchParams :=
  let base := {| params_query := query o;
                 params_language := default "en" (language o);
                 params_location := None;
                 params_radius := None |} in
  match location o with
  | Some (LocationObject c) =>
      if truthy_number (LatLng.lat c) && truthy_number (LatLng.lng c) then
        {| params_query := query o;
           params_language := default "en" (language o);
           params_location :=
             Some {| LatLng.lat := LatLng.lat c; LatLng.lng := LatLng.lng c |};
           params_radius := Some (default 5000%float (radius o)) |}
      else base
  | Some (LocationText s) =>
      if nonempty s then
        {| params_query := query o ++ " in " ++ s;
           params_language := default "en" (language o);
           params_location := None;
           params_radius := None |}
      else base
  | None => base
  end.

(** [place.geometry?.location?.lat] and [...?.lng] *)
Definition place_lat (place : Provider.Place) : option number :=
  match Provider.geometry place with
  | Some g =>
      match Provider.location g with
      | Some l => LatLng.lat l
      | None => None
      end
  | None => None
  end.

Definition place_lng (place : Provider.Place) : option number :=
  match Provider.geometry place with
  | Some g =>
      match Provider.location g with
      | Some l => LatLng.lng l
      | None => None
      end
  | None => None
  end.

(** The [distance] variable of the mapping: [null], or the result of
    [calculateDistance] when
    [userLocation && userLocation.lat && userLocation.lng && lat && lng]. *)
Definition place_distance (h : FloatGeo.MathHost)
  (userLocation : option LatLng.t) (lat lng : option number) : option number :=
  match userLocation with
  | Some u =>
      match LatLng.lat u, LatLng.lng u, lat, lng with
      | Some ulat, Some ulng, Some plat, Some plng =>
          if truthy ulat && truthy ulng && truthy plat && truthy plng
          then Some (FloatGeo.calculateDistance h ulat ulng plat plng)
          else None
      | _, _, _, _ => None
      end
  | None => None
  end.

Definition photo_ref (photo : Provider.Photo) : PhotoRef :=
  {| photo_reference := Provider.photo_reference photo;
     width := Provider.width photo;
     height := Provider.height photo |}.

(** The function mapped over [response.data.results.slice(0, 20)]. *)
Definition toPlaceRecord (h : FloatGeo.MathHost)
  (userLocation : option LatLng.t) (place : Provider.Place) : PlaceRecord :=
  let lat := place_lat place in
  let lng := place_lng place in
  let distance := place_distance h userLocation lat lng in
  {| place_id := Provider.place_id place;
     name := Provider.name place;
     formatted_address := Provider.formatted_address place;
     vicinity := Provider.vicinity place;
     lat := lat;
     lng := lng;
     rating := Provider.rating place;
     user_ratings_total := Provider.user_ratings_total place;
     price_level := Provider.price_level place;
     phone := Provider.international_phone_number place;
     website := Provider.website place;
     opening_hours :=
       match Provider.opening_hours place with
       | Some oh =>
           Some {| Provider.open_now := Provider.open_now oh;
                   Provider.periods := Provider.periods oh;
                   Provider.weekday_text := Provider.weekday_text oh |}
       | None => None
       end;
     types := Provider.types place;
     photos :=
       match Provider.photos place with
       | Some ps => map photo_ref (firstn 3 ps)
       | None => []
       end;
     distance_km := distance;
     distance_text :=
       match distance with
       | Some d => Some (Geo.formatDistance d)
       | None => None
       end;
     permanently_closed := Provider.permanently_closed place |}.

Definition auth_error_text : string :=
  "Google Maps API key issue - check enabled APIs".

(** export async function searchPlaces(client, {query, location, radius,
    userLocation, language}) *)
Definition searchPlaces (h : FloatGeo.MathHost) (client : Client)
  (o : Options) : completion SearchResult :=
  try_catch
    (data_results <- textSearch client (searchParams o) ;;
     match data_results with
     | None =>
         Returned {| results := []; search_center := None; error := None |}
     | Some provider_results =>
         Returned
           {| results :=
                map (toPlaceRecord h (userLocation o))
                    (firstn 20 provider_results);
              search_center := userLocation o;
              error := None |}
     end)
    (fun error =>
       match err_status error with
       | Some 403 =>
           Returned {| results := []; search_center := None;
                       error := Some auth_error_text |}
       | _ => Thrown error
       end).

(** ** [JSON.stringify] of place records *)

Definition latlng_json (l : LatLng.t) : string :=
  Json.object [ Json.member "lat" Json.of_number (LatLng.lat l);
                Json.member "lng" Json.of_number (LatLng.lng l) ].

Definition daytime_json (d : Provider.DayTime) : string :=
  Json.object [ Json.member "day" Json.of_number (Provider.day d);
                Json.member "time" Json.quote (Provider.time d) ].

Definition period_json (p : Provider.Period) : string :=
  Json.object [ Json.member "open" daytime_json (Provider.open p);
                Json.member "close" daytime_json (Provider.close p) ].

Definition opening_hours_json (oh : Provider.OpeningHours) : string :=
  Json.object
    [ Json.member "open_now" Json.of_bool (Provider.open_now oh);
      Json.member "periods" (fun l => Json.array (map period_json l))
        (Provider.periods oh);
      Json.member "weekday_text" (fun l => Json.array (map Json.quote l))
        (Provider.weekday_text oh) ].

Definition photo_json (p : PhotoRef) : string :=
  Json.object [ Json.member "photo_reference" Json.quote (photo_reference p);
                Json.member "width" Json.of_number (width p);
                Json.member "height" Json.of_number (height p) ].

Definition place_json (r : PlaceRecord) : string :=
  Json.object
    [ Json.member "place_id" Json.quote (place_id r);
      Json.member "name" Json.quote (name r);
      Json.member "formatted_address" Json.quote (formatted_address r);
      Json.member "vicinity" Json.quote (vicinity r);
      Json.member "lat" Json.of_number (lat r);
      Json.member "lng" Json.of_number (lng r);
      Json.member "rating" Json.of_number (rating r);
      Json.member "user_ratings_total" Json.of_number (user_ratings_total r);
      Json.member "price_level" Json.of_number (price_level r);
      Json.member "phone" Json.quote (phone r);
      Json.member "website" Json.quote (website r);
      Json.member_or_null "opening_hours" opening_hours_json (opening_hours r);
      Json.member "types" (fun l => Json.array (map Json.quote l)) (types r);
      Json.member "photos" (fun l => Json.array (map photo_json l))
        (Some (photos r));
      Json.member_or_null "distance_km" Json.of_number (distance_km r);
      Json.member_or_null "distance_text" Json.quote (distance_text r);
      Json.member "permanently_closed" Json.of_bool (permanently_closed r) ].

End Places.

(* ================================================================== *)
(** * The LLM endpoint as the agent sees it *)
(* ================================================================== *)

Module Ollama.

(** One line of the streamed reply, at the fields the code reads:
    [parsed.message?.content]. *)
Record Delta := { content : option string }.
Record Frame := { message : option Delta }.

(** [await response.json()] of the non-streaming call: it throws, or gives
    [result.message?.content]. *)
Inductive Body :=
| BodyInvalid (e : JsError)
| BodyJson (message_content : option string).

(** [await fetch(...)] of the non-streaming call. *)
Inductive Reply :=
| Fails (e : JsError)
| Response (ok : bool) (status : Z) (body : Body).

(** [await reader.read()]: a decoded chunk of text, or a rejection; the
    stream is done after the last one. *)
Inductive Read :=
| Chunk (text : string)
| ReadFails (e : JsError).

(** [await fetch(..., {signal})] of the streaming call.  The abort timer
    (10000 ms) makes the fetch reject with an [AbortError]; it is cleared
    once the fetch has resolved. *)
Inductive Stream :=
| StreamFails (e : JsError)
| StreamResponse (reads : list Read).

End Ollama.

(* ================================================================== *)
(** * Intent extractor and chat orchestrator ([backend/agent.js]) *)
(* ================================================================== *)

Module Agent.
Import JsNumber.

Record ChatMessage := { role : string; content : string }.

(** The object [JSON.parse(content)] gives, at the fields the code reads. *)
Record RawIntent := {
  raw_query : option string;
  raw_location : option string;
  raw_formatted_query : option string
}.

Record Intent := {
  query : string;
  location : option string;
  formatted_query : string
}.

(** Built-ins of the JavaScript host.  [JSON_parse_intent] and
    [JSON_parse_frame] are [JSON.parse] read at the two shapes the code
    expects; [None] is a thrown [SyntaxError], or a value ([null], a
    Number, a string) on which the property accesses that follow throw. *)
Record Host := {
  math : FloatGeo.MathHost;
  JSON_parse_intent : string -> option RawIntent;
  JSON_parse_frame : string -> option Ollama.Frame
}.

(** What the outside world does during one turn. *)
Record World := {
  (* POST /api/chat, stream: false, format: json, num_predict: 50 *)
  extract_reply : list ChatMessage -> Ollama.Reply;
  (* the 3000 ms timer of the race rejects before the extractor settles *)
  extract_deadline_first : bool;
  googleClient : Places.Client;
  (* POST /api/chat, stream: true, num_predict: 150, temperature: 0.7 *)
  narrate_reply : list ChatMessage -> Ollama.Stream
}.

(** The two callbacks of [streamChatWithTools], as calls. *)
Inductive Call :=
| OnChunk (chunk : string)
| OnError (error : string).

(** A computation that calls the callbacks and returns or throws. *)
Definition Run (A : Type) : Type := list Call * completion A.

Definition ret {A : Type} (a : A) : Run A := ([], Returned a).

Definition throw {A : Type} (e : JsError) : Run A := ([], Thrown e).

Definition emit (c : Call) : Run unit := ([c], Returned tt).

Definition lift {A : Type} (c : completion A) : Run A := ([], c).

Definition andThen {A B : Type} (m : Run A) (k : A -> Run B) : Run B :=
  match m with
  | (calls, Returned a) => let (calls', r) := k a in ((calls ++ calls')%list, r)
  | (calls, Thrown e) => (calls, Thrown e)
  end.

Definition tryCatch {A : Type} (body : Run A) (handler : JsError -> Run A)
  : Run A :=
  match body with
  | (calls, Returned a) => (calls, Returned a)
  | (calls, Thrown e) => let (calls', r) := handler e in ((calls ++ calls')%list, r)
  end.

Declare Scope run_scope.
Delimit Scope run_scope with run.
Notation "x <- c ;; k" := (andThen c (fun x => k))
  (at level 61, c at next level, right associativity) : run_scope.
Notation "c ;; k" := (andThen c (fun _ => k))
  (at level 61, right associativity) : run_scope.

Definition newline : string := String (ascii_of_nat 10) EmptyString.

(** Writes the double quotes of a text whose quotes are typed as [~]. *)
Fixpoint dquotes (s : string) : string :=
  match s with
  | EmptyString => EmptyString
  | String c rest =>
      String (if Ascii.eqb c "~" then ascii_of_nat 34 else c) (dquotes rest)
  end.

Definition EXTRACTION_PROMPT : string := dquotes
"Extract location search information from user queries. Return ONLY a valid JSON object with these exact fields:

{
  ~query~: ~what the user is looking for (e.g., 'coffee shop', 'restaurant', 'hospital')~,
  ~location~: ~where to search (e.g., 'Taipei 101', 'downtown', 'near me')~,
  ~formatted_query~: ~query + ' in ' + location for Google Places API (or just query if location is 'near me')~
}

Examples:
User: ~find a coffee shop near Taipei 101~
Response: {~query~: ~coffee shop~, ~location~: ~Taipei 101~, ~formatted_query~: ~coffee shop in Taipei 101~}

User: ~good beef noodles around here~
Response: {~query~: ~beef noodles~, ~location~: ~near me~, ~formatted_query~: ~beef noodles~}

User: ~gas stations nearby~
Response: {~query~: ~gas station~, ~location~: ~near me~, ~formatted_query~: ~gas station~}

User: ~restaurants in San Francisco~
Response: {~query~: ~restaurant~, ~location~: ~San Francisco~, ~formatted_query~: ~restaurant in San Francisco~}

Return ONLY the JSON object, no other text.".

Definition CHAT_PROMPT : string :=
  "You are a helpful assistant for finding places. Format your response as a markdown list with bullet points. Keep responses brief and helpful.".

Definition system (text : string) : ChatMessage :=
  {| role := "system"; content := text |}.

Definition user (text : string) : ChatMessage :=
  {| role := "user"; content := text |}.

(** The object returned from the [catch] of [extractLocationIntent]. *)
Definition fallback_intent (userQuery : string) : Intent :=
  {| query := userQuery;
     location := Some "near me";
     formatted_query := userQuery |}.

(** The two defaults applied to the parsed object. *)
Definition validated (userQuery : string) (extracted : RawIntent) : Intent :=
  let query :=
    if truthy_string (raw_query extracted)
    then Places.default userQuery (raw_query extracted)
    else userQuery in
  {| query := query;
     location := raw_location extracted;
     formatted_query :=
       if truthy_string (raw_formatted_query extracted)
       then Places.default query (raw_formatted_query extracted)
       else query |}.

Local Open Scope js_scope.

(** The [try] block of [extractLocationIntent]. *)
Definition extract_body (h : Host) (w : World) (userQuery : string)
  : completion Intent :=
  match extract_reply w [system EXTRACTION_PROMPT; user userQuery] with
  | Ollama.Fails e => Thrown e
  | Ollama.Response ok status body =>
      if negb ok then Thrown (Error ("Ollama API error: " ++ digits status))
      else
        match body with
        | Ollama.BodyInvalid e => Thrown e
        | Ollama.BodyJson content =>
            if negb (truthy_string content) then
              Thrown (Error "Empty response from LLM")
            else
              match JSON_parse_intent h (Places.default EmptyString content) with
              | None =>
                  Thrown {| err_name := "SyntaxError";
                            err_message := "Unexpected token";
                            err_status := None |}
              | Some extracted => Returned (validated userQuery extracted)
              end
        end
  end.

(** async function extractLocationIntent(userQuery): it never rejects. *)
Definition extractLocationIntent (h : Host) (w : World) (userQuery : string)
  : Intent :=
  match extract_body h w userQuery with
  | Returned extracted => extracted
  | Thrown _ => fallback_intent userQuery
  end.

(** [Promise.race([extractLocationIntent(userQuery), <3000 ms timer>])]
    followed by its [.catch]: Step 1 of [streamChatWithTools]. *)
Definition extract_with_timeout (h : Host) (w : World) (userQuery : string)
  : Intent :=
  let raced :=
    if extract_deadline_first w then Thrown (Error "LLM timeout")
    else Returned (extractLocationIntent h w userQuery) in
  match raced with
  | Returned extracted => extracted
  | Thrown _ =>
      {| query := userQuery; location := None; formatted_query := userQuery |}
  end.

(** ** Narration *)

(** [chunk.split("\n")] *)
Fixpoint split_newline (s : string) : list string :=
  match s with
  | EmptyString => [EmptyString]
  | String c rest =>
      if Ascii.eqb c (ascii_of_nat 10) then EmptyString :: split_newline rest
      else
        match split_newline rest with
        | line :: lines => String c line :: lines
        | [] => [String c EmptyString]
        end
  end.

Definition byte_is (c : ascii) (n : nat) : bool := Nat.eqb (nat_of_ascii c) n.

(** [line.trim()] is the empty string: the line holds only white space
    and line terminators (in UTF-8). *)
Fixpoint blank (s : string) : bool :=
  match s with
  | EmptyString => true
  | String c rest =>
      if byte_is c 9 || byte_is c 10 || byte_is c 11 || byte_is c 12
         || byte_is c 13 || byte_is c 32 then blank rest
      else
        match rest with
        | String d rest1 =>
            if byte_is c 194 && byte_is d 160 then blank rest1   (* U+00A0 *)
            else
              match rest1 with
              | String e rest2 =>
                  let n := nat_of_ascii e in
                  if byte_is c 225 && byte_is d 154 && byte_is e 128
                  then blank rest2                               (* U+1680 *)
                  else if byte_is c 226 && byte_is d 128 &&
                          (Nat.leb 128 n && Nat.leb n 138        (* U+2000-200A *)
                           || Nat.eqb n 168 || Nat.eqb n 169     (* U+2028, U+2029 *)
                           || Nat.eqb n 175)                     (* U+202F *)
                  then blank rest2
                  else if byte_is c 226 && byte_is d 129 && byte_is e 159
                  then blank rest2                               (* U+205F *)
                  else if byte_is c 227 && byte_is d 128 && byte_is e 128
                  then blank rest2                               (* U+3000 *)
                  else if byte_is c 239 && byte_is d 187 && byte_is e 191
                  then blank rest2                               (* U+FEFF *)
                  else false
              | EmptyString => false
              end
        | EmptyString => false
        end
  end.

(** [chunk.split("\n").filter(line => line.trim())] *)
Definition lines_of (chunk : string) : list string :=
  filter (fun line => negb (blank line)) (split_newline chunk).

Local Open Scope run_scope.

(** The body of the loop over [lines]; its [catch {}] drops a line that
    does not parse. *)
Definition forward_line (h : Host) (onChunk : string -> Run unit)
  (line : string) : Run unit :=
  match JSON_parse_frame h line with
  | Some parsed =>
      match Ollama.message parsed with
      | Some message =>
          if truthy_string (Ollama.content message)
          then onChunk (Places.default EmptyString (Ollama.content message))
          else ret tt
      | None => ret tt
      end
  | None => ret tt
  end.

Fixpoint for_each {A : Type} (body : A -> Run unit) (l : list A) : Run unit :=
  match l with
  | [] => ret tt
  | x :: rest => body x ;; for_each body rest
  end.

(** [while (true) { const {done, value} = await reader.read(); ... }] *)
Fixpoint read_loop (h : Host) (onChunk : string -> Run unit)
  (reads : list Ollama.Read) : Run unit :=
  match reads with
  | [] => ret tt
  | Ollama.Chunk text :: rest =>
      for_each (forward_line h onChunk) (lines_of text) ;;
      read_loop h onChunk rest
  | Ollama.ReadFails e :: _ => throw e
  end.

Definition place_line (i : nat) (p : Places.PlaceRecord) : string :=
  digits (Z.of_nat (i + 1)) ++ ". " ++
  match Places.name p with Some n => n | None => "undefined" end ++
  " - " ++
  (if truthy_number (Places.rating p)
   then ToString (Places.default 0%float (Places.rating p)) else "N/A") ++
  "★" ++
  (if truthy_string (Places.distance_text p)
   then " (" ++ Places.default EmptyString (Places.distance_text p) ++ " away)"
   else EmptyString) ++
  newline.

Fixpoint place_lines (i : nat) (ps : list Places.PlaceRecord) : string :=
  match ps with
  | [] => EmptyString
  | p :: rest => place_line i p ++ place_lines (S i) rest
  end.

(** The [context] appended to the user's query. *)
Definition narration_context (places : list Places.PlaceRecord) : string :=
  match places with
  | [] => newline ++ newline ++ "No places found."
  | _ :: _ =>
      newline ++ newline ++ "Found " ++
      digits (Z.of_nat (List.length places)) ++ " place" ++
      (if Nat.ltb 1 (List.length places) then "s" else EmptyString) ++
      ":" ++ newline ++ place_lines 0 (firstn 5 places)
  end.

(** async function streamLLMResponse(userQuery, places, onChunk) *)
Definition streamLLMResponse (h : Host) (w : World) (userQuery : string)
  (places : list Places.PlaceRecord) (onChunk : string -> Run unit)
  : Run unit :=
  tryCatch
    (let context := narration_context places in
     match narrate_reply w [system CHAT_PROMPT; user (userQuery ++ context)] with
     | Ollama.StreamFails e => throw e
     | Ollama.StreamResponse reads => read_loop h onChunk reads
     end)
    (fun error => throw error).

(** ** The orchestrator *)

(** [messages.filter(m => m.role === "user").pop()] *)
Definition lastUserMessage (messages : list ChatMessage) : option ChatMessage :=
  last (map Some (filter (fun m => String.eqb (role m) "user") messages)) None.

(** [JSON.stringify({ type: "places", data: places })] *)
Definition places_payload (places : list Places.PlaceRecord) : string :=
  Json.object
    [ Json.member "type" Json.quote (Some "places");
      Json.member "data" (fun l => Json.array (map Places.place_json l))
        (Some places) ].

Definition search_options (extracted : Intent) (userLocation : option LatLng.t)
  : Places.Options :=
  {| Places.query := formatted_query extracted;
     Places.location := None;
     Places.radius := None;
     Places.userLocation := userLocation;
     Places.language := None |}.

(** export async function streamChatWithTools(messages, onChunk, onError,
    userLocation = null) *)
Definition streamChatWithTools (h : Host) (w : World)
  (messages : list ChatMessage) (userLocation : option LatLng.t) : Run unit :=
  let onChunk := fun chunk => emit (OnChunk chunk) in
  let onError := fun error => emit (OnError error) in
  tryCatch
    (match lastUserMessage messages with
     | None => onError "No user message found"
     | Some lastUser =>
         let userQuery := content lastUser in
         (* Step 1: extract the search intent *)
         let extracted := extract_with_timeout h w userQuery in
         (* Step 2: search *)
         placesResult <-
           lift (Places.searchPlaces (math h) (googleClient w)
                   (search_options extracted userLocation)) ;;
         if truthy_string (Places.error placesResult) then
           onError (Places.default EmptyString (Places.error placesResult))
         else
           let places := Places.results placesResult in
           (* Step 3: send the places to the frontend *)
           (match places with
            | _ :: _ => onChunk (places_payload places)
            | [] => ret tt
            end) ;;
           (* Step 4: narrate *)
           tryCatch (streamLLMResponse h w userQuery places onChunk)
                    (fun llmError => ret tt) ;;
           (* Always send completion signal *)
           onChunk EmptyString
     end)
    (fun error => onError (err_message error) ;; throw error).

End Agent.

(* ================================================================== *)
(** * The chat endpoint of the Express server ([POST /api/chat]) *)
(* ================================================================== *)

Module Server.
Import Agent.

(** The response object [res], at what the handler does to it. *)
Record Response := {
  statusCode : Z;
  headers : list (string * string);
  headersSent : bool;
  written : list string;
  ended : bool
}.

Definition fresh : Response :=
  {| statusCode := 200; headers := []; headersSent := false;
     written := []; ended := false |}.

Definition setHeader (name value : string) (res : Response) : Response :=
  {| statusCode := statusCode res;
     headers :=
       (filter (fun h => negb (String.eqb (fst h) name)) (headers res)
        ++ [(name, value)])%list;
     headersSent := headersSent res;
     written := written res;
     ended := ended res |}.

(** [res.write(text)]: the first write sends the headers. *)
Definition write (text : string) (res : Response) : Response :=
  {| statusCode := statusCode res;
     headers := headers res;
     headersSent := true;
     written := (written res ++ [text])%list;
     ended := ended res |}.

(** [res.end()] *)
Definition end_ (res : Response) : Response :=
  {| statusCode := statusCode res;
     headers := headers res;
     headersSent := true;
     written := written res;
     ended := true |}.

(** [res.status(code).json(body)] *)
Definition status_json (code : Z) (body : string) (res : Response) : Response :=
  end_ (write body
    (setHeader "Content-Type" "application/json; charset=utf-8"
       {| statusCode := code;
          headers := headers res;
          headersSent := headersSent res;
          written := written res;
          ended := ended res |})).

(** [req.body]: [messages] is [None] when it is missing or not an array;
    [userLocation || null]. *)
Record ChatRequest := {
  messages : option (list ChatMessage);
  userLocation : option LatLng.t
}.

Definition structured_prefix : string :=
  "{" ++ Json.quote "type" ++ ":".

(** [`data: ${payload}\n\n`] *)
Definition data_frame (payload : string) : string :=
  "data: " ++ payload ++ newline ++ newline.

(** [JSON.stringify({ content: chunk })] *)
Definition content_object (chunk : string) : string :=
  Json.object [ Json.member "content" Json.quote (Some chunk) ].

(** The frame the [onChunk] callback of the handler writes. *)
Definition chunk_frame (chunk : string) : string :=
  if prefix structured_prefix chunk then data_frame chunk
  else data_frame (content_object chunk).

(** [error.message] in the [onError] callback: the orchestrator passes a
    string, and a string has no [message] property. *)
Definition message_of_string (error : string) : option string := None.

(** The frame the [onError] callback of the handler writes:
    [JSON.stringify({ error: error.message })]. *)
Definition error_frame (error : string) : string :=
  data_frame
    (Json.object [ Json.member "error" Json.quote (message_of_string error) ]).

Definition deliver (res : Response) (c : Call) : Response :=
  match c with
  | OnChunk chunk => write (chunk_frame chunk) res
  | OnError error => write (error_frame error) res
  end.

Definition done_frame : string := data_frame "[DONE]".

(** app.post('/api/chat', async (req, res) => { ... }) *)
Definition chat (h : Host) (w : World) (req : ChatRequest) : Response :=
  match messages req with
  | None =>
      status_json 400
        (Json.object
           [ Json.member "error" Json.quote (Some "Messages array is required") ])
        fresh
  | Some msgs =>
      (* Set up SSE *)
      let res :=
        setHeader "Connection" "keep-alive"
          (setHeader "Cache-Control" "no-cache"
             (setHeader "Content-Type" "text/event-stream" fresh)) in
      (* Stream response *)
      let (calls, outcome) := streamChatWithTools h w msgs (userLocation req) in
      let res := fold_left deliver calls res in
      match outcome with
      | Returned _ => end_ (write done_frame res)
      | Thrown error =>
          if headersSent res then res
          else
            status_json 500
              (Json.object
                 [ Json.member "error" Json.quote (Some "Chat failed");
                   Json.member "details" Json.quote (Some (err_message error)) ])
              res
      end
  end.

End Server.

(* ================================================================== *)
(** * A host and a few turns to run the code on *)
(* ================================================================== *)

Module Examples.
Import JsNumber Agent.

(** A host whose [Math.sin], [Math.cos] and [Math.atan2] are truncated
    power series (ECMAScript leaves their precision to the host). *)
Fixpoint horner (x2 : number) (denominators : list number) : number :=
  match denominators with
  | [] => 1%float
  | d :: rest => (1 - x2 / d * horner x2 rest)%float
  end.

Definition series_sin (x : number) : number :=
  (x * horner (x * x) [6; 20; 42; 72; 110; 156; 210; 272; 342])%float.

Definition series_cos (x : number) : number :=
  horner (x * x)%float [2; 12; 30; 56; 90; 132; 182; 240; 306]%float.

(** [atan t = 2 * atan (t / (1 + sqrt (1 + t * t)))] *)
Definition halve_angle (t : number) : number :=
  (t / (1 + PrimFloat.sqrt (1 + t * t)))%float.

Definition series_atan (t : number) : number :=
  let u := halve_angle (halve_angle (halve_angle t)) in
  let u2 := (u * u)%float in
  (8 * (u * (1 - u2 * (1 / 3 - u2 * (1 / 5 - u2 * (1 / 7 - u2 / 9))))))%float.

Definition series_atan2 (y x : number) : number :=
  if PrimFloat.ltb 0%float x then series_atan (y / x)%float
  else if PrimFloat.ltb x 0%float then
    (if PrimFloat.leb 0%float y
     then (series_atan (y / x) + 0x1.921fb54442d18p+1)%float
     else (series_atan (y / x) - 0x1.921fb54442d18p+1)%float)
  else if PrimFloat.ltb 0%float y then 0x1.921fb54442d18p+0%float
  else if PrimFloat.ltb y 0%float then (- 0x1.921fb54442d18p+0)%float
  else y.

Definition series_math : FloatGeo.MathHost :=
  {| FloatGeo.host_sin := series_sin;
     FloatGeo.host_cos := series_cos;
     FloatGeo.host_atan2 := series_atan2 |}.

(** Undoes the backslash escapes of a JSON string body (quote, backslash
    and newline). *)
Fixpoint unescape (s : string) : string :=
  match s with
  | EmptyString => EmptyString
  | String c rest =>
      if byte_is c 92 then
        match rest with
        | String d rest' =>
            String (if byte_is d 110 then ascii_of_nat 10 else d) (unescape rest')
        | EmptyString => EmptyString
        end
      else String c (unescape rest)
  end.

(** The text of [s] between [pre] and [suf], when [s] has that shape. *)
Definition between (pre suf s : string) : option string :=
  let n := String.length s in
  let a := String.length pre in
  let b := String.length suf in
  if prefix pre s && Nat.leb (a + b) n
     && String.eqb (substring (n - b) b s) suf
  then Some (substring a (n - a - b) s)
  else None.

(** [JSON.parse] on the lines that hold one object with a [message]
    whose only property is a string [content]; every other line is a
    syntax error. *)
Definition parse_frame (line : string) : option Ollama.Frame :=
  match between (dquotes "{~message~:{~content~:~") (dquotes "~}}") line with
  | Some body =>
      Some {| Ollama.message :=
                Some {| Ollama.content := Some (unescape body) |} |}
  | None => None
  end.

Definition taipei_json : string :=
  dquotes "{~query~:~coffee shop~,~location~:~Taipei 101~,~formatted_query~:~coffee shop in Taipei 101~}".

(** [JSON.parse] on one intent object; every other text is a syntax
    error. *)
Definition parse_intent (text : string) : option RawIntent :=
  if String.eqb text taipei_json then
    Some {| raw_query := Some "coffee shop";
            raw_location := Some "Taipei 101";
            raw_formatted_query := Some "coffee shop in Taipei 101" |}
  else None.

Definition host : Host :=
  {| math := series_math;
     JSON_parse_intent := parse_intent;
     JSON_parse_frame := parse_frame |}.

Definition place (name : string) (location : option LatLng.t) : Provider.Place :=
  {| Provider.place_id := Some ("id-" ++ name);
     Provider.name := Some name;
     Provider.formatted_address := None;
     Provider.vicinity := None;
     Provider.geometry :=
       match location with
       | Some l => Some {| Provider.location := Some l |}
       | None => None
       end;
     Provider.rating := Some 4.5%float;
     Provider.user_ratings_total := None;
     Provider.price_level := None;
     Provider.international_phone_number := None;
     Provider.website := None;
     Provider.opening_hours := None;
     Provider.types := None;
     Provider.photos := None;
     Provider.permanently_closed := None |}.

Definition at_ (lat lng : number) : option LatLng.t :=
  Some {| LatLng.lat := Some lat; LatLng.lng := Some lng |}.

Definition two_places : list Provider.Place :=
  [ place "Cafe A" (at_ 25.0339%float 121.5645%float);
    place "Cafe B" None ].

(** A place on the equator. *)
Definition equator_place : Provider.Place :=
  place "Mitad del Mundo" (at_ 0%float 10%float).

Definition frame_line (text : string) : string :=
  dquotes "{~message~:{~content~:~" ++ text ++ dquotes "~}}".

Definition http_error (status : Z) : JsError :=
  {| err_name := "AxiosError";
     err_message := "Request failed with status code " ++ digits status;
     err_status := Some status |}.

Definition AbortError : JsError :=
  {| err_name := "AbortError";
     err_message := "This operation was aborted";
     err_status := None |}.

Definition client_returning (ps : list Provider.Place) : Places.Client :=
  {| Places.textSearch := fun _ => Returned (Some ps) |}.

Definition client_failing (status : Z) : Places.Client :=
  {| Places.textSearch := fun _ => Thrown (http_error status) |}.

(** The extractor answers with the Taipei intent, the search finds two
    places, the narration streams two deltas in one read and a blank line. *)
Definition fine : World :=
  {| extract_reply := fun _ =>
       Ollama.Response true 200 (Ollama.BodyJson (Some taipei_json));
     extract_deadline_first := false;
     googleClient := client_returning two_places;
     narrate_reply := fun _ =>
       Ollama.StreamResponse
         [ Ollama.Chunk (frame_line "Here are " ++ newline ++
                         frame_line "two cafes." ++ newline);
           Ollama.Chunk (" " ++ newline ++ "not json") ] |}.

Definition with_extract (r : Ollama.Reply) (late : bool) (w : World) : World :=
  {| extract_reply := fun _ => r;
     extract_deadline_first := late;
     googleClient := googleClient w;
     narrate_reply := narrate_reply w |}.

Definition with_client (c : Places.Client) (w : World) : World :=
  {| extract_reply := extract_reply w;
     extract_deadline_first := extract_deadline_first w;
     googleClient := c;
     narrate_reply := narrate_reply w |}.

Definition with_narration (s : Ollama.Stream) (w : World) : World :=
  {| extract_reply := extract_reply w;
     extract_deadline_first := extract_deadline_first w;
     googleClient := googleClient w;
     narrate_reply := fun _ => s |}.

Definition coffee : list ChatMessage :=
  [ system "be brief"; user "find a coffee shop near Taipei 101" ].

Definition origin : option LatLng.t := at_ 1%float 1%float.

Definition coffee_question : ChatMessage :=
  user "find a coffee shop near Taipei 101".

(** What the search of the turn [fine] returns. *)
Definition found : Places.SearchResult :=
  {| Places.results := map (Places.toPlaceRecord series_math origin) two_places;
     Places.search_center := origin;
     Places.error := None |}.

Definition refused : Places.SearchResult :=
  {| Places.results := [];
     Places.search_center := None;
     Places.error := Some Places.auth_error_text |}.

(** The key is refused: the provider answers 403. *)
Definition unauthorized : World := with_client (client_failing 403) fine.

(** The provider is down: it answers 500. *)
Definition provider_down : World := with_client (client_failing 500) fine.

(** The narration request is aborted by its timer. *)
Definition narration_timeout : World :=
  with_narration (Ollama.StreamFails AbortError) fine.

(** The narration stream breaks after its first read. *)
Definition narration_cut : World :=
  with_narration
    (Ollama.StreamResponse
       [ Ollama.Chunk (frame_line "Here are ");
         Ollama.ReadFails (Error "socket hang up") ])
    fine.

(** The extractor does not answer within 3000 ms. *)
Definition slow_extractor : World :=
  with_extract (Ollama.Response true 200 (Ollama.BodyJson (Some taipei_json)))
    true fine.

(** The extractor answers with text that is not JSON. *)
Definition confused_extractor : World :=
  with_extract (Ollama.Response true 200 (Ollama.BodyJson (Some "Sure! Here"))) 
    false fine.

(** The narration says something that looks like a structured event. *)
Definition joke : string := dquotes "{~type~:~joke~}".

Definition joker : World :=
  with_narration
    (Ollama.StreamResponse
       [ Ollama.Chunk (frame_line (dquotes "{\~type\~:\~joke\~}")) ])
    fine.




Definition chat_request : Server.ChatRequest :=
  {| Server.messages := Some coffee; Server.userLocation := origin |}.

End Examples.

(* ================================================================== *)
(** * Vocabulary of the statements *)
(* ================================================================== *)

(** A number of tenths written with one decimal place. *)
Definition one_decimal (tenths : Z) : string :=
  JsNumber.digits (tenths / 10) ++ "." ++ JsNumber.digits (tenths mod 10).




Module Trace.
Import Agent.

(** The chunks passed to [onChunk], in order. *)
Fixpoint chunks (calls : list Call) : list string :=
  match calls with
  | [] => []
  | OnChunk chunk :: rest => chunk :: chunks rest
  | OnError _ :: rest => chunks rest
  end.

(** The errors passed to [onError], in order. *)
Fixpoint errors (calls : list Call) : list string :=
  match calls with
  | [] => []
  | OnChunk _ :: rest => errors rest
  | OnError error :: rest => error :: errors rest
  end.

Definition onChunk (chunk : string) : Run unit := emit (OnChunk chunk).

(** The narration content deltas of a turn: what [streamLLMResponse]
    passes to [onChunk]. *)
Definition narration_deltas (h : Host) (w : World) (userQuery : string)
  (places : list Places.PlaceRecord) : list string :=
  chunks (fst (streamLLMResponse h w userQuery places onChunk)).

(** The structured places event of a turn: one when places were found. *)
Definition places_events (places : list Places.PlaceRecord) : list Call :=
  match places with
  | [] => []
  | _ :: _ => [OnChunk (places_payload places)]
  end.

(** A narration content delta: a non-empty chunk. *)
Definition is_delta (c : Call) : bool :=
  match c with
  | OnChunk chunk => nonempty chunk
  | OnError _ => false
  end.

Definition is_error (c : Call) : bool :=
  match c with
  | OnChunk _ => false
  | OnError _ => true
  end.

(** A computation whose calls are narration content deltas only. *)
Definition deltas_only (m : Run unit) : Prop :=
  Forall (fun c => is_delta c = true) (fst m).

(** The empty content delta that ends a turn. *)
Definition terminal : Call := OnChunk EmptyString.

(** The search of a turn, as [streamChatWithTools] issues it. *)
Definition search_of_turn (h : Host) (w : World) (userQuery : string)
  (userLocation : option LatLng.t) : completion Places.SearchResult :=
  Places.searchPlaces (math h) (googleClient w)
    (search_options (extract_with_timeout h w userQuery) userLocation).




Definition frame_of_call (c : Call) : string :=
  match c with
  | OnChunk chunk => Server.chunk_frame chunk
  | OnError error => Server.error_frame error
  end.

(** The content delta a line of the streamed reply carries, if any. *)
Definition delta_of_line (h : Host) (line : string) : option string :=
  match JSON_parse_frame h line with
  | Some parsed =>
      match Ollama.message parsed with
      | Some message =>
          if truthy_string (Ollama.content message)
          then Ollama.content message else None
      | None => None
      end
  | None => None
  end.

Definition deltas_of_chunk (h : Host) (text : string) : list string :=
  flat_map (fun line => match delta_of_line h line with
                        | Some d => [d]
                        | None => []
                        end)
           (lines_of text).

(** What the read loop of the narration forwards. *)
Definition forwarded (h : Host) (reads : list Ollama.Read) : list string :=
  chunks (fst (read_loop h onChunk reads)).

Definition is_chunk (r : Ollama.Read) : bool :=
  match r with
  | Ollama.Chunk _ => true
  | Ollama.ReadFails _ => false
  end.

Definition is_user (m : ChatMessage) : bool := String.eqb (role m) "user".

(** The characters of a string. *)
Definition chars (s : string) : list ascii := list_ascii_of_string s.

Definition newline_char : ascii := ascii_of_nat 10.

(** A text without control characters (in particular on one line). *)
Definition printable (s : string) : Prop :=
  Forall (fun c => (32 <= nat_of_ascii c)%nat) (chars s).

End Trace.

(* ================================================================== *)
(** * The other gateways of [backend/maps] *)
(* ================================================================== *)

(** A [TypeError] thrown by a property access on [undefined] (the text of
    the message is the host's). *)
Definition TypeError (property : string) : JsError :=
  {| err_name := "TypeError";
     err_message :=
       "Cannot read properties of undefined (reading '" ++ property ++ "')";
     err_status := None |}.

(** [try { body } catch (error) { return handler }]: a [catch] all of
    whose paths return. *)
Definition recover {A : Type} (body : completion A) (handler : JsError -> A)
  : A :=
  match body with
  | Returned a => a
  | Thrown e => handler e
  end.

(** ** [getPlaceDetails] ([backend/maps/places.js]) *)

Module Review.
Record t := {
  author_name : option string;
  rating : option JsNumber.number;
  text : option string;
  time : option JsNumber.number;
  relative_time_description : option string
}.
End Review.

Module PlaceDetails.
Import JsNumber.
Local Open Scope js_scope.

Record EditorialSummary := { overview : option string }.

(** [response.data.result], at the fields the gateway reads. *)
Record Raw := {
  raw_place_id : option string;
  raw_name : option string;
  raw_formatted_address : option string;
  raw_formatted_phone_number : option string;
  raw_international_phone_number : option string;
  raw_website : option string;
  raw_url : option string;
  raw_rating : option number;
  raw_user_ratings_total : option number;
  raw_price_level : option number;
  raw_opening_hours : option Provider.OpeningHours;
  raw_geometry : option Provider.Geometry;
  raw_types : option (list string);
  raw_photos : option (list Provider.Photo);
  raw_reviews : option (list Review.t);
  raw_business_status : option string;
  raw_permanently_closed : option bool;
  raw_editorial_summary : option EditorialSummary;
  raw_curbside_pickup : option bool;
  raw_delivery : option bool;
  raw_dine_in : option bool;
  raw_reservable : option bool;
  raw_takeout : option bool;
  raw_wheelchair_accessible_entrance : option bool;
  raw_serves_beer : option bool;
  raw_serves_breakfast : option bool;
  raw_serves_brunch : option bool;
  raw_serves_dinner : option bool;
  raw_serves_lunch : option bool;
  raw_serves_vegetarian_food : option bool;
  raw_serves_wine : option bool
}.

Record Details := {
  place_id : string;
  name : option string;
  formatted_address : option string;
  phone : option string;
  international_phone_number : option string;
  website : option string;
  google_maps_url : option string;
  rating : option number;
  user_ratings_total : option number;
  price_level : option number;
  opening_hours : option Provider.OpeningHours;
  location : LatLng.t;
  types : option (list string);
  photos : list Places.PhotoRef;
  reviews : list Review.t;
  business_status : option string;
  permanently_closed : option bool;
  editorial_summary : option string;
  curbside_pickup : option bool;
  delivery : option bool;
  dine_in : option bool;
  reservable : option bool;
  takeout : option bool;
  wheelchair_accessible_entrance : option bool;
  serves_beer : option bool;
  serves_breakfast : option bool;
  serves_brunch : option bool;
  serves_dinner : option bool;
  serves_lunch : option bool;
  serves_vegetarian_food : option bool;
  serves_wine : option bool;
  distance_km : option number;
  distance_text : option string
}.

Record Params := { params_place_id : string; params_fields : list string }.

Definition fields : list string :=
  [ "place_id"; "name"; "formatted_address"; "formatted_phone_number";
    "international_phone_number"; "website"; "url"; "rating";
    "user_ratings_total"; "price_level"; "opening_hours"; "geometry";
    "types"; "photos"; "reviews"; "adr_address"; "business_status";
    "curbside_pickup"; "delivery"; "dine_in"; "editorial_summary";
    "reservable"; "serves_beer"; "serves_breakfast"; "serves_brunch";
    "serves_dinner"; "serves_lunch"; "serves_vegetarian_food";
    "serves_wine"; "takeout"; "wheelchair_accessible_entrance" ].

(** [client.placeDetails]: it resolves with [response.data.result] or
    rejects. *)
Record Client := { placeDetails : Params -> completion (option Raw) }.

Record Result := { result : option Details; error : option string }.

Definition raw_lat (place : Raw) : option number :=
  match raw_geometry place with
  | Some g =>
      match Provider.location g with
      | Some l => LatLng.lat l
      | None => None
      end
  | None => None
  end.

Definition raw_lng (place : Raw) : option number :=
  match raw_geometry place with
  | Some g =>
      match Provider.location g with
      | Some l => LatLng.lng l
      | None => None
      end
  | None => None
  end.

Definition review_of (review : Review.t) : Review.t :=
  {| Review.author_name := Review.author_name review;
     Review.rating := Review.rating review;
     Review.text := Review.text review;
     Review.time := Review.time review;
     Review.relative_time_description :=
       Review.relative_time_description review |}.

(** The object built from [place] in the [try] block. *)
Definition details_of (h : FloatGeo.MathHost) (placeId : string)
  (userLocation : option LatLng.t) (place : Raw) : Details :=
  let lat := raw_lat place in
  let lng := raw_lng place in
  let distance := Places.place_distance h userLocation lat lng in
  {| place_id :=
       if truthy_string (raw_place_id place)
       then Places.default placeId (raw_place_id place) else placeId;
     name := raw_name place;
     formatted_address := raw_formatted_address place;
     phone := raw_formatted_phone_number place;
     international_phone_number := raw_international_phone_number place;
     website := raw_website place;
     google_maps_url := raw_url place;
     rating := raw_rating place;
     user_ratings_total := raw_user_ratings_total place;
     price_level := raw_price_level place;
     opening_hours :=
       match raw_opening_hours place with
       | Some oh =>
           Some {| Provider.open_now := Provider.open_now oh;
                   Provider.periods := Provider.periods oh;
                   Provider.weekday_text := Provider.weekday_text oh |}
       | None => None
       end;
     location := {| LatLng.lat := lat; LatLng.lng := lng |};
     types := raw_types place;
     photos :=
       match raw_photos place with
       | Some ps => map Places.photo_ref (firstn 10 ps)
       | None => []
       end;
     reviews :=
       match raw_reviews place with
       | Some rs => map review_of rs
       | None => []
       end;
     business_status := raw_business_status place;
     permanently_closed := raw_permanently_closed place;
     editorial_summary :=
       match raw_editorial_summary place with
       | Some s => if truthy_string (overview s) then overview s else None
       | None => None
       end;
     curbside_pickup := raw_curbside_pickup place;
     delivery := raw_delivery place;
     dine_in := raw_dine_in place;
     reservable := raw_reservable place;
     takeout := raw_takeout place;
     wheelchair_accessible_entrance := raw_wheelchair_accessible_entrance place;
     serves_beer := raw_serves_beer place;
     serves_breakfast := raw_serves_breakfast place;
     serves_brunch := raw_serves_brunch place;
     serves_dinner := raw_serves_dinner place;
     serves_lunch := raw_serves_lunch place;
     serves_vegetarian_food := raw_serves_vegetarian_food place;
     serves_wine := raw_serves_wine place;
     distance_km := distance;
     distance_text :=
       match distance with
       | Some d => Some (Geo.formatDistance d)
       | None => None
       end |}.

(** export async function getPlaceDetails(client, placeId, userLocation) *)
Definition getPlaceDetails (h : FloatGeo.MathHost) (client : Client)
  (placeId : string) (userLocation : option LatLng.t) : completion Result :=
  try_catch
    (data_result <-
       placeDetails client
         {| params_place_id := placeId; params_fields := fields |} ;;
     match data_result with
     | None => Thrown (TypeError "geometry")
     | Some place =>
         Returned {| result := Some (details_of h placeId userLocation place);
                     error := None |}
     end)
    (fun error =>
       match err_status error with
       | Some 404 => Thrown (Error "Place not found")
       | Some 403 => Returned {| result := None; error := Some "API key issue" |}
       | _ => Thrown error
       end).

End PlaceDetails.

(** ** [geocodeLocation] and [reverseGeocode] ([backend/maps/places.js]) *)

Module Geocoding.
Import JsNumber.
Local Open Scope js_scope.

Record GeocodeResult := {
  geometry : option Provider.Geometry;
  formatted_address : option string
}.

(** [client.geocode] and [client.reverseGeocode]: they resolve with
    [response.data.results] or reject. *)
Record Client := {
  geocode : string -> completion (option (list GeocodeResult));
  reverseGeocode : LatLng.t -> completion (option (list GeocodeResult))
}.

(** The [try] block of [geocodeLocation]. *)
Definition geocode_body (client : Client) (location : string)
  : completion (option LatLng.t) :=
  results <- geocode client location ;;
  match results with
  | Some (first :: _) =>
      match geometry first with
      | None => Thrown (TypeError "location")
      | Some g =>
          match Provider.location g with
          | None => Thrown (TypeError "lat")
          | Some l =>
              Returned (Some {| LatLng.lat := LatLng.lat l;
                                LatLng.lng := LatLng.lng l |})
          end
      end
  | _ => Returned None
  end.

(** export async function geocodeLocation(client, location) *)
Definition geocodeLocation (client : Client) (location : string)
  : option LatLng.t :=
  recover (geocode_body client location) (fun error => None).

(** export async function reverseGeocode(client, lat, lng) *)
Definition reverseGeocode_ (client : Client) (lat lng : number)
  : option string :=
  recover
    (results <- reverseGeocode client
                  {| LatLng.lat := Some lat; LatLng.lng := Some lng |} ;;
     match results with
     | Some (first :: _) => Returned (formatted_address first)
     | _ => Returned None
     end)
    (fun error => None).

End Geocoding.

(** ** [getDirections] ([backend/maps/directions.js]) *)

Module Directions.
Local Open Scope js_scope.

Record TextValue := { text : option string }.
Record Leg := { distance : option TextValue; duration : option TextValue }.
Record Route := { legs : option (list Leg) }.

Record Params := {
  params_origin : string;
  params_destination : string;
  params_mode : string
}.

(** [client.directions]: it resolves with [response.data.routes] or
    rejects. *)
Record Client := { directions : Params -> completion (option (list Route)) }.

(** The object returned as [result]: one route with one leg. *)
Record LegOut := { leg_distance : TextValue; leg_duration : TextValue }.
Record RouteOut := { route_legs : list LegOut }.
Record Found := { routes : list RouteOut }.

Record Result := { result : option Found; error : option string }.

Record Options := {
  origin : string;
  destination : string;
  mode : option string      (* default 'driving' *)
}.

(** [route.legs[0]], then [leg.distance.text] and [leg.duration.text]. *)
Definition first_leg (route : Route) : completion LegOut :=
  match legs route with
  | None => Thrown (TypeError "0")
  | Some [] => Thrown (TypeError "distance")
  | Some (leg :: _) =>
      match distance leg with
      | None => Thrown (TypeError "text")
      | Some d =>
          match duration leg with
          | None => Thrown (TypeError "text")
          | Some t =>
              Returned {| leg_distance := {| text := text d |};
                          leg_duration := {| text := text t |} |}
          end
      end
  end.

(** export async function getDirections(client, {origin, destination,
    mode = 'driving'}): every path returns. *)
Definition getDirections (client : Client) (o : Options) : Result :=
  recover
    (data_routes <-
       directions client
         {| params_origin := origin o;
            params_destination := destination o;
            params_mode := Places.default "driving" (mode o) |} ;;
     match data_routes with
     | None | Some [] =>
         Returned {| result := None; error := Some "No directions found" |}
     | Some (route :: _) =>
         leg <- first_leg route ;;
         Returned
           {| result := Some {| routes := [ {| route_legs := [leg] |} ] |};
              error := None |}
     end)
    (fun error =>
       match err_status error with
       | Some 403 => {| result := None; error := Some "API key issue" |}
       | _ => {| result := None; error := Some (err_message error) |}
       end).

End Directions.

(* ================================================================== *)
(** * The query routes of the Express server *)
(* ================================================================== *)

Module Routes.
Import JsNumber.

(** Built-ins the routes apply to query strings. *)
Record StringHost := {
  parseFloat : string -> number;
  parseInt : string -> number;
  trim : string -> string;
  slice_to : nat -> string -> string     (* [s.slice(0, n)] *)
}.

(** What a route answers: [res.json(payload)] with status 200, or
    [res.status(code).json({ error, details })]. *)
Inductive Body (A : Type) : Type :=
| Payload (a : A)
| Failure (error : string) (details : option string).
Arguments Payload {A} a.
Arguments Failure {A} error details.

Record Reply (A : Type) : Type := { status : Z; body : Body A }.
Arguments status {A} r.
Arguments body {A} r.

Definition ok {A : Type} (a : A) : Reply A :=
  {| status := 200; body := Payload a |}.

Definition fail {A : Type} (code : Z) (error : string)
  (details : option string) : Reply A :=
  {| status := code; body := Failure error details |}.

(** [(userLat && userLng) ? { lat: parseFloat(userLat),
    lng: parseFloat(userLng) } : null] *)
Definition user_location (sh : StringHost) (userLat userLng : option string)
  : option LatLng.t :=
  if truthy_string userLat && truthy_string userLng then
    Some {| LatLng.lat :=
              Some (parseFloat sh (Places.default EmptyString userLat));
            LatLng.lng :=
              Some (parseFloat sh (Places.default EmptyString userLng)) |}
  else None.

(** ** GET /api/places/search *)

Record SearchQuery := {
  sq_query : option string;
  sq_location : option string;
  sq_radius : option string;
  sq_userLat : option string;
  sq_userLng : option string
}.

Definition places_search (h : FloatGeo.MathHost) (sh : StringHost)
  (client : Places.Client) (q : SearchQuery) : Reply Places.SearchResult :=
  if negb (truthy_string (sq_query q)) then
    fail 400 "Query parameter is required" None
  else
    let sanitizedQuery :=
      slice_to sh 200 (trim sh (Places.default EmptyString (sq_query q))) in
    match
      Places.searchPlaces h client
        {| Places.query := sanitizedQuery;
           Places.location := option_map Places.LocationText (sq_location q);
           Places.radius :=
             Some match sq_radius q with
                  | Some r => parseInt sh r
                  | None => 5000%float
                  end;
           Places.userLocation :=
             user_location sh (sq_userLat q) (sq_userLng q);
           Places.language := None |}
    with
    | Returned result => ok result
    | Thrown error =>
        fail 500 "Failed to search places" (Some (err_message error))
    end.

(** ** GET /api/places/details *)

Record DetailsQuery := {
  dq_placeId : option string;
  dq_userLat : option string;
  dq_userLng : option string
}.

Definition places_details (h : FloatGeo.MathHost) (sh : StringHost)
  (client : PlaceDetails.Client) (q : DetailsQuery)
  : Reply PlaceDetails.Result :=
  if negb (truthy_string (dq_placeId q)) then
    fail 400 "placeId parameter is required" None
  else
    match
      PlaceDetails.getPlaceDetails h client
        (Places.default EmptyString (dq_placeId q))
        (user_location sh (dq_userLat q) (dq_userLng q))
    with
    | Returned result => ok result
    | Thrown error =>
        fail 500 "Failed to get place details" (Some (err_message error))
    end.

(** ** GET /api/geocode *)

Definition geocode (client : Geocoding.Client) (address : option string)
  : Reply LatLng.t :=
  if negb (truthy_string address) then
    fail 400 "address parameter is required" None
  else
    match
      Geocoding.geocodeLocation client (Places.default EmptyString address)
    with
    | None => fail 404 "Address not found" None
    | Some result => ok result
    end.

(** ** GET /api/reverse-geocode *)

Record Address := {
  address : string;
  address_lat : number;
  address_lng : number
}.

Definition reverse_geocode (sh : StringHost) (client : Geocoding.Client)
  (lat lng : option string) : Reply Address :=
  if negb (truthy_string lat) || negb (truthy_string lng) then
    fail 400 "lat and lng parameters are required" None
  else
    let flat := parseFloat sh (Places.default EmptyString lat) in
    let flng := parseFloat sh (Places.default EmptyString lng) in
    match Geocoding.reverseGeocode_ client flat flng with
    | Some text =>
        if nonempty text then
          ok {| address := text; address_lat := flat; address_lng := flng |}
        else fail 404 "Address not found for given coordinates" None
    | None => fail 404 "Address not found for given coordinates" None
    end.

(** ** GET /api/distance *)

Record Distance := {
  distance_km : number;
  distance_text : string;
  distance_meters : number
}.

Definition distance (h : FloatGeo.MathHost) (sh : StringHost)
  (lat1 lng1 lat2 lng2 : option string) : Reply Distance :=
  if negb (truthy_string lat1) || negb (truthy_string lng1)
     || negb (truthy_string lat2) || negb (truthy_string lng2) then
    fail 400 "lat1, lng1, lat2, and lng2 parameters are required" None
  else
    let distanceKm :=
      FloatGeo.calculateDistance h
        (parseFloat sh (Places.default EmptyString lat1))
        (parseFloat sh (Places.default EmptyString lng1))
        (parseFloat sh (Places.default EmptyString lat2))
        (parseFloat sh (Places.default EmptyString lng2)) in
    ok {| distance_km := distanceKm;
          distance_text := Geo.formatDistance distanceKm;
          distance_meters :=
            Math_round (PrimFloat.mul distanceKm 1000%float) |}.

(** ** GET /api/directions *)

(** A query parameter as Express parses it: a string, or an array or an
    object when the parameter is repeated or written with brackets. *)
Inductive QueryValue :=
| Text (s : string)
| Structure.

(** [ToBoolean] of a query parameter: arrays and objects are truthy. *)
Definition truthy_value (v : option QueryValue) : bool :=
  match v with
  | Some (Text s) => nonempty s
  | Some Structure => true
  | None => false
  end.

(** The [TypeError] of a call of something that is not a function (the
    text of the message is the host's). *)
Definition NotAFunction (callee : string) : JsError :=
  {| err_name := "TypeError";
     err_message := callee ++ " is not a function";
     err_status := None |}.

(** [v.trim()]: a method of strings only. *)
Definition trim_of (sh : StringHost) (name : string) (v : option QueryValue)
  : completion string :=
  match v with
  | Some (Text s) => Returned (trim sh s)
  | Some Structure => Thrown (NotAFunction (name ++ ".trim"))
  | None => Thrown (TypeError "trim")
  end.

Definition validModes : list string :=
  [ "driving"; "walking"; "bicycling"; "transit" ].

(** [validModes.includes(mode)] *)
Definition includes (l : list string) (x : string) : bool :=
  existsb (String.eqb x) l.

(** The same on a query parameter: an array or an object is none of the
    strings. *)
Definition includes_value (l : list string) (v : QueryValue) : bool :=
  match v with
  | Text s => includes l s
  | Structure => false
  end.

Record DirectionsQuery := {
  dir_origin : option QueryValue;
  dir_destination : option QueryValue;
  dir_mode : option QueryValue        (* default 'driving' *)
}.

Local Open Scope js_scope.

(** The [try] block of the route. *)
Definition directions_body (sh : StringHost) (client : Directions.Client)
  (q : DirectionsQuery) : completion (Reply Directions.Result) :=
  let mode := Places.default (Text "driving") (dir_mode q) in
  if negb (truthy_value (dir_origin q))
     || negb (truthy_value (dir_destination q)) then
    Returned (fail 400 "Origin and destination are required" None)
  else if negb (includes_value validModes mode) then
    Returned
      (fail 400
         ("Invalid mode. Must be one of: " ++ Json.join ", " validModes)
         None)
  else
    origin <- trim_of sh "origin" (dir_origin q) ;;
    destination <- trim_of sh "destination" (dir_destination q) ;;
    Returned
      (ok (Directions.getDirections client
             {| Directions.origin := slice_to sh 500 origin;
                Directions.destination := slice_to sh 500 destination;
                Directions.mode :=
                  match mode with
                  | Text m => Some m
                  | Structure => None
                  end |})).

Definition directions (sh : StringHost) (client : Directions.Client)
  (q : DirectionsQuery) : Reply Directions.Result :=
  recover (directions_body sh client q)
    (fun error =>
       fail 500 "Failed to get directions" (Some (err_message error))).

(** ** GET /api/map/embed *)

(** The characters [encodeURIComponent] leaves as they are. *)
Definition unreserved (c : ascii) : bool :=
  let n := nat_of_ascii c in
  (Nat.leb 65 n && Nat.leb n 90) || (Nat.leb 97 n && Nat.leb n 122)
  || (Nat.leb 48 n && Nat.leb n 57)
  || existsb (Nat.eqb n) [45; 95; 46; 33; 126; 42; 39; 40; 41]%nat.

Definition upper_hex (n : nat) : string :=
  match get n "0123456789ABCDEF" with
  | Some c => String c EmptyString
  | None => EmptyString
  end.

(** [encodeURIComponent], on the UTF-8 bytes of the text. *)
Fixpoint encodeURIComponent (s : string) : string :=
  match s with
  | EmptyString => EmptyString
  | String c rest =>
      (if unreserved c then String c EmptyString
       else "%" ++ upper_hex (Nat.div (nat_of_ascii c) 16)
                ++ upper_hex (Nat.modulo (nat_of_ascii c) 16))
      ++ encodeURIComponent rest
  end.

Record Embed := { embedUrl : string; html : string; directLink : string }.

Definition place_embed_prefix : string :=
  "https://www.google.com/maps/embed?pb=!1m18!1m12!1m3!1d0!2d0!3d0!2m3!1f0!2f0!3f0!3m2!1i1024!2i768!4f13.1!3m3!1m2!1s0x0:0x0!2zM!3e0!3m2!sen-US!sus!5e0!3m2!sen-US!sus&cid=".

Definition iframe (url : string) : string :=
  Agent.dquotes "<iframe width=~600~ height=~450~ style=~border:0~ allowfullscreen loading=~lazy~ referrerpolicy=~no-referrer-when-downgrade~ src=~"
  ++ url ++ Agent.dquotes "~></iframe>".

Definition map_embed (placeId q : option string) : Reply Embed :=
  if negb (truthy_string placeId) && negb (truthy_string q) then
    fail 400 "Either placeId or q parameter is required" None
  else
    let id := Places.default EmptyString placeId in
    let query := Places.default EmptyString q in
    let url :=
      if truthy_string placeId then place_embed_prefix ++ id
      else "https://www.google.com/maps?q=" ++ encodeURIComponent query
           ++ "&output=embed" in
    ok {| embedUrl := url;
          html := iframe url;
          directLink :=
            if truthy_string placeId
            then "https://www.google.com/maps/place/?cid=" ++ id
            else "https://www.google.com/maps/search/"
                 ++ encodeURIComponent query |}.

End Routes.

(* ================================================================== *)
(** * The browser side of the chat stream ([streamChat]) *)
(* ================================================================== *)

Module Browser.
Import Agent.
Local Open Scope run_scope.

(** [JSON.parse(data)] of one frame, at the fields the code reads. *)
Record Event := {
  ev_content : option string;
  ev_type : option string;
  ev_error : option string
}.

(** [JSON.parse], as in [Agent.Host]: [None] when it throws, or gives a
    value whose properties cannot be read. *)
Record Host := { JSON_parse_event : string -> option Event }.

(** [await fetch(`${API_HOST}/chat`, ...)] and the reads of its body. *)
Inductive Reply :=
| Fails (e : JsError)
| Response (ok : bool) (status : Z) (reads : list Ollama.Read).

Definition data_prefix : string := "data: ".

(** The body of the loop over [lines], after the two tests that skip or
    leave the loop. *)
Definition handle_data (h : Host) (data : string) : Run unit :=
  match JSON_parse_event h data with
  | Some parsed =>
      (if truthy_string (ev_content parsed) then
         emit (OnChunk (Places.default EmptyString (ev_content parsed)))
       else
         match ev_type parsed with
         | Some t => if String.eqb t "places" then emit (OnChunk data)
                     else ret tt
         | None => ret tt
         end) ;;
      (if truthy_string (ev_error parsed) then
         emit (OnError (Places.default EmptyString (ev_error parsed)))
       else ret tt)
  | None => ret tt
  end.

(** [line.slice(6)] *)
Definition slice6 (line : string) : string :=
  substring 6 (String.length line - 6) line.

(** [for (const line of lines) { ... }]: a line that is blank or does not
    start with the data prefix is skipped; the done line leaves the loop. *)
Fixpoint for_lines (h : Host) (lines : list string) : Run unit :=
  match lines with
  | [] => ret tt
  | line :: rest =>
      if blank line || negb (prefix data_prefix line) then for_lines h rest
      else
        let data := slice6 line in
        if String.eqb data "[DONE]" then ret tt
        else handle_data h data ;; for_lines h rest
  end.

(** [buffer.split('\n')], then [lines.pop() || '']: the complete lines
    and the new buffer. *)
Definition take_lines (buffer : string) : list string * string :=
  let lines := split_newline buffer in
  (removelast lines, last lines EmptyString).

(** One turn of the [while] loop on a chunk of text. *)
Definition feed (h : Host) (buffer text : string) : Run string :=
  let (lines, rest) := take_lines (buffer ++ text) in
  for_lines h lines ;; ret rest.

Fixpoint read_all (h : Host) (buffer : string) (reads : list Ollama.Read)
  : Run unit :=
  match reads with
  | [] => ret tt
  | Ollama.Chunk text :: rest =>
      buffer' <- feed h buffer text ;; read_all h buffer' rest
  | Ollama.ReadFails e :: _ => throw e
  end.

(** export async function streamChat(messages, onChunk, onError,
    userLocation = null) *)
Definition streamChat (h : Host) (reply : Reply) : Run unit :=
  tryCatch
    (match reply with
     | Fails e => throw e
     | Response ok status reads =>
         if negb ok then
           throw (Error ("API error: " ++ JsNumber.digits status))
         else read_all h EmptyString reads
     end)
    (fun error => emit (OnError (err_message error)) ;; throw error).

End Browser.

(* ================================================================== *)
(** * Vocabulary for the event stream on the wire *)
(* ================================================================== *)

Module Wire.
Import Agent Browser.

(** The text a sequence of reads delivers. *)
Definition received (texts : list string) : string :=
  fold_right String.append EmptyString texts.

(** Reads that all deliver text. *)
Definition arriving (texts : list string) : list Ollama.Read :=
  map Ollama.Chunk texts.

(** The lines of a text that are ended by a newline. *)
Definition complete_lines (s : string) : list string := fst (take_lines s).

(** A line the browser takes for the end of the stream. *)
Definition is_done_line (line : string) : bool :=
  negb (blank line || negb (prefix data_prefix line))
  && String.eqb (slice6 line) "[DONE]".

(** A line that never leads to a callback. *)
Definition silent (line : string) : bool :=
  blank line || negb (prefix data_prefix line)
  || String.eqb (slice6 line) "[DONE]".

(** No line that could lead to a callback comes after a done line. *)
Fixpoint done_is_last (lines : list string) : bool :=
  match lines with
  | [] => true
  | line :: rest =>
      if is_done_line line then forallb silent rest else done_is_last rest
  end.

(** The callbacks a line leads to when it is handled. *)
Definition calls_of_line (h : Host) (line : string) : list Call :=
  if silent line then [] else fst (handle_data h (slice6 line)).

(** An event with none of the properties the browser reads. *)
Definition no_event : Event :=
  {| ev_content := None; ev_type := None; ev_error := None |}.

(** The event of a content frame. *)
Definition content_event (text : string) : Event :=
  {| ev_content := Some text; ev_type := None; ev_error := None |}.

(** The lines a frame with this payload is read as. *)
Definition lines_of_frame (payload : string) : list string :=
  [ (data_prefix ++ payload)%string; EmptyString ].

(** The browser's [JSON.parse] reads a content frame back. *)
Definition reads_back (h : Host) (text : string) : Prop :=
  JSON_parse_event h (Server.content_object text) = Some (content_event text).

(** The browser's [JSON.parse] reads a places event as an object of type
    places without content or error. *)
Definition reads_places (h : Host) (payload : string) : Prop :=
  exists ev,
    JSON_parse_event h payload = Some ev
    /\ truthy_string (ev_content ev) = false
    /\ ev_type ev = Some "places"%string
    /\ truthy_string (ev_error ev) = false.

End Wire.

(** [typeof v === 'string'] of a query parameter. *)
Definition is_text (v : option Routes.QueryValue) : bool :=
  match v with
  | Some (Routes.Text _) => true
  | _ => false
  end.



(* ================================================================== *)
(** * Providers, query strings and a browser to run the code on *)
(* ================================================================== *)

Module MoreExamples.
Import JsNumber Agent Examples.

(** The value of the leading decimal digits of a text. *)
Fixpoint leading_digits (s : string) (seen : option Z) : option Z :=
  match s with
  | EmptyString => seen
  | String c rest =>
      let n := nat_of_ascii c in
      if Nat.leb 48 n && Nat.leb n 57 then
        leading_digits rest
          (Some (10 * Places.default 0 seen + Z.of_nat (n - 48)))
      else seen
  end.

(** [parseInt] and [parseFloat] on texts that are an unsigned decimal
    integer or start with no digit (the only query strings used below). *)
Definition parse_number (s : string) : number :=
  match leading_digits s None with
  | Some z => FloatGeo.of_literal z
  | None => PrimFloat.nan
  end.

Definition is_space (c : ascii) : bool :=
  byte_is c 9 || byte_is c 10 || byte_is c 11 || byte_is c 12
  || byte_is c 13 || byte_is c 32.

Fixpoint trim_start (s : string) : string :=
  match s with
  | EmptyString => EmptyString
  | String c rest => if is_space c then trim_start rest else s
  end.

Fixpoint trim_end (s : string) : string :=
  match s with
  | EmptyString => EmptyString
  | String c rest =>
      match trim_end rest with
      | EmptyString => if is_space c then EmptyString else String c EmptyString
      | kept => String c kept
      end
  end.

(** String built-ins, on ASCII texts. *)
Definition strings : Routes.StringHost :=
  {| Routes.parseFloat := parse_number;
     Routes.parseInt := parse_number;
     Routes.trim := fun s => trim_end (trim_start s);
     Routes.slice_to := fun n s => substring 0 n s |}.

(** What the provider knows about one place. *)
Definition raw_cafe : PlaceDetails.Raw :=
  {| PlaceDetails.raw_place_id := Some "id-Cafe A";
     PlaceDetails.raw_name := Some "Cafe A";
     PlaceDetails.raw_formatted_address := Some "1 Main Street";
     PlaceDetails.raw_formatted_phone_number := None;
     PlaceDetails.raw_international_phone_number := None;
     PlaceDetails.raw_website := None;
     PlaceDetails.raw_url := None;
     PlaceDetails.raw_rating := Some 4.5%float;
     PlaceDetails.raw_user_ratings_total := Some 12%float;
     PlaceDetails.raw_price_level := None;
     PlaceDetails.raw_opening_hours := None;
     PlaceDetails.raw_geometry :=
       Some {| Provider.location := at_ 25.0339%float 121.5645%float |};
     PlaceDetails.raw_types := Some ["cafe"];
     PlaceDetails.raw_photos := None;
     PlaceDetails.raw_reviews := None;
     PlaceDetails.raw_business_status := Some "OPERATIONAL";
     PlaceDetails.raw_permanently_closed := None;
     PlaceDetails.raw_editorial_summary := None;
     PlaceDetails.raw_curbside_pickup := None;
     PlaceDetails.raw_delivery := None;
     PlaceDetails.raw_dine_in := Some true;
     PlaceDetails.raw_reservable := None;
     PlaceDetails.raw_takeout := Some true;
     PlaceDetails.raw_wheelchair_accessible_entrance := None;
     PlaceDetails.raw_serves_beer := None;
     PlaceDetails.raw_serves_breakfast := Some true;
     PlaceDetails.raw_serves_brunch := None;
     PlaceDetails.raw_serves_dinner := None;
     PlaceDetails.raw_serves_lunch := None;
     PlaceDetails.raw_serves_vegetarian_food := None;
     PlaceDetails.raw_serves_wine := None |}.

Definition details_client (answer : completion (option PlaceDetails.Raw))
  : PlaceDetails.Client :=
  {| PlaceDetails.placeDetails := fun _ => answer |}.

Definition taipei_101 : Geocoding.GeocodeResult :=
  {| Geocoding.geometry :=
       Some {| Provider.location := at_ 25.0339%float 121.5645%float |};
     Geocoding.formatted_address :=
       Some "No. 7, Section 5, Xinyi Road, Taipei" |}.

Definition geocoder (answer : completion (option (list Geocoding.GeocodeResult)))
  : Geocoding.Client :=
  {| Geocoding.geocode := fun _ => answer;
     Geocoding.reverseGeocode := fun _ => answer |}.

Definition walk : Directions.Route :=
  {| Directions.legs :=
       Some [ {| Directions.distance :=
                   Some {| Directions.text := Some "1.2 km" |};
                 Directions.duration :=
                   Some {| Directions.text := Some "15 mins" |} |} ] |}.

Definition router (answer : completion (option (list Directions.Route)))
  : Directions.Client :=
  {| Directions.directions := fun _ => answer |}.

(** Six records, and the same list with another sixth record. *)
Definition six_places : list Places.PlaceRecord :=
  map (fun name => Places.toPlaceRecord series_math None (place name None))
      [ "A"; "B"; "C"; "D"; "E"; "F" ].

Definition six_other_places : list Places.PlaceRecord :=
  map (fun name => Places.toPlaceRecord series_math None (place name None))
      [ "A"; "B"; "C"; "D"; "E"; "Z" ].

(** [JSON.parse] in the browser, on the frames the endpoint writes: a
    places event, an object whose only property is a string [content],
    and the empty object; every other text is a syntax error. *)
Definition parse_event (data : string) : option Browser.Event :=
  if prefix (dquotes "{~type~:~places~,") data then
    Some {| Browser.ev_content := None;
            Browser.ev_type := Some "places";
            Browser.ev_error := None |}
  else
    match between (dquotes "{~content~:~") (dquotes "~}") data with
    | Some text => Some (Wire.content_event (unescape text))
    | None => if String.eqb data "{}" then Some Wire.no_event else None
    end.

Definition browser : Browser.Host :=
  {| Browser.JSON_parse_event := parse_event |}.

(** The body of the turn [fine], cut in the middle of its first line. *)
Definition fine_body : string :=
  Wire.received (Server.written (Server.chat host fine chat_request)).

Definition fine_reads : list string :=
  [ substring 0 40 fine_body;
    substring 40 (String.length fine_body - 40) fine_body ].

End MoreExamples.

(* ================================================================== *)
(** * Properties of the geo utility *)
(* ================================================================== *)

Import JsNumber.

Lemma SFcompare_antisym (a b : spec_float) :
  SFcompare b a = option_map CompOpp (SFcompare a b).
Proof.
  destruct a as [sa|sa| |sa ma ea], b as [sb|sb| |sb mb eb]; simpl;
    try reflexivity;
    try (destruct sa; reflexivity); try (destruct sb; reflexivity);
    try (destruct sa, sb; reflexivity).
  pose proof (Z.compare_antisym ea eb) as HZ.
  pose proof (Pos.compare_cont_antisym ma mb Eq) as HP. simpl in HP.
  destruct sa, sb; simpl; try reflexivity;
    rewrite HZ; destruct (ea ?= eb)%Z; simpl; try reflexivity;
    rewrite <- HP; destruct (Pos.compare_cont Eq ma mb); reflexivity.
Qed.

(** On Numbers that are not NaN, [x < y] is the negation of [y <= x]. *)
Lemma ltb_negb_leb (x y : float) :
  PrimFloat.eqb x x = true -> PrimFloat.eqb y y = true ->
  PrimFloat.ltb x y = negb (PrimFloat.leb y x).
Proof.
  rewrite !FloatAxioms.eqb_spec, FloatAxioms.ltb_spec, FloatAxioms.leb_spec.
  unfold SFeqb, SFltb, SFleb.
  rewrite (SFcompare_antisym (Prim2SF x) (Prim2SF y)).
  intros Hx Hy.
  destruct (SFcompare (Prim2SF x) (Prim2SF y)) as [[ | | ]|] eqn:E;
    simpl; try reflexivity.
  destruct (Prim2SF x), (Prim2SF y); simpl in *; discriminate.
Qed.

Lemma leb_not_nan (x y : float) :
  PrimFloat.leb x y = true -> PrimFloat.eqb y y = true.
Proof.
  rewrite FloatAxioms.leb_spec, FloatAxioms.eqb_spec. unfold SFleb, SFeqb.
  destruct (Prim2SF x) as [sx|sx| |sx mx ex],
           (Prim2SF y) as [sy|sy| |sy my ey]; simpl;
    try discriminate; intros _; try reflexivity;
    destruct sy; simpl;
    rewrite ?Z.compare_refl, ?Pos.compare_cont_refl; reflexivity.
Qed.

(** The three tiers, as the comparisons of the code decide them. *)
Lemma formatDistance_meters (km : number) :
  PrimFloat.ltb km 1%float = true ->
  Geo.formatDistance km =
    ToString (Math_round (PrimFloat.mul km 1000%float)) ++ "m".
Proof. unfold Geo.formatDistance. intros ->. reflexivity. Qed.

Lemma formatDistance_one_decimal (km : number) :
  PrimFloat.ltb km 1%float = false -> PrimFloat.ltb km 10%float = true ->
  Geo.formatDistance km = toFixed1 km ++ "km".
Proof. unfold Geo.formatDistance. intros -> ->. reflexivity. Qed.

Lemma formatDistance_whole_km (km : number) :
  PrimFloat.ltb km 1%float = false -> PrimFloat.ltb km 10%float = false ->
  Geo.formatDistance km = ToString (Math_round km) ++ "km".
Proof. unfold Geo.formatDistance. intros -> ->. reflexivity. Qed.

(** [round_half_up], which [Math.round] applies to a Number that has a
    fractional part, is the integer within one half of it, the upper one
    on a tie. *)
Lemma round_half_up_nearest (s : bool) (m : positive) (e : Z) :
  e < 0 ->
  let n := round_half_up s m e in
  let v := cond_neg s (Z.pos m) in
  (2 * n - 1) * 2 ^ (- e) <= 2 * v < (2 * n + 1) * 2 ^ (- e).
Proof.
  intros He n v. subst n. unfold round_half_up.
  destruct (Z.leb_spec 0 e) as [H0|_]; [lia|]. fold v.
  assert (Hp : 0 < 2 ^ (- e)) by (apply Z.pow_pos_nonneg; lia).
  set (d := 2 ^ (- e)) in *.
  pose proof (Z.div_mod (2 * v + d) (2 * d) ltac:(lia)) as Hdm.
  pose proof (Z.mod_pos_bound (2 * v + d) (2 * d) ltac:(lia)) as Hb.
  set (q := (2 * v + d) / (2 * d)) in *.
  set (r := (2 * v + d) mod (2 * d)) in *.
  nia.
Qed.

(** [tenths], the integer [toFixed(1)] prints, is within one half of ten
    times the Number, the upper one on a tie. *)
Lemma tenths_nearest (m : positive) (e : Z) :
  e < 0 ->
  let n := tenths m e in
  (2 * n - 1) * 2 ^ (- e) <= 2 * (10 * Z.pos m) < (2 * n + 1) * 2 ^ (- e).
Proof.
  intros He n. subst n. unfold tenths.
  destruct (Z.leb_spec 0 e) as [H0|_]; [lia|].
  assert (Hp : 0 < 2 ^ (- e)) by (apply Z.pow_pos_nonneg; lia).
  set (d := 2 ^ (- e)) in *. set (v := 10 * Z.pos m) in *.
  pose proof (Z.div_mod (2 * v + d) (2 * d) ltac:(lia)) as Hdm.
  pose proof (Z.mod_pos_bound (2 * v + d) (2 * d) ltac:(lia)) as Hb.
  set (q := (2 * v + d) / (2 * d)) in *.
  set (r := (2 * v + d) mod (2 * d)) in *.
  nia.
Qed.

(** ** Between 1 km and 10 km *)

Lemma digits2_pos_bounds (m : positive) :
  2 ^ (Z.pos (digits2_pos m) - 1) <= Z.pos m < 2 ^ Z.pos (digits2_pos m).
Proof.
  induction m as [p IH|p IH|]; simpl digits2_pos;
    rewrite ?Pos2Z.inj_succ.
  - replace (Z.succ (Z.pos (digits2_pos p)) - 1)
      with (Z.succ (Z.pos (digits2_pos p) - 1)) by lia.
    rewrite !Z.pow_succ_r by lia. lia.
  - replace (Z.succ (Z.pos (digits2_pos p)) - 1)
      with (Z.succ (Z.pos (digits2_pos p) - 1)) by lia.
    rewrite !Z.pow_succ_r by lia. lia.
  - simpl. lia.
Qed.

Lemma between_one_and_ten (km : number) :
  PrimFloat.leb 1%float km = true -> PrimFloat.ltb km 10%float = true ->
  exists m e, Prim2SF km = S754_finite false m e
    /\ -52 <= e <= -49 /\ 2 ^ 52 <= Z.pos m < 2 ^ 53
    /\ (e = -49 -> Z.pos m < 10 * 2 ^ 49).
Proof.
  rewrite FloatAxioms.leb_spec, FloatAxioms.ltb_spec.
  pose proof (Prim2SF_valid km) as Hv.
  replace (Prim2SF 1%float)
    with (S754_finite false 4503599627370496 (-52)) by reflexivity.
  replace (Prim2SF 10%float)
    with (S754_finite false 5629499534213120 (-49)) by reflexivity.
  unfold SFleb, SFltb. intros H1 H10.
  destruct (Prim2SF km) as [s|s| |s m e];
    cbv beta iota delta [SFcompare] in H1, H10;
    try discriminate H1;
    try (destruct s; (discriminate H1 || discriminate H10)).
  destruct s; [discriminate H1|].
  cbv beta iota delta [SpecFloat.valid_binary bounded canonical_mantissa fexp]
    in Hv.
  apply andb_true_iff in Hv. destruct Hv as [Hc _].
  apply Z.eqb_eq in Hc.
  pose proof (digits2_pos_bounds m) as Hd.
  assert (He1 : -52 <= e).
  { destruct (Z.compare_spec (-52) e); try lia; discriminate H1. }
  assert (He2 : e <= -49).
  { destruct (Z.compare_spec e (-49)); try lia; discriminate H10. }
  assert (Hdig : Z.pos (digits2_pos m) = 53).
  { unfold SpecFloat.fexp, SpecFloat.emin, emax, prec in Hc. lia. }
  rewrite Hdig in Hd. change (53 - 1) with 52 in Hd.
  exists m, e. split; [reflexivity|]. split; [lia|]. split; [exact Hd|].
  intros ->. rewrite Z.compare_refl in H10.
  rewrite Pos.compare_cont_spec in H10.
  destruct (Pos.compare_spec m 5629499534213120) as [E|L|G];
    try discriminate H10.
  replace (10 * 2 ^ 49) with 5629499534213120 by reflexivity.
  apply Pos2Z.pos_lt_pos. exact L.
Qed.

Lemma insert_point_one_decimal (t : Z) :
  10 <= t <= 100 -> insert_point t = one_decimal t.
Proof.
  intros Ht.
  assert (Hall : forallb (fun n => String.eqb (insert_point (Z.of_nat n))
                                     (one_decimal (Z.of_nat n)))
                   (seq 10 91) = true) by (vm_compute; reflexivity).
  rewrite forallb_forall in Hall.
  specialize (Hall (Z.to_nat t)).
  rewrite Z2Nat.id in Hall by lia.
  apply String.eqb_eq. apply Hall. apply in_seq. lia.
Qed.

Lemma tenths_between (m : positive) (e : Z) :
  -52 <= e <= -49 -> 2 ^ 52 <= Z.pos m < 2 ^ 53 ->
  (e = -49 -> Z.pos m < 10 * 2 ^ 49) ->
  10 <= tenths m e <= 100.
Proof.
  intros He Hm H49. unfold tenths.
  destruct (Z.leb_spec 0 e) as [H0|_]; [lia|].
  assert (Hcases : e = -52 \/ e = -51 \/ e = -50 \/ e = -49) by lia.
  assert (Hlt : forall a b, 0 < b -> a < b * 101 -> a / b <= 100).
  { intros a b Hb Hab.
    pose proof (Z.div_lt_upper_bound a b 101 Hb Hab). lia. }
  destruct Hcases as [-> | [-> | [-> | ->]]]; simpl Z.opp; split;
    try (apply Z.div_le_lower_bound; [reflexivity|]);
    try (apply Hlt; [reflexivity|]);
    try specialize (H49 eq_refl);
    change (2 ^ 52) with 4503599627370496 in *;
    change (2 ^ 53) with 9007199254740992 in *;
    change (2 ^ 51) with 2251799813685248 in *;
    change (2 ^ 50) with 1125899906842624 in *;
    change (2 ^ 49) with 562949953421312 in *; lia.
Qed.

Lemma toFixed1_between (km : number) (m : positive) (e : Z) :
  Prim2SF km = S754_finite false m e -> e <= -49 ->
  toFixed1 km = insert_point (tenths m e).
Proof.
  intros Hk He. unfold toFixed1. rewrite Hk.
  rewrite FloatAxioms.leb_spec, abs_spec, Hk. 
  set (c := Prim2SF 1e21%float). vm_compute in c. subst c.
  cbv beta iota delta [SFleb SFcompare SFabs].
  destruct (Z.compare_spec 17 e); try lia. reflexivity.
Qed.

(** C7. For every non-negative distance, [formatDistance] is in exactly
    one of three tiers: below 1 km the metres, rounded to the nearest
    integer, followed by "m"; from 1 km and below 10 km the kilometres to
    one decimal place (the nearest tenth, the upper one on a tie)
    followed by "km"; at 10 km and above the kilometres rounded to an
    integer followed by "km".  At the thresholds: 0.999 km is "999m",
    1.0 km is "1.0km", 9.999 km is "10.0km", 10.001 km is "10km". *)
Theorem formatDistance_three_tiers :
  (forall km : number,
     PrimFloat.leb 0%float km = true ->
     (PrimFloat.ltb km 1%float = true /\
      Geo.formatDistance km =
        ToString (Math_round (PrimFloat.mul km 1000%float)) ++ "m")
     \/
     (PrimFloat.leb 1%float km = true /\ PrimFloat.ltb km 10%float = true /\
      Geo.formatDistance km = toFixed1 km ++ "km" /\
      exists (m : positive) (e t : Z),
        Prim2SF km = S754_finite false m e /\ e < 0 /\
        10 <= t <= 100 /\
        (2 * t - 1) * 2 ^ (- e) <= 2 * (10 * Z.pos m)
          < (2 * t + 1) * 2 ^ (- e) /\
        toFixed1 km = one_decimal t)
     \/
     (PrimFloat.leb 10%float km = true /\
      Geo.formatDistance km = ToString (Math_round km) ++ "km"))
  /\ Geo.formatDistance 0.999%float = "999m"
  /\ Geo.formatDistance 1.0%float = "1.0km"
  /\ Geo.formatDistance 9.999%float = "10.0km"
  /\ Geo.formatDistance 10.001%float = "10km".
Proof.
  split; [| repeat split; vm_compute; reflexivity].
  intros km Hpos.
  pose proof (leb_not_nan _ _ Hpos) as Hnn.
  pose proof (ltb_negb_leb km 1%float Hnn eq_refl) as H1.
  pose proof (ltb_negb_leb km 10%float Hnn eq_refl) as H10.
  destruct (PrimFloat.ltb km 1%float) eqn:L1.
  - left. split; [reflexivity|]. now apply formatDistance_meters.
  - right. symmetry in H1. apply negb_false_iff in H1.
    destruct (PrimFloat.ltb km 10%float) eqn:L10.
    + left. split; [exact H1|]. split; [reflexivity|].
      split; [now apply formatDistance_one_decimal|].
      destruct (between_one_and_ten km H1 L10)
        as (m & e & Hk & He & Hm & H49).
      exists m, e, (tenths m e).
      pose proof (tenths_between m e He Hm H49) as Ht.
      split; [exact Hk|]. split; [lia|]. split; [exact Ht|].
      split; [apply tenths_nearest; lia|].
      rewrite (toFixed1_between km m e Hk) by lia.
      now apply insert_point_one_decimal.
    + right. symmetry in H10. apply negb_false_iff in H10.
      split; trivial. now apply formatDistance_whole_km.
Qed.

Lemma formatDistance_three_tiers_witness :
  PrimFloat.leb 0%float 0.5%float = true /\
  Geo.formatDistance 0.5%float = "500m".
Proof.
  split; [reflexivity|].
  destruct (proj1 formatDistance_three_tiers 0.5%float eq_refl)
    as [[_ E]|[[H _]|[H _]]].
  - rewrite E. vm_compute. reflexivity.
  - vm_compute in H. discriminate H.
  - vm_compute in H. discriminate H.
Defined.


(* ================================================================== *)
(** * The haversine formula on binary64 *)
(* ================================================================== *)

Section FloatSigns.










End FloatSigns.

Section FloatRange.










End FloatRange.

Section FloatHaversine.
Import FloatGeo.
Variable h : MathHost.












End FloatHaversine.




(* ================================================================== *)
(** * Properties of the places gateway *)
(* ================================================================== *)

Section GatewayFacts.
Import Places.
Variable h : FloatGeo.MathHost.

Lemma status_other_than_403 (A : Type) (z : Z) (a b : A) :
  z <> 403 -> match z with 403 => a | _ => b end = b.
Proof.
  intros Hz. destruct z as [|p|p]; try reflexivity.
  repeat (destruct p as [p|p|]; try reflexivity).
  exfalso. apply Hz. reflexivity.
Qed.

Lemma searchPlaces_rejected (client : Client) (o : Options) (error : JsError) :
  textSearch client (searchParams o) = Thrown error ->
  searchPlaces h client o =
    match err_status error with
    | Some 403 =>
        Returned {| results := []; search_center := None;
                    error := Some auth_error_text |}
    | _ => Thrown error
    end.
Proof. intros H. unfold searchPlaces. rewrite H. reflexivity. Qed.

Lemma searchPlaces_resolved (client : Client) (o : Options)
  (data_results : option (list Provider.Place)) :
  textSearch client (searchParams o) = Returned data_results ->
  searchPlaces h client o =
    Returned
      match data_results with
      | None => {| results := []; search_center := None; error := None |}
      | Some provider_results =>
          {| results :=
               map (toPlaceRecord h (userLocation o))
                   (firstn 20 provider_results);
             search_center := userLocation o;
             error := None |}
      end.
Proof.
  intros H. unfold searchPlaces. rewrite H.
  destruct data_results; reflexivity.
Qed.

(** The only error text the gateway returns is the authorization one. *)
Lemma searchPlaces_error_text (client : Client) (o : Options)
  (r : SearchResult) (text : string) :
  searchPlaces h client o = Returned r -> error r = Some text ->
  text = auth_error_text /\ results r = [] /\
  exists e, textSearch client (searchParams o) = Thrown e
            /\ err_status e = Some 403.
Proof.
  intros Hr He.
  destruct (textSearch client (searchParams o)) as [d|e] eqn:T.
  - rewrite (searchPlaces_resolved _ _ _ T) in Hr.
    injection Hr as <-. destruct d; discriminate He.
  - rewrite (searchPlaces_rejected _ _ _ T) in Hr.
    destruct (err_status e) as [z|] eqn:S; [|discriminate Hr].
    destruct (Z.eq_dec z 403) as [->|Hz].
    + injection Hr as <-. simpl in He. injection He as <-.
      repeat split. exists e. split; [reflexivity | assumption].
    + rewrite (status_other_than_403 _ z _ _ Hz) in Hr. discriminate Hr.
Qed.

(** C6. When the provider call fails with HTTP status 403, [searchPlaces]
    returns an empty result list with an explanatory (non-empty) error
    text and does not throw; when it fails in any other way, the same
    error is thrown to the caller. *)
Theorem searchPlaces_failure_policy (client : Client) (o : Options)
  (failure : JsError) :
  textSearch client (searchParams o) = Thrown failure ->
  (err_status failure = Some 403 ->
     searchPlaces h client o =
       Returned {| results := []; search_center := None;
                   error := Some auth_error_text |}
     /\ truthy_string (Some auth_error_text) = true)
  /\ (err_status failure <> Some 403 ->
        searchPlaces h client o = Thrown failure).
Proof.
  intros H. rewrite (searchPlaces_rejected _ _ _ H). split.
  - intros ->. split; reflexivity.
  - intros Hs. destruct (err_status failure) as [z|]; [|reflexivity].
    apply status_other_than_403. intros ->. apply Hs. reflexivity.
Qed.

(** ** Distance fields *)

Lemma distance_fields_together (u : option LatLng.t) (p : Provider.Place) :
  distance_km (toPlaceRecord h u p) = None <->
  distance_text (toPlaceRecord h u p) = None.
Proof.
  simpl. destruct (place_distance h u (place_lat p) (place_lng p));
    split; intros H; try discriminate H; reflexivity.
Qed.

(** The rule of the code: a distance is computed exactly when the two
    coordinates of the origin and of the record are truthy Numbers. *)
Lemma distance_present_iff_truthy (u : option LatLng.t) (p : Provider.Place) :
  distance_km (toPlaceRecord h u p) <> None <->
  exists o, u = Some o
    /\ truthy_number (LatLng.lat o) = true
    /\ truthy_number (LatLng.lng o) = true
    /\ truthy_number (lat (toPlaceRecord h u p)) = true
    /\ truthy_number (lng (toPlaceRecord h u p)) = true.
Proof.
  simpl. unfold place_distance. split.
  - intros H. destruct u as [o|]; [|congruence]. exists o.
    destruct (LatLng.lat o) as [a|], (LatLng.lng o) as [b|],
             (place_lat p) as [c|], (place_lng p) as [d|];
      try congruence; simpl.
    destruct (truthy a), (truthy b), (truthy c), (truthy d);
      simpl in H; try congruence; repeat split; reflexivity.
  - intros (o & -> & Ha & Hb & Hc & Hd).
    destruct (LatLng.lat o) as [a|], (LatLng.lng o) as [b|],
             (place_lat p) as [c|], (place_lng p) as [d|];
      simpl in *; try discriminate.
    rewrite Ha, Hb, Hc, Hd. simpl. discriminate.
Qed.

(** One direction of the invariant holds: a record with a distance has
    both coordinates and an origin was supplied. *)
Lemma distance_needs_coordinates_and_origin
  (u : option LatLng.t) (p : Provider.Place) :
  distance_km (toPlaceRecord h u p) <> None ->
  lat (toPlaceRecord h u p) <> None /\ lng (toPlaceRecord h u p) <> None
  /\ u <> None.
Proof.
  intros H. apply distance_present_iff_truthy in H.
  destruct H as (o & -> & _ & _ & Hc & Hd).
  repeat split; try discriminate;
    intros E; [rewrite E in Hc | rewrite E in Hd]; discriminate.
Qed.

(** A record without geometry has no distance fields, whatever the
    origin. *)
Lemma no_geometry_no_distance (u : option LatLng.t) (p : Provider.Place) :
  Provider.geometry p = None ->
  distance_km (toPlaceRecord h u p) = None /\
  distance_text (toPlaceRecord h u p) = None.
Proof.
  intros G. simpl. unfold place_lat, place_lng. rewrite G.
  unfold place_distance.
  destruct u as [o|]; [|split; reflexivity].
  destruct (LatLng.lat o), (LatLng.lng o); split; reflexivity.
Qed.

End GatewayFacts.

Lemma searchPlaces_failure_policy_witness :
  Places.searchPlaces Examples.series_math (Examples.client_failing 403)
    (Agent.search_options (Agent.fallback_intent "pizza") None)
  = Returned {| Places.results := []; Places.search_center := None;
                Places.error := Some Places.auth_error_text |}
  /\ Places.searchPlaces Examples.series_math (Examples.client_failing 500)
       (Agent.search_options (Agent.fallback_intent "pizza") None)
     = Thrown (Examples.http_error 500).
Proof.
  split.
  - apply (searchPlaces_failure_policy Examples.series_math
             (Examples.client_failing 403) _ (Examples.http_error 403));
      reflexivity.
  - apply (searchPlaces_failure_policy Examples.series_math
             (Examples.client_failing 500) _ (Examples.http_error 500));
      [reflexivity | discriminate].
Defined.

(** C3 (evaluation at a failing input). A place on the equator, at
    latitude 0 and longitude 10, searched with the origin (1, 1): the
    record has both coordinates and an origin was supplied, and both
    distance fields are [null]. *)
Theorem equator_place_has_no_distance :
  let r := Places.toPlaceRecord Examples.series_math Examples.origin
             Examples.equator_place in
  Places.lat r = Some 0%float /\ Places.lng r = Some 10%float
  /\ Examples.origin <> None
  /\ Places.distance_km r = None /\ Places.distance_text r = None.
Proof.
  cbv zeta. repeat split; try reflexivity. discriminate.
Qed.

(* ================================================================== *)
(** * Properties of the intent extractor and of the orchestrator *)
(* ================================================================== *)

Section AgentFacts.
Import Agent Trace.
Variable h : Host.
Variable w : World.

Local Open Scope list_scope.

(** ** Running [Run] computations *)

Lemma andThen_returned (A B : Type) (calls : list Call) (a : A)
  (k : A -> Run B) :
  andThen (calls, Returned a) k = (calls ++ fst (k a), snd (k a)).
Proof. simpl. destruct (k a). reflexivity. Qed.

Lemma andThen_thrown (A B : Type) (calls : list Call) (e : JsError)
  (k : A -> Run B) :
  andThen (calls, Thrown e) k = (calls, Thrown e).
Proof. reflexivity. Qed.

(** ** Narration forwards content deltas only *)

Lemma forward_line_returns (line : string) :
  snd (forward_line h onChunk line) = Returned tt
  /\ deltas_only (forward_line h onChunk line).
Proof.
  unfold forward_line, deltas_only.
  destruct (JSON_parse_frame h line) as [parsed|]; [|split; constructor].
  destruct (Ollama.message parsed) as [message|]; [|split; constructor].
  destruct (Ollama.content message) as [text|]; [|split; constructor].
  simpl. destruct text as [|c rest]; simpl; split;
    repeat constructor.
Qed.

Lemma for_each_returns (lines : list string) :
  snd (for_each (forward_line h onChunk) lines) = Returned tt
  /\ deltas_only (for_each (forward_line h onChunk) lines).
Proof.
  unfold deltas_only.
  induction lines as [|line lines [IHs IHd]]; [split; constructor|].
  simpl. destruct (forward_line_returns line) as [Hs Hd].
  destruct (forward_line h onChunk line) as [calls c]. simpl in Hs, Hd.
  subst c. rewrite andThen_returned. simpl. split; [assumption|].
  apply Forall_app. split; assumption.
Qed.

Lemma read_loop_deltas (reads : list Ollama.Read) :
  deltas_only (read_loop h onChunk reads).
Proof.
  unfold deltas_only.
  induction reads as [|[text|e] reads IH]; simpl; try constructor.
  destruct (for_each_returns (lines_of text)) as [Hs Hd].
  destruct (for_each (forward_line h onChunk) (lines_of text)) as [calls c].
  simpl in Hs, Hd. subst c. rewrite andThen_returned. simpl.
  apply Forall_app. split; assumption.
Qed.

Lemma tryCatch_rethrow (A : Type) (m : Run A) :
  tryCatch m (fun error => throw error) = m.
Proof.
  destruct m as [calls [a|e]]; simpl; [reflexivity|].
  rewrite app_nil_r. reflexivity.
Qed.

Lemma streamLLMResponse_deltas (userQuery : string)
  (places : list Places.PlaceRecord) :
  deltas_only (streamLLMResponse h w userQuery places onChunk).
Proof.
  unfold streamLLMResponse. rewrite tryCatch_rethrow.
  destruct (narrate_reply w _) as [e|reads].
  - constructor.
  - apply read_loop_deltas.
Qed.

Lemma deltas_are_chunks (calls : list Call) :
  Forall (fun c => is_delta c = true) calls ->
  calls = map OnChunk (chunks calls)
  /\ Forall (fun d => d <> EmptyString) (chunks calls).
Proof.
  induction 1 as [|c calls Hc _ [IH1 IH2]]; [split; constructor|].
  destruct c as [chunk|error]; simpl in *; [|discriminate Hc].
  split; [f_equal; assumption|].
  constructor; [|assumption]. intros ->. discriminate Hc.
Qed.

Lemma narration_calls (userQuery : string) (places : list Places.PlaceRecord) :
  fst (streamLLMResponse h w userQuery places onChunk) =
    map OnChunk (narration_deltas h w userQuery places)
  /\ Forall (fun d => d <> EmptyString)
            (narration_deltas h w userQuery places).
Proof.
  apply deltas_are_chunks. apply streamLLMResponse_deltas.
Qed.

(** ** The turn, once the search has returned *)

Lemma turn_when_search_returns (messages : list ChatMessage)
  (userLocation : option LatLng.t) (lastUser : ChatMessage)
  (placesResult : Places.SearchResult) :
  lastUserMessage messages = Some lastUser ->
  search_of_turn h w (content lastUser) userLocation = Returned placesResult ->
  streamChatWithTools h w messages userLocation =
    if truthy_string (Places.error placesResult) then
      ([OnError (Places.default EmptyString (Places.error placesResult))],
       Returned tt)
    else
      (places_events (Places.results placesResult)
       ++ map OnChunk (narration_deltas h w (content lastUser)
                         (Places.results placesResult))
       ++ [terminal],
       Returned tt).
Proof.
  intros Hlast Hsearch. unfold streamChatWithTools. rewrite Hlast.
  unfold search_of_turn in Hsearch. rewrite Hsearch.
  unfold lift. rewrite andThen_returned. simpl app.
  destruct (truthy_string (Places.error placesResult)); [reflexivity|].
  destruct (narration_calls (content lastUser) (Places.results placesResult))
    as [Hcalls _].
  fold onChunk. 
  destruct (streamLLMResponse h w (content lastUser)
              (Places.results placesResult) onChunk) as [calls c].
  simpl in Hcalls. rewrite <- Hcalls.
  destruct (Places.results placesResult) as [|p ps], c as [[]|e];
    simpl; rewrite ?app_nil_r; reflexivity.
Qed.

Lemma turn_when_search_throws (messages : list ChatMessage)
  (userLocation : option LatLng.t) (lastUser : ChatMessage) (e : JsError) :
  lastUserMessage messages = Some lastUser ->
  search_of_turn h w (content lastUser) userLocation = Thrown e ->
  streamChatWithTools h w messages userLocation =
    ([OnError (err_message e)], Thrown e).
Proof.
  intros Hlast Hsearch. unfold streamChatWithTools. rewrite Hlast.
  unfold search_of_turn in Hsearch. rewrite Hsearch. reflexivity.
Qed.

Lemma string_app_assoc (a b c : string) :
  ((a ++ b) ++ c = a ++ b ++ c)%string.
Proof. induction a as [|x a IH]; simpl; [reflexivity|]. f_equal. exact IH. Qed.




(** C4. In a turn whose places search returns an error, the only call is
    one [onError] with that error, and the turn ends there: no places
    event, no content delta and no terminal delta.  The error the gateway
    returns is the one of a provider authorization failure. *)
Theorem gateway_error_ends_turn (messages : list ChatMessage)
  (userLocation : option LatLng.t) (lastUser : ChatMessage)
  (placesResult : Places.SearchResult) :
  lastUserMessage messages = Some lastUser ->
  search_of_turn h w (content lastUser) userLocation = Returned placesResult ->
  truthy_string (Places.error placesResult) = true ->
  Places.error placesResult = Some Places.auth_error_text
  /\ streamChatWithTools h w messages userLocation =
       ([OnError Places.auth_error_text], Returned tt).
Proof.
  intros Hlast Hsearch Herr.
  pose proof (turn_when_search_returns _ _ _ _ Hlast Hsearch) as Hturn.
  rewrite Herr in Hturn.
  destruct (Places.error placesResult) as [text|] eqn:E; [|discriminate Herr].
  destruct (searchPlaces_error_text _ _ _ _ _ Hsearch E) as [-> _].
  split; [reflexivity | exact Hturn].
Qed.

Lemma errors_app (a b : list Call) : errors (a ++ b) = errors a ++ errors b.
Proof.
  induction a as [|[c|e] a IH]; simpl; [reflexivity|assumption|].
  f_equal. assumption.
Qed.

Lemma errors_chunks (l : list string) : errors (map OnChunk l) = [].
Proof. induction l; simpl; [reflexivity | assumption]. Qed.

(** C5. In a turn whose places search returned without an error and whose
    narration throws, the turn still returns normally: no [onError] call
    is made, and the calls are the places event (when places were found),
    the deltas forwarded before the failure, and the terminal empty delta.
    When the narration request itself is rejected (a timeout aborts it),
    the calls are the places event and the terminal delta only. *)
Theorem narration_failure_is_swallowed (messages : list ChatMessage)
  (userLocation : option LatLng.t) (lastUser : ChatMessage)
  (placesResult : Places.SearchResult) (failure : JsError) :
  lastUserMessage messages = Some lastUser ->
  search_of_turn h w (content lastUser) userLocation = Returned placesResult ->
  truthy_string (Places.error placesResult) = false ->
  let places := Places.results placesResult in
  snd (streamLLMResponse h w (content lastUser) places onChunk)
    = Thrown failure ->
  let calls := fst (streamChatWithTools h w messages userLocation) in
  snd (streamChatWithTools h w messages userLocation) = Returned tt
  /\ errors calls = []
  /\ calls = places_events places
             ++ map OnChunk (narration_deltas h w (content lastUser) places)
             ++ [terminal]
  /\ (forall rejection,
        narrate_reply w
          [system CHAT_PROMPT;
           user (content lastUser ++ narration_context places)%string]
          = Ollama.StreamFails rejection ->
        calls = places_events places ++ [terminal]).
Proof.
  intros Hlast Hsearch Herr places Hfail calls.
  pose proof (turn_when_search_returns _ _ _ _ Hlast Hsearch) as Hturn.
  rewrite Herr in Hturn. fold places in Hturn.
  subst calls. rewrite Hturn. simpl fst. simpl snd.
  split; [reflexivity|]. split; [|split; [reflexivity|]].
  - rewrite !errors_app, errors_chunks.
    unfold places_events. destruct places; reflexivity.
  - intros rejection Hrej. unfold narration_deltas, streamLLMResponse.
    rewrite Hrej. reflexivity.
Qed.

(** ** Intent extraction *)

(** Whatever makes the [try] block of the extractor throw, the extractor
    returns its fallback. *)
Lemma extractor_falls_back (userQuery : string) (e : JsError) :
  extract_body h w userQuery = Thrown e ->
  extractLocationIntent h w userQuery = fallback_intent userQuery.
Proof. intros H. unfold extractLocationIntent. rewrite H. reflexivity. Qed.

(** The ways the [try] block throws: the request fails, the status is not
    ok, the body is not JSON, the content is empty, the content does not
    parse. *)
Lemma extract_body_throws (userQuery : string) :
  match extract_reply w [system EXTRACTION_PROMPT; user userQuery] with
  | Ollama.Fails _ => True
  | Ollama.Response ok _ body =>
      ok = false \/
      match body with
      | Ollama.BodyInvalid _ => True
      | Ollama.BodyJson content =>
          truthy_string content = false \/
          JSON_parse_intent h (Places.default EmptyString content) = None
      end
  end ->
  exists e, extract_body h w userQuery = Thrown e.
Proof.
  unfold extract_body.
  destruct (extract_reply w _) as [e|ok status body]; [eauto|].
  destruct ok; simpl; [|eauto].
  intros [H|H]; [discriminate H|].
  destruct body as [e|content]; [eauto|].
  destruct (truthy_string content); simpl; [|eauto].
  destruct H as [H|H]; [discriminate H|]. rewrite H. eauto.
Qed.

(** Within the deadline, a failed extraction gives the fallback intent
    with the location "near me". *)
Lemma failed_extraction_within_deadline (userQuery : string) (e : JsError) :
  extract_deadline_first w = false ->
  extract_body h w userQuery = Thrown e ->
  extract_with_timeout h w userQuery = fallback_intent userQuery.
Proof.
  intros Hd He. unfold extract_with_timeout. rewrite Hd.
  apply (extractor_falls_back _ _ He).
Qed.

(** After the deadline, the intent has no location. *)
Lemma extraction_after_deadline (userQuery : string) :
  extract_deadline_first w = true ->
  extract_with_timeout h w userQuery =
    {| query := userQuery; location := None; formatted_query := userQuery |}.
Proof. intros Hd. unfold extract_with_timeout. rewrite Hd. reflexivity. Qed.

(** In both cases the search is made with the utterance. *)
Lemma failed_extraction_searches_utterance (userQuery : string) :
  extract_deadline_first w = true
  \/ (exists e, extract_body h w userQuery = Thrown e) ->
  formatted_query (extract_with_timeout h w userQuery) = userQuery.
Proof.
  intros [Hd|[e He]].
  - rewrite (extraction_after_deadline _ Hd). reflexivity.
  - unfold extract_with_timeout.
    destruct (extract_deadline_first w); [reflexivity|].
    simpl. rewrite (extractor_falls_back _ _ He). reflexivity.
Qed.

End AgentFacts.

(** ** The theorems on concrete turns *)

Section Turns.
Import Agent Trace Examples.



Lemma gateway_error_ends_turn_witness :
  streamChatWithTools host unauthorized coffee origin =
    ([OnError Places.auth_error_text], Returned tt).
Proof.
  apply (gateway_error_ends_turn host unauthorized coffee origin
           coffee_question refused);
    vm_compute; reflexivity.
Defined.

Lemma narration_failure_is_swallowed_witness :
  fst (streamChatWithTools host narration_timeout coffee origin) =
    [OnChunk (places_payload (Places.results found)); OnChunk EmptyString]
  /\ snd (streamChatWithTools host narration_timeout coffee origin)
     = Returned tt.
Proof.
  assert (H1 : lastUserMessage coffee = Some coffee_question)
    by reflexivity.
  assert (H2 : search_of_turn host narration_timeout
                 (content coffee_question) origin = Returned found)
    by (vm_compute; reflexivity).
  destruct (narration_failure_is_swallowed host narration_timeout coffee
              origin coffee_question found AbortError H1 H2 eq_refl eq_refl)
    as (Hs & _ & _ & Hc).
  split; [|exact Hs].
  apply (Hc AbortError). reflexivity.
Defined.

(** The same with a stream that breaks after one delta: the delta is
    delivered, then the terminal delta. *)
Example narration_cut_turn :
  streamChatWithTools host narration_cut coffee origin =
    ([OnChunk (places_payload (Places.results found));
      OnChunk "Here are "; OnChunk EmptyString],
     Returned tt).
Proof. vm_compute. reflexivity. Qed.

Example fine_turn_deltas :
  narration_deltas host fine (content coffee_question) (Places.results found)
  = ["Here are "; "two cafes."].
Proof. vm_compute. reflexivity. Qed.

(** A failure of the provider that is not an authorization failure: one
    [onError], and the error is thrown to the caller. *)
Example provider_down_turn :
  streamChatWithTools host provider_down coffee origin =
    ([OnError "Request failed with status code 500"],
     Thrown (http_error 500)).
Proof. vm_compute. reflexivity. Qed.

(** C2 (evaluation at a failing input). An extractor that does not answer
    within the deadline: the orchestrator goes on with an intent that has
    the utterance as [query] and [formatted_query] and no [location],
    where the fallback of the extractor has the location "near me". *)
Theorem timed_out_extraction_has_no_location :
  extract_with_timeout host slow_extractor "pizza near me" =
    {| query := "pizza near me"; location := None;
       formatted_query := "pizza near me" |}
  /\ location (extract_with_timeout host slow_extractor "pizza near me")
     <> location (fallback_intent "pizza near me")
  /\ extract_with_timeout host confused_extractor "pizza near me" =
       fallback_intent "pizza near me".
Proof.
  split; [reflexivity|]. split; [discriminate | reflexivity].
Qed.

End Turns.

(* ================================================================== *)
(** * Properties of the chat endpoint *)
(* ================================================================== *)

Section ServerFacts.
Import Agent Trace Server.

Local Open Scope nat_scope.

Lemma length_append (a b : string) :
  String.length (a ++ b) = String.length a + String.length b.
Proof. induction a as [|c a IH]; simpl; [reflexivity|]. now rewrite IH. Qed.

Lemma escape_char_length (c : ascii) : 1 <= String.length (Json.escape_char c).
Proof.
  unfold Json.escape_char.
  repeat match goal with
         | |- context [if ?b then _ else _] => destruct b
         end;
    rewrite ?length_append; simpl; lia.
Qed.

Lemma escape_length (s : string) :
  String.length s <= String.length (Json.escape s).
Proof.
  induction s as [|c s IH]; simpl; [lia|].
  rewrite length_append. pose proof (escape_char_length c). lia.
Qed.

Lemma content_object_length (chunk : string) :
  String.length chunk + 14 <= String.length (content_object chunk).
Proof.
  unfold content_object, Json.object, Json.member, Json.quote. simpl.
  rewrite !length_append. simpl.
  pose proof (escape_length chunk). lia.
Qed.

Lemma data_frame_length (payload : string) :
  String.length (data_frame payload) = String.length payload + 8.
Proof.
  unfold data_frame. simpl. rewrite !length_append. simpl. lia.
Qed.

Lemma data_frame_inj (a b : string) : data_frame a = data_frame b -> a = b.
Proof.
  unfold data_frame. simpl. intros H. injection H as H.
  revert b H. induction a as [|c a IH]; intros [|d b] H; simpl in H.
  - reflexivity.
  - apply (f_equal String.length) in H. simpl in H.
    rewrite length_append in H. simpl in H. lia.
  - apply (f_equal String.length) in H. simpl in H.
    rewrite length_append in H. simpl in H. lia.
  - injection H as -> H. f_equal. apply IH. exact H.
Qed.

Lemma content_object_differs (chunk : string) : content_object chunk <> chunk.
Proof.
  intros H. apply (f_equal String.length) in H.
  pose proof (content_object_length chunk). lia.
Qed.

(** C10. The [onChunk] callback of the endpoint frames a chunk by a test
    on its first characters: the chunk is written as it is, as a data
    frame, exactly when it starts with the structured prefix (an opening
    brace, the quoted key [type] and a colon); every other chunk, the
    empty terminal chunk among them, is wrapped into an object with the
    key [content].  Every call of the orchestrator is written this way, in
    order.  So a narration delta that starts with the structured prefix is
    written as a structured payload and not wrapped as content; the
    endpoint does so for the delta of the turn [joker]. *)
Theorem chunk_framing_by_prefix :
  (forall chunk : string,
     chunk_frame chunk = data_frame chunk
     <-> prefix structured_prefix chunk = true)
  /\ (forall chunk : string,
        prefix structured_prefix chunk = false ->
        chunk_frame chunk = data_frame (content_object chunk))
  /\ chunk_frame EmptyString = data_frame (content_object EmptyString)
  /\ (forall (h : Host) (w : World) (req : ChatRequest)
             (msgs : list ChatMessage),
        messages req = Some msgs ->
        exists rest,
          written (chat h w req) =
            (map frame_of_call
               (fst (streamChatWithTools h w msgs (userLocation req)))
             ++ rest)%list)
  /\ (forall delta : string,
        prefix structured_prefix delta = true ->
        is_delta (OnChunk delta) = true
        /\ frame_of_call (OnChunk delta) = data_frame delta
        /\ frame_of_call (OnChunk delta) <> data_frame (content_object delta))
  /\ (narration_deltas Examples.host Examples.joker "find a coffee shop near Taipei 101"
        (Places.results Examples.found) = [Examples.joke]
      /\ In (data_frame Examples.joke)
            (written (chat Examples.host Examples.joker Examples.chat_request))
      /\ ~ In (data_frame (content_object Examples.joke))
            (written (chat Examples.host Examples.joker Examples.chat_request))).
Proof.
  assert (Hwrap : forall chunk, prefix structured_prefix chunk = false ->
                    chunk_frame chunk = data_frame (content_object chunk)).
  { intros chunk Hp. unfold chunk_frame. rewrite Hp. reflexivity. }
  split; [|split; [exact Hwrap|split; [reflexivity|split; [|split]]]].
  - intros chunk. split.
    + intros H. destruct (prefix structured_prefix chunk) eqn:Hp;
        [reflexivity|].
      rewrite (Hwrap chunk Hp) in H. apply data_frame_inj in H.
      exfalso. exact (content_object_differs chunk H).
    + intros Hp. unfold chunk_frame. rewrite Hp. reflexivity.
  - intros h w req msgs Hm. unfold chat. rewrite Hm.
    destruct (streamChatWithTools h w msgs (userLocation req))
      as [calls outcome]. simpl fst.
    set (res0 := setHeader _ _ _).
    assert (Hw : forall calls res,
               written (fold_left deliver calls res) =
               (written res ++ map frame_of_call calls)%list).
    { clear. induction calls as [|c calls IH]; intros res; simpl.
      - now rewrite app_nil_r.
      - rewrite IH. destruct c; simpl; rewrite <- app_assoc; reflexivity. }
    destruct outcome as [[]|e].
    + exists [done_frame]. simpl. rewrite Hw. reflexivity.
    + destruct (headersSent (fold_left deliver calls res0)).
      * exists []. rewrite Hw, app_nil_r. reflexivity.
      * eexists. simpl. rewrite Hw. reflexivity.
  - intros delta Hp. split; [|split].
    + destruct delta; [discriminate Hp | reflexivity].
    + simpl. unfold chunk_frame. rewrite Hp. reflexivity.
    + simpl. unfold chunk_frame. rewrite Hp. intros H.
      apply data_frame_inj in H. symmetry in H.
      exact (content_object_differs delta H).
  - split; [vm_compute; reflexivity|]. split.
    + vm_compute. right. left. reflexivity.
    + vm_compute. intros [H|[H|[H|[H|[]]]]]; discriminate H.
Qed.

Lemma chunk_framing_by_prefix_witness :
  chunk_frame Examples.joke = data_frame Examples.joke
  /\ chunk_frame "Here are " = data_frame (content_object "Here are ").
Proof.
  destruct chunk_framing_by_prefix as (Hiff & Hwrap & _).
  split.
  - apply (proj2 (Hiff Examples.joke)). reflexivity.
  - apply (Hwrap "Here are "%string). reflexivity.
Defined.

(** ** A turn that throws *)

(** The orchestrator throws only when the search throws, and then its
    only call is one [onError] with the message of the error. *)
Lemma turn_throws_only_from_search (h : Host) (w : World)
  (msgs : list ChatMessage) (userLocation : option LatLng.t) (e : JsError) :
  snd (streamChatWithTools h w msgs userLocation) = Thrown e ->
  streamChatWithTools h w msgs userLocation =
    ([OnError (err_message e)], Thrown e).
Proof.
  intros H.
  destruct (lastUserMessage msgs) as [lastUser|] eqn:Hlast.
  - destruct (search_of_turn h w (content lastUser) userLocation)
      as [r|e'] eqn:Hsearch.
    + rewrite (turn_when_search_returns h w _ _ _ _ Hlast Hsearch) in H.
      destruct (truthy_string (Places.error r)); discriminate H.
    + rewrite (turn_when_search_throws h w _ _ _ _ Hlast Hsearch) in H |- *.
      simpl in H. injection H as ->. reflexivity.
  - unfold streamChatWithTools in H. rewrite Hlast in H. discriminate H.
Qed.

(** The endpoint then writes the error frame and nothing else: it does
    not write the done frame and it does not end the response. *)
Lemma chat_when_turn_throws (h : Host) (w : World) (req : ChatRequest)
  (msgs : list ChatMessage) (e : JsError) :
  messages req = Some msgs ->
  snd (streamChatWithTools h w msgs (userLocation req)) = Thrown e ->
  written (chat h w req) = [error_frame (err_message e)]
  /\ ended (chat h w req) = false.
Proof.
  intros Hm Ht. unfold chat. rewrite Hm.
  rewrite (turn_throws_only_from_search _ _ _ _ _ Ht).
  split; reflexivity.
Qed.

(** A turn that returns is closed by the done frame and the end of the
    response. *)
Lemma chat_when_turn_returns (h : Host) (w : World) (req : ChatRequest)
  (msgs : list ChatMessage) :
  messages req = Some msgs ->
  snd (streamChatWithTools h w msgs (userLocation req)) = Returned tt ->
  last (written (chat h w req)) EmptyString = done_frame
  /\ ended (chat h w req) = true.
Proof.
  intros Hm Ht. unfold chat. rewrite Hm.
  destruct (streamChatWithTools h w msgs (userLocation req)) as [calls o].
  simpl in Ht. subst o. simpl. split; [|reflexivity].
  apply last_last.
Qed.

(** C9 (evaluation at a failing input). The provider answers with status
    500 once the event stream has been set up: the orchestrator reports
    the error and throws; the endpoint has written one frame, the empty
    object (the message is lost), and then neither writes the done frame
    or the terminal content frame nor ends the response. *)
Theorem provider_down_leaves_stream_open :
  let res := chat Examples.host Examples.provider_down Examples.chat_request in
  streamChatWithTools Examples.host Examples.provider_down Examples.coffee
    Examples.origin
  = ([OnError "Request failed with status code 500"],
     Thrown (Examples.http_error 500))
  /\ headers res = [("Content-Type", "text/event-stream");
                    ("Cache-Control", "no-cache");
                    ("Connection", "keep-alive")]%string
  /\ written res = [data_frame "{}"]
  /\ ~ In done_frame (written res)
  /\ ~ In (chunk_frame EmptyString) (written res)
  /\ ended res = false.
Proof.
  cbv zeta. split; [vm_compute; reflexivity|].
  split; [vm_compute; reflexivity|].
  split; [vm_compute; reflexivity|].
  split; [|split; [|vm_compute; reflexivity]];
    vm_compute; intros [H|[]]; discriminate H.
Qed.

(** The same request when the provider answers: the stream is closed. *)
Example fine_chat_is_closed :
  let res := chat Examples.host Examples.fine Examples.chat_request in
  last (written res) EmptyString = done_frame
  /\ In (chunk_frame EmptyString) (written res)
  /\ ended res = true.
Proof.
  cbv zeta. split; [vm_compute; reflexivity|].
  split; [|vm_compute; reflexivity].
  vm_compute. do 3 right. left. reflexivity.
Qed.

End ServerFacts.

(* ================================================================== *)
(** * Further properties of the gateways *)
(* ================================================================== *)

Lemma Returned_inj (A : Type) (a b : A) : Returned a = Returned b -> a = b.
Proof. intros H. injection H as H. exact H. Qed.

Section MoreGatewayFacts.
Variable h : FloatGeo.MathHost.

(** X1. The result list of a search is capped at 20 records, in the order of
    the provider, and every record keeps at most 3 photos. *)
Theorem searchPlaces_caps (client : Places.Client) (o : Places.Options)
  (r : Places.SearchResult) :
  Places.searchPlaces h client o = Returned r ->
  (List.length (Places.results r) <= 20)%nat
  /\ Forall (fun p => (List.length (Places.photos p) <= 3)%nat)
            (Places.results r)
  /\ (forall provider_results,
        Places.textSearch client (Places.searchParams o)
          = Returned (Some provider_results) ->
        List.length (Places.results r)
          = Nat.min 20 (List.length provider_results)
        /\ map Places.name (Places.results r)
           = map Provider.name (firstn 20 provider_results)).
Proof.
  intros Hr.
  destruct (Places.textSearch client (Places.searchParams o)) as [d|e] eqn:T.
  - rewrite (searchPlaces_resolved h _ _ _ T) in Hr.
    apply Returned_inj in Hr. subst r.
    destruct d as [raw|]; cbn [Places.results].
    + split; [|split].
      * rewrite length_map. apply firstn_le_length.
      * apply Forall_map. apply Forall_forall. intros p _.
        cbn [Places.photos Places.toPlaceRecord].
        destruct (Provider.photos p) as [ps|]; [|simpl; lia].
        rewrite length_map. apply firstn_le_length.
      * intros raw' E. injection E as <-.
        rewrite length_map, length_firstn. split; [reflexivity|].
        rewrite map_map. reflexivity.
    + split; [simpl; lia|]. split; [constructor|].
      intros raw E. discriminate E.
  - rewrite (searchPlaces_rejected h _ _ _ T) in Hr.
    destruct (err_status e) as [z|]; [|discriminate Hr].
    destruct (Z.eq_dec z 403) as [->|Hz].
    + injection Hr as <-. simpl. split; [lia|]. split; [constructor|].
      intros raw E. discriminate E.
    + rewrite (status_other_than_403 _ z _ _ Hz) in Hr. discriminate Hr.
Qed.

Lemma status_other_than_404_403 (A : Type) (z : Z) (a b c : A) :
  z <> 404 -> z <> 403 ->
  match z with 404 => a | 403 => b | _ => c end = c.
Proof.
  intros H4 H3. destruct z as [|p|p]; try reflexivity.
  repeat (destruct p as [p|p|]; try reflexivity);
    exfalso; (apply H4; reflexivity) || (apply H3; reflexivity).
Qed.

(** X2. [getPlaceDetails] on a failing provider: status 404 becomes a new
    error "Place not found"; status 403 is returned as a null result with
    an error text; any other failure is thrown unchanged.  A provider
    answer without a result is thrown as a TypeError, not reported as a
    place that was not found. *)
Theorem getPlaceDetails_failure_policy (client : PlaceDetails.Client)
  (placeId : string) (userLocation : option LatLng.t) :
  let params := {| PlaceDetails.params_place_id := placeId;
                   PlaceDetails.params_fields := PlaceDetails.fields |} in
  (forall failure,
     PlaceDetails.placeDetails client params = Thrown failure ->
     (err_status failure = Some 404 ->
        PlaceDetails.getPlaceDetails h client placeId userLocation
          = Thrown (Error "Place not found"))
     /\ (err_status failure = Some 403 ->
           PlaceDetails.getPlaceDetails h client placeId userLocation
             = Returned {| PlaceDetails.result := None;
                           PlaceDetails.error := Some "API key issue" |})
     /\ (err_status failure <> Some 404 ->
         err_status failure <> Some 403 ->
           PlaceDetails.getPlaceDetails h client placeId userLocation
             = Thrown failure))
  /\ (PlaceDetails.placeDetails client params = Returned None ->
        PlaceDetails.getPlaceDetails h client placeId userLocation
          = Thrown (TypeError "geometry")).
Proof.
  intros params. split.
  - intros failure H. unfold PlaceDetails.getPlaceDetails. fold params.
    rewrite H. simpl. split; [|split].
    + intros ->. reflexivity.
    + intros ->. reflexivity.
    + intros H4 H3. destruct (err_status failure) as [z|]; [|reflexivity].
      apply status_other_than_404_403; intros ->; [apply H4 | apply H3];
        reflexivity.
  - intros H. unfold PlaceDetails.getPlaceDetails. fold params.
    rewrite H. reflexivity.
Qed.

(** X3. What [getPlaceDetails] returns with a result: its [place_id] is the
    provider's when that is a non-empty string and the requested one
    otherwise, so it is non-empty for a non-empty request; at most 10
    photos are kept; the distance follows the rule of the search (both
    gateways give the same distance fields to a place with the same
    geometry). *)
Theorem getPlaceDetails_result (client : PlaceDetails.Client)
  (placeId : string) (userLocation : option LatLng.t)
  (r : PlaceDetails.Result) (d : PlaceDetails.Details) :
  PlaceDetails.getPlaceDetails h client placeId userLocation = Returned r ->
  PlaceDetails.result r = Some d ->
  PlaceDetails.error r = None
  /\ (nonempty placeId = true -> nonempty (PlaceDetails.place_id d) = true)
  /\ (List.length (PlaceDetails.photos d) <= 10)%nat
  /\ (forall place : Provider.Place,
        Places.place_lat place = LatLng.lat (PlaceDetails.location d) ->
        Places.place_lng place = LatLng.lng (PlaceDetails.location d) ->
        Places.distance_km (Places.toPlaceRecord h userLocation place)
          = PlaceDetails.distance_km d
        /\ Places.distance_text (Places.toPlaceRecord h userLocation place)
           = PlaceDetails.distance_text d).
Proof.
  intros Hr Hd. unfold PlaceDetails.getPlaceDetails in Hr.
  destruct (PlaceDetails.placeDetails client _) as [[place|]|e];
    cbn [bind try_catch] in Hr.
  - apply Returned_inj in Hr. subst r. cbn [PlaceDetails.result] in Hd.
    injection Hd as Hd. subst d.
    split; [reflexivity|]. split; [|split].
    + intros Hp. simpl.
      destruct (PlaceDetails.raw_place_id place) as [[|c s]|]; simpl;
        try exact Hp. reflexivity.
    + cbn [PlaceDetails.photos PlaceDetails.details_of].
      destruct (PlaceDetails.raw_photos place) as [ps|]; [|simpl; lia].
      rewrite length_map. apply firstn_le_length.
    + intros p Hlat Hlng. simpl in Hlat, Hlng. simpl.
      rewrite Hlat, Hlng. split; reflexivity.
  - discriminate Hr.
  - destruct (err_status e) as [z|]; [|discriminate Hr].
    destruct (Z.eq_dec z 404) as [->|H4]; [discriminate Hr|].
    destruct (Z.eq_dec z 403) as [->|H3].
    + injection Hr as <-. discriminate Hd.
    + rewrite (status_other_than_404_403 _ z _ _ _ H4 H3) in Hr.
      discriminate Hr.
Qed.

End MoreGatewayFacts.

Section GeocodingFacts.
Import Routes.

(** X4. The geocode route never answers 500: a provider failure, like an
    empty or missing result list, is answered 404 "Address not found";
    a first result with a location is answered 200 with its coordinates. *)
Theorem geocode_route_statuses (client : Geocoding.Client)
  (address : string) :
  nonempty address = true ->
  (status (geocode client (Some address)) = 200
   \/ status (geocode client (Some address)) = 404)
  /\ (forall failure,
        Geocoding.geocode client address = Thrown failure ->
        geocode client (Some address) = fail 404 "Address not found" None)
  /\ (Geocoding.geocode client address = Returned None
      \/ Geocoding.geocode client address = Returned (Some []) ->
        geocode client (Some address) = fail 404 "Address not found" None)
  /\ (forall first others l,
        Geocoding.geocode client address = Returned (Some (first :: others)) ->
        Geocoding.geometry first = Some {| Provider.location := Some l |} ->
        geocode client (Some address) =
          ok {| LatLng.lat := LatLng.lat l; LatLng.lng := LatLng.lng l |}).
Proof.
  intros Ha. unfold geocode. simpl. rewrite Ha. simpl.
  unfold Geocoding.geocodeLocation, Geocoding.geocode_body.
  split; [|split; [|split]].
  - destruct (Geocoding.geocode client address) as [[[|f fs]|]|e]; simpl;
      try (right; reflexivity).
    destruct (Geocoding.geometry f) as [g|]; simpl; [|right; reflexivity].
    destruct (Provider.location g); simpl; [left|right]; reflexivity.
  - intros failure ->. reflexivity.
  - intros [-> | ->]; reflexivity.
  - intros first others l -> Hg. simpl. rewrite Hg. reflexivity.
Qed.

(** X5. [getDirections] always returns, with either a result or an error and
    never both: a result is one route with one leg; an authorization
    failure, any other provider failure, an empty route list and a route
    without a usable first leg all give a null result with an error
    text. *)
Theorem getDirections_result_xor_error (client : Directions.Client)
  (o : Directions.Options) :
  let r := Directions.getDirections client o in
  (Directions.result r = None <-> Directions.error r <> None)
  /\ (forall found, Directions.result r = Some found ->
        exists leg, Directions.routes found
                      = [ {| Directions.route_legs := [leg] |} ])
  /\ (forall failure,
        Directions.directions client
          {| Directions.params_origin := Directions.origin o;
             Directions.params_destination := Directions.destination o;
             Directions.params_mode :=
               Places.default "driving" (Directions.mode o) |}
          = Thrown failure ->
        Directions.result r = None
        /\ Directions.error r =
             Some (match err_status failure with
                   | Some 403 => "API key issue"
                   | _ => err_message failure
                   end)).
Proof.
  cbv zeta. unfold Directions.getDirections.
  destruct (Directions.directions client _) as [[[|route rs]|]|e] eqn:D;
    simpl.
  - split; [split; [discriminate | reflexivity]|].
    split; [discriminate|]. intros f E. discriminate E.
  - unfold Directions.first_leg.
    destruct (Directions.legs route) as [[|leg ls]|]; simpl;
      try (split; [split; [discriminate | reflexivity]|];
           split; [discriminate|]; intros f E; discriminate E).
    destruct (Directions.distance leg) as [dt|]; simpl;
      try (split; [split; [discriminate | reflexivity]|];
           split; [discriminate|]; intros f E; discriminate E).
    destruct (Directions.duration leg) as [du|]; simpl;
      try (split; [split; [discriminate | reflexivity]|];
           split; [discriminate|]; intros f E; discriminate E).
    split; [split; [discriminate | intros H; exfalso; apply H; reflexivity]|].
    split; [|intros f E; discriminate E].
    intros found E. injection E as <-. eexists. reflexivity.
  - split; [split; [discriminate | reflexivity]|].
    split; [discriminate|]. intros f E. discriminate E.
  - assert (Hcase :
      forall z : option Z,
        Directions.result
          (match z with
           | Some 403 => {| Directions.result := None;
                            Directions.error := Some "API key issue" |}
           | _ => {| Directions.result := None;
                     Directions.error := Some (err_message e) |}
           end) = None
        /\ Directions.error
          (match z with
           | Some 403 => {| Directions.result := None;
                            Directions.error := Some "API key issue" |}
           | _ => {| Directions.result := None;
                     Directions.error := Some (err_message e) |}
           end) = Some (match z with
                        | Some 403 => "API key issue"
                        | _ => err_message e
                        end)).
    { intros [z|]; [|split; reflexivity].
      destruct (Z.eq_dec z 403) as [->|Hz]; [split; reflexivity|].
      rewrite !(status_other_than_403 _ z _ _ Hz). split; reflexivity. }
    destruct (Hcase (err_status e)) as [H1 H2].
    split; [split; [intros _; rewrite H2; discriminate | intros _; exact H1]|].
    split; [intros found E; rewrite H1 in E; discriminate E|].
    intros failure E. injection E as <-. split; assumption.
Qed.

(** X6. The directions route answers 400, 200 or 500.  It answers 400
    when the origin or the destination is missing or empty, or when the
    mode (by default driving) is not one of the four valid modes.  With
    both present and a valid mode it answers 200 when both are strings,
    even when the provider fails (the failure is in the body), and 500
    when one of them is not a string: a repeated parameter is an array,
    on which [trim] is not a function.  Only a 200 answer depends on the
    provider. *)
Theorem directions_route_statuses (sh : StringHost)
  (client : Directions.Client) (q : DirectionsQuery) :
  let reply := directions sh client q in
  let mode := Places.default (Text "driving") (dir_mode q) in
  (status reply = 400 \/ status reply = 200 \/ status reply = 500)
  /\ (truthy_value (dir_origin q) = false
      \/ truthy_value (dir_destination q) = false
      \/ includes_value validModes mode = false ->
      status reply = 400)
  /\ (truthy_value (dir_origin q) = true ->
      truthy_value (dir_destination q) = true ->
      includes_value validModes mode = true ->
      (is_text (dir_origin q) = true -> is_text (dir_destination q) = true ->
         status reply = 200)
      /\ (is_text (dir_origin q) = false
          \/ is_text (dir_destination q) = false ->
          status reply = 500
          /\ exists name,
               body reply
               = Failure "Failed to get directions"
                   (Some (name ++ ".trim is not a function")%string)))
  /\ (status reply <> 200 ->
      forall client', directions sh client' q = reply).
Proof.
  intros reply mode. subst reply mode. unfold directions, directions_body.
  destruct (includes_value validModes
              (Places.default (Text "driving") (dir_mode q))) eqn:Hm;
    destruct (dir_origin q) as [[o|]|];
    destruct (dir_destination q) as [[d|]|];
    cbn [truthy_value is_text];
    try destruct (nonempty o) eqn:Ho; try destruct (nonempty d) eqn:Hd;
    cbn [negb orb bind recover trim_of status body ok fail];
    (split; [auto|]);
    (split; [intros [H|[H|H]]; (discriminate H || reflexivity)|]);
    (split; [|intros Hs client'; try reflexivity; exfalso; apply Hs;
              reflexivity]);
    intros H1 H2 H3; try discriminate H1; try discriminate H2;
    try discriminate H3;
    (split; [intros H4 H5; (discriminate H4 || discriminate H5 || reflexivity)
            |intros [H|H]; try discriminate H;
             (split; [reflexivity|]);
             first [ exists "origin"%string; reflexivity
                   | exists "destination"%string; reflexivity ]]).
Qed.

End GeocodingFacts.

(* ================================================================== *)
(** * Further properties of the agent *)
(* ================================================================== *)

Section MoreAgentFacts.
Import Agent Trace.
Variable h : Host.
Variable w : World.
Local Open Scope list_scope.

Lemma validated_nonempty (userQuery : string) (extracted : RawIntent) :
  nonempty userQuery = true ->
  nonempty (query (validated userQuery extracted)) = true
  /\ nonempty (formatted_query (validated userQuery extracted)) = true.
Proof.
  intros Hu. unfold validated. simpl.
  assert (Hq : nonempty
                 (if truthy_string (raw_query extracted)
                  then Places.default userQuery (raw_query extracted)
                  else userQuery) = true).
  { destruct (raw_query extracted) as [[|c s]|]; simpl; try exact Hu.
    reflexivity. }
  split; [exact Hq|].
  destruct (raw_formatted_query extracted) as [[|c s]|]; simpl;
    try exact Hq. reflexivity.
Qed.

(** X7. The search of a turn is never made with an empty query when the
    utterance is not empty: whatever the extractor's LLM answers (a
    missing or empty [query] or [formatted_query], no JSON at all, no
    answer in time), the intent the orchestrator goes on with has a
    non-empty [query] and [formatted_query], and the latter is the query
    given to the provider. *)
Theorem search_query_never_empty (userQuery : string)
  (userLocation : option LatLng.t) :
  nonempty userQuery = true ->
  let intent := extract_with_timeout h w userQuery in
  nonempty (query intent) = true
  /\ nonempty (formatted_query intent) = true
  /\ Places.params_query
       (Places.searchParams (search_options intent userLocation))
     = formatted_query intent.
Proof.
  intros Hu intent. subst intent. unfold extract_with_timeout.
  destruct (extract_deadline_first w); simpl.
  - repeat split; exact Hu.
  - unfold extractLocationIntent, extract_body.
    destruct (extract_reply w _) as [e|ok status body]; simpl;
      [repeat split; exact Hu|].
    destruct ok; simpl; [|repeat split; exact Hu].
    destruct body as [e|content]; [repeat split; exact Hu|].
    destruct (truthy_string content); simpl; [|repeat split; exact Hu].
    destruct (JSON_parse_intent h _) as [extracted|];
      [|repeat split; exact Hu].
    destruct (validated_nonempty userQuery extracted Hu) as [H1 H2].
    repeat split; assumption.
Qed.

(** ** The last user message *)

Lemma last_some (A : Type) (l : list A) (x : A) :
  last (map Some (l ++ [x])) None = Some x.
Proof. rewrite map_app. simpl. apply last_last. Qed.

Lemma filter_no_user (l : list ChatMessage) :
  forallb (fun x => negb (is_user x)) l = true ->
  filter (fun m => String.eqb (role m) "user") l = [].
Proof.
  induction l as [|x l IH]; simpl; [reflexivity|].
  intros H. apply andb_true_iff in H. destruct H as [Hx Hl].
  unfold is_user in Hx. destruct (String.eqb (role x) "user");
    [discriminate Hx | apply IH; exact Hl].
Qed.

Lemma last_of_cons_is_some (A : Type) (l : list A) (y : A) :
  last (map Some (y :: l)) None <> None.
Proof.
  revert y. induction l as [|z l IH]; intros y; simpl; [discriminate|].
  apply (IH z).
Qed.

Lemma lastUserMessage_none_iff (messages : list ChatMessage) :
  lastUserMessage messages = None
  <-> forallb (fun x => negb (is_user x)) messages = true.
Proof.
  unfold lastUserMessage. split.
  - induction messages as [|x l IH]; simpl; [reflexivity|].
    unfold is_user at 1.
    destruct (String.eqb (role x) "user") eqn:E; simpl.
    + intros H. exfalso. exact (last_of_cons_is_some _ _ x H).
    + exact IH.
  - intros H. rewrite (filter_no_user messages H). reflexivity.
Qed.

(** X8. [streamChatWithTools] answers the last message whose role is "user",
    whatever comes after it; it finds none exactly when no message has
    that role. *)
Theorem lastUserMessage_is_last_user (messages : list ChatMessage) :
  (forall before m after,
     messages = before ++ m :: after ->
     is_user m = true -> forallb (fun x => negb (is_user x)) after = true ->
     lastUserMessage messages = Some m)
  /\ (lastUserMessage messages = None
      <-> forallb (fun x => negb (is_user x)) messages = true).
Proof.
  split; [|apply lastUserMessage_none_iff].
  intros before m after -> Hm Hafter. unfold lastUserMessage.
  rewrite filter_app. simpl. unfold is_user in Hm. rewrite Hm.
  rewrite (filter_no_user after Hafter). apply last_some.
Qed.

(** X9. A message list without a user message: the orchestrator reports
    "No user message found" through [onError] and returns; neither the
    extractor, the places provider nor the narration is consulted (the
    calls do not depend on the world). *)
Theorem turn_without_user_message (messages : list ChatMessage)
  (userLocation : option LatLng.t) :
  forallb (fun x => negb (is_user x)) messages = true ->
  streamChatWithTools h w messages userLocation
    = ([OnError "No user message found"], Returned tt)
  /\ forall w' : World,
       streamChatWithTools h w' messages userLocation
         = streamChatWithTools h w messages userLocation.
Proof.
  intros H.
  assert (Hn : lastUserMessage messages = None).
  { apply (proj2 (lastUserMessage_none_iff messages)). exact H. }
  assert (Hw : forall w0, streamChatWithTools h w0 messages userLocation
                 = ([OnError "No user message found"], Returned tt)).
  { intros w0. unfold streamChatWithTools. rewrite Hn. reflexivity. }
  split; [apply Hw|]. intros w'. rewrite !Hw. reflexivity.
Qed.

(** ** What the narration is told about the places *)

Lemma place_lines_ext (ps qs : list Places.PlaceRecord) :
  Forall2 (fun p q =>
             Places.name p = Places.name q
             /\ Places.rating p = Places.rating q
             /\ Places.distance_text p = Places.distance_text q) ps qs ->
  forall i, place_lines i ps = place_lines i qs.
Proof.
  induction 1 as [|p q ps qs (Hn & Hr & Hd) _ IH]; intros i; [reflexivity|].
  cbn [place_lines]. rewrite (IH (S i)). unfold place_line.
  rewrite Hn, Hr, Hd. reflexivity.
Qed.

(** X10. The narration is told the number of places found and, of the first
    five only, the name, the rating and the distance text: two result
    lists of the same length whose first five places agree on these
    three fields give the same context, hence the same request to the
    LLM and the same narration. *)
Theorem narration_sees_top_five (userQuery : string)
  (ps qs : list Places.PlaceRecord) :
  List.length ps = List.length qs ->
  Forall2 (fun p q =>
             Places.name p = Places.name q
             /\ Places.rating p = Places.rating q
             /\ Places.distance_text p = Places.distance_text q)
          (firstn 5 ps) (firstn 5 qs) ->
  narration_context ps = narration_context qs
  /\ streamLLMResponse h w userQuery ps onChunk
     = streamLLMResponse h w userQuery qs onChunk.
Proof.
  intros Hlen Hfirst.
  assert (Hc : narration_context ps = narration_context qs).
  { unfold narration_context.
    destruct ps as [|p ps], qs as [|q qs]; try discriminate Hlen;
      [reflexivity|].
    rewrite Hlen, (place_lines_ext _ _ Hfirst 0%nat). reflexivity. }
  split; [exact Hc|]. unfold streamLLMResponse. rewrite Hc. reflexivity.
Qed.

End MoreAgentFacts.

(* ================================================================== *)
(** * Further properties of the two streams *)
(* ================================================================== *)

Section NarrationFacts.
Import Agent Trace.
Variable h : Host.
Local Open Scope list_scope.

Lemma chunks_app (a b : list Call) : chunks (a ++ b) = chunks a ++ chunks b.
Proof.
  induction a as [|[c|e] a IH]; simpl; [reflexivity| |assumption].
  f_equal. assumption.
Qed.

Lemma forward_line_chunks (line : string) :
  chunks (fst (forward_line h onChunk line)) =
    match delta_of_line h line with Some d => [d] | None => [] end.
Proof.
  unfold forward_line, delta_of_line.
  destruct (JSON_parse_frame h line) as [parsed|]; [|reflexivity].
  destruct (Ollama.message parsed) as [message|]; [|reflexivity].
  destruct (Ollama.content message) as [[|c s]|]; reflexivity.
Qed.

Lemma for_each_chunks (lines : list string) :
  chunks (fst (for_each (forward_line h onChunk) lines)) =
    flat_map (fun line => match delta_of_line h line with
                          | Some d => [d]
                          | None => []
                          end) lines.
Proof.
  induction lines as [|line lines IH]; [reflexivity|].
  simpl for_each. simpl flat_map.
  destruct (forward_line_returns h line) as [Hs _].
  pose proof (forward_line_chunks line) as Hc.
  destruct (forward_line h onChunk line) as [calls c]. simpl in Hs, Hc.
  subst c. rewrite andThen_returned. simpl fst.
  rewrite chunks_app, Hc, IH. reflexivity.
Qed.

Lemma read_loop_chunk (text : string) (rest : list Ollama.Read) :
  read_loop h onChunk (Ollama.Chunk text :: rest) =
    (fst (for_each (forward_line h onChunk) (lines_of text))
       ++ fst (read_loop h onChunk rest),
     snd (read_loop h onChunk rest)).
Proof.
  simpl read_loop.
  destruct (for_each_returns h (lines_of text)) as [Hs _].
  destruct (for_each (forward_line h onChunk) (lines_of text)) as [calls c].
  simpl in Hs. subst c. rewrite andThen_returned. reflexivity.
Qed.

(** X11. The narration forwards the content deltas in arrival order, read by
    read and line by line: a read contributes the deltas of its own
    non-blank lines that parse (a line that does not parse, or carries no
    content, is skipped, and nothing is kept from one read to the next);
    a read that fails ends the narration with its error, after the deltas
    of the reads before it and without those of the reads after it. *)
Theorem narration_in_arrival_order :
  (forall text rest,
     forwarded h (Ollama.Chunk text :: rest)
       = deltas_of_chunk h text ++ forwarded h rest)
  /\ (forall reads1 reads2,
        forallb is_chunk reads1 = true ->
        forwarded h (reads1 ++ reads2)
          = forwarded h reads1 ++ forwarded h reads2
        /\ snd (read_loop h onChunk (reads1 ++ reads2))
           = snd (read_loop h onChunk reads2))
  /\ (forall reads1 e reads2,
        forallb is_chunk reads1 = true ->
        forwarded h (reads1 ++ Ollama.ReadFails e :: reads2)
          = forwarded h reads1
        /\ snd (read_loop h onChunk (reads1 ++ Ollama.ReadFails e :: reads2))
           = Thrown e).
Proof.
  assert (H1 : forall text rest,
             forwarded h (Ollama.Chunk text :: rest)
               = deltas_of_chunk h text ++ forwarded h rest).
  { intros text rest. unfold forwarded. rewrite read_loop_chunk.
    simpl fst. rewrite chunks_app, for_each_chunks. reflexivity. }
  assert (H2 : forall reads1 reads2,
             forallb is_chunk reads1 = true ->
             forwarded h (reads1 ++ reads2)
               = forwarded h reads1 ++ forwarded h reads2
             /\ snd (read_loop h onChunk (reads1 ++ reads2))
                = snd (read_loop h onChunk reads2)).
  { induction reads1 as [|[text|e] reads1 IH]; intros reads2 Hc.
    - split; reflexivity.
    - simpl in Hc. destruct (IH reads2 Hc) as [IHf IHs].
      rewrite <- app_comm_cons. rewrite !H1, IHf, app_assoc.
      split; [reflexivity|].
      rewrite read_loop_chunk. simpl snd. exact IHs.
    - discriminate Hc. }
  split; [exact H1|]. split; [exact H2|].
  intros reads1 e reads2 Hc.
  destruct (H2 reads1 (Ollama.ReadFails e :: reads2) Hc) as [Hf Hs].
  rewrite Hf, Hs. unfold forwarded at 2. simpl. rewrite app_nil_r.
  split; reflexivity.
Qed.

End NarrationFacts.

Section LineFacts.
Import Agent Trace.
Local Open Scope list_scope.

Lemma split_newline_nonempty (s : string) : split_newline s <> [].
Proof.
  destruct s as [|c s]; simpl; [discriminate|].
  destruct (Ascii.eqb c (ascii_of_nat 10)); [discriminate|].
  destruct (split_newline s); discriminate.
Qed.

Lemma split_newline_round_trip (s : string) :
  Json.join newline (split_newline s) = s
  /\ Forall (fun line => ~ In newline_char (chars line)) (split_newline s).
Proof.
  induction s as [|c s [IHj IHf]].
  - split; [reflexivity|]. constructor; [|constructor]. intros [].
  - simpl split_newline.
    destruct (Ascii.eqb_spec c (ascii_of_nat 10)) as [->|Hc].
    + split.
      * pose proof (split_newline_nonempty s) as Hn.
        simpl Json.join. destruct (split_newline s) as [|l ls] eqn:E;
          [congruence|].
        change (String (ascii_of_nat 10) s = String (ascii_of_nat 10) s)
          with (newline ++ s = newline ++ s)%string.
        simpl. f_equal. exact IHj.
      * constructor; [intros []|exact IHf].
    + pose proof (split_newline_nonempty s) as Hn.
      destruct (split_newline s) as [|l ls] eqn:E; [congruence|].
      split.
      * simpl Json.join in *. destruct ls as [|l2 ls].
        -- f_equal. exact IHj.
        -- simpl. f_equal. exact IHj.
      * inversion IHf as [|? ? Hl Hls]; subst.
        constructor; [|exact Hls].
        intros [Hin|Hin]; [apply Hc; exact Hin | exact (Hl Hin)].
Qed.

End LineFacts.

(* ================================================================== *)
(** * Serialised values hold no control character *)
(* ================================================================== *)

Section PrintableFacts.
Import JsNumber Agent Trace Server.
Local Open Scope list_scope.

Lemma chars_app (a b : string) :
  chars (a ++ b)%string = chars a ++ chars b.
Proof.
  unfold chars. induction a as [|c a IH]; simpl; [reflexivity|].
  f_equal. exact IH.
Qed.

Lemma Forall_chars_app (P : ascii -> Prop) (a b : string) :
  Forall P (chars a) -> Forall P (chars b) -> Forall P (chars (a ++ b)%string).
Proof.
  intros Ha Hb. rewrite chars_app. apply Forall_app. split; assumption.
Qed.

Lemma printable_check (s : string) :
  forallb (fun c => Nat.leb 32 (nat_of_ascii c)) (chars s) = true ->
  printable s.
Proof.
  unfold printable. intros H. apply Forall_forall. intros c Hc.
  rewrite forallb_forall in H. apply Nat.leb_le. exact (H c Hc).
Qed.

Ltac printable_literal := apply printable_check; reflexivity.

Lemma printable_app (a b : string) :
  printable a -> printable b -> printable (a ++ b)%string.
Proof.
  unfold printable. intros Ha Hb. rewrite chars_app.
  apply Forall_app. split; assumption.
Qed.

Lemma hex_digit_printable (n : nat) : printable (Json.hex_digit n).
Proof.
  unfold Json.hex_digit.
  do 16 (destruct n as [|n]; [printable_literal|]).
  printable_literal.
Qed.

Lemma escape_char_printable (c : ascii) : printable (Json.escape_char c).
Proof.
  unfold Json.escape_char.
  repeat match goal with
         | |- context [if Nat.eqb ?a ?b then _ else _] =>
             destruct (Nat.eqb a b); [printable_literal|]
         end.
  destruct (Nat.ltb (nat_of_ascii c) 32) eqn:L.
  - apply printable_app; [printable_literal|].
    apply printable_app; [printable_literal|].
    apply printable_app; apply hex_digit_printable.
  - apply Nat.ltb_ge in L. unfold printable. simpl.
    constructor; [exact L | constructor].
Qed.

Lemma escape_printable (s : string) : printable (Json.escape s).
Proof.
  induction s as [|c s IH]; simpl; [constructor|].
  apply printable_app; [apply escape_char_printable | exact IH].
Qed.

Lemma printable_empty : printable EmptyString.
Proof. constructor. Qed.

Lemma printable_substring (s : string) :
  printable s -> forall n m, printable (substring n m s).
Proof.
  unfold printable.
  induction s as [|c s IH]; intros Hs n m.
  - destruct n, m; simpl; constructor.
  - inversion Hs as [|? ? Hc Hs']; subst.
    destruct n as [|n]; destruct m as [|m]; simpl; try constructor.
    + exact Hc.
    + apply (IH Hs' 0%nat m).
    + apply (IH Hs' n 0%nat).
    + apply (IH Hs' n (S m)).
Qed.

Lemma printable_uint (d : Decimal.uint) :
  printable (NilEmpty.string_of_uint d).
Proof.
  unfold printable.
  induction d; simpl; constructor;
    try (apply Nat.leb_le; reflexivity); exact IHd.
Qed.

Lemma printable_digits (z : Z) : printable (digits z).
Proof.
  unfold digits, NilZero.string_of_uint.
  destruct (N.to_uint (Z.to_N z)) eqn:E;
    try (rewrite <- E; apply printable_uint).
  printable_literal.
Qed.

Lemma printable_zeros (n : nat) : printable (zeros n).
Proof.
  unfold printable.
  induction n as [|n IH]; simpl; constructor;
    [apply Nat.leb_le; reflexivity | exact IH].
Qed.

Ltac printable_parts :=
  repeat first
    [ apply printable_app
    | apply printable_digits
    | apply printable_zeros
    | apply printable_substring
    | apply printable_empty
    | (printable_literal) ].

Lemma printable_format_positive (m : positive) (e : Z) :
  printable (format_positive m e).
Proof.
  unfold format_positive.
  destruct (shortest 17 _ _ 1) as [[s k] n].
  unfold exponent_part, take, drop.
  repeat match goal with
         | |- context [if ?b then _ else _] => destruct b
         end; printable_parts.
Qed.

Lemma printable_ToString (x : number) : printable (ToString x).
Proof.
  unfold ToString. destruct (Prim2SF x) as [s|s| |s m e].
  - printable_literal.
  - destruct s; printable_literal.
  - printable_literal.
  - apply printable_app; [destruct s; printable_parts|].
    apply printable_format_positive.
Qed.

Lemma printable_of_number (x : number) : printable (Json.of_number x).
Proof.
  unfold Json.of_number.
  destruct (Prim2SF x) eqn:E; try apply printable_ToString;
    printable_literal.
Qed.

Lemma printable_of_bool (b : bool) : printable (Json.of_bool b).
Proof. destruct b; printable_literal. Qed.

Lemma printable_quote (s : string) : printable (Json.quote s).
Proof.
  unfold Json.quote. apply printable_app; [printable_literal|].
  apply printable_app; [apply escape_printable|].
  printable_literal.
Qed.

Lemma printable_join (sep : string) (l : list string) :
  printable sep -> Forall printable l -> printable (Json.join sep l).
Proof.
  intros Hsep. induction 1 as [|x l Hx Hl IH]; [constructor|].
  destruct l as [|y l]; [exact Hx|].
  change (Json.join sep (x :: y :: l))
    with (x ++ sep ++ Json.join sep (y :: l))%string.
  apply printable_app; [exact Hx|]. apply printable_app; assumption.
Qed.

Lemma printable_array (l : list string) :
  Forall printable l -> printable (Json.array l).
Proof.
  intros H. unfold Json.array.
  apply printable_app; [printable_literal|].
  apply printable_app; [|printable_literal].
  apply printable_join; [printable_literal | exact H].
Qed.

Lemma printable_present (l : list (option string)) :
  Forall (fun m => match m with Some s => printable s | None => True end) l ->
  Forall printable (Json.present l).
Proof.
  induction 1 as [|[s|] l Hs Hl IH]; simpl; try constructor; assumption.
Qed.

Lemma printable_object (l : list (option string)) :
  Forall (fun m => match m with Some s => printable s | None => True end) l ->
  printable (Json.object l).
Proof.
  intros H. unfold Json.object.
  apply printable_app; [printable_literal|].
  apply printable_app; [|printable_literal].
  apply printable_join; [printable_literal|].
  apply printable_present. exact H.
Qed.

Lemma printable_member (A : Type) (key : string) (render : A -> string)
  (v : option A) :
  (forall a, printable (render a)) ->
  match Json.member key render v with
  | Some s => printable s
  | None => True
  end.
Proof.
  intros Hr. unfold Json.member.
  destruct v as [a|]; cbn [option_map]; [|exact I].
  apply printable_app; [apply printable_quote|].
  apply printable_app; [printable_literal | apply Hr].
Qed.

Lemma printable_member_or_null (A : Type) (key : string)
  (render : A -> string) (v : option A) :
  (forall a, printable (render a)) ->
  match Json.member_or_null key render v with
  | Some s => printable s
  | None => True
  end.
Proof.
  intros Hr. unfold Json.member_or_null.
  apply printable_app; [apply printable_quote|].
  apply printable_app; [printable_literal|].
  destruct v as [a|]; [apply Hr | printable_literal].
Qed.

Lemma printable_map (A : Type) (f : A -> string) (l : list A) :
  (forall a, printable (f a)) -> Forall printable (map f l).
Proof. intros H. apply Forall_map. apply Forall_forall. intros a _. apply H. Qed.

Ltac printable_value :=
  intros; cbv beta;
  first [ apply printable_quote
        | apply printable_of_number
        | apply printable_of_bool
        | match goal with
          | H : forall _, printable _ |- _ => apply H
          end
        | (apply printable_array; apply printable_map; printable_value) ].

Ltac printable_members :=
  apply printable_object;
  repeat (apply Forall_cons;
          [ first [ apply printable_member | apply printable_member_or_null ];
            printable_value
          | ]);
  apply Forall_nil.

Lemma printable_daytime (d : Provider.DayTime) :
  printable (Places.daytime_json d).
Proof. unfold Places.daytime_json. printable_members. Qed.

Lemma printable_period (p : Provider.Period) :
  printable (Places.period_json p).
Proof.
  pose proof printable_daytime as Hd.
  unfold Places.period_json. printable_members.
Qed.

Lemma printable_opening_hours (oh : Provider.OpeningHours) :
  printable (Places.opening_hours_json oh).
Proof.
  pose proof printable_period as Hp.
  unfold Places.opening_hours_json. printable_members.
Qed.

Lemma printable_photo (p : Places.PhotoRef) : printable (Places.photo_json p).
Proof. unfold Places.photo_json. printable_members. Qed.

Lemma printable_place (r : Places.PlaceRecord) : printable (Places.place_json r).
Proof.
  unfold Places.place_json.
  apply printable_object.
  repeat (apply Forall_cons;
          [ first [ apply printable_member | apply printable_member_or_null ];
            intros; cbv beta;
            first [ apply printable_quote | apply printable_of_number
                  | apply printable_of_bool | apply printable_opening_hours
                  | (apply printable_array; apply printable_map; intros;
                     first [ apply printable_quote | apply printable_photo ]) ]
          | ]).
  apply Forall_nil.
Qed.

Lemma printable_places_payload (places : list Places.PlaceRecord) :
  printable (places_payload places).
Proof.
  unfold places_payload. apply printable_object.
  apply Forall_cons; [apply printable_member; apply printable_quote|].
  apply Forall_cons;
    [apply printable_member; intros; apply printable_array;
     apply printable_map; apply printable_place|].
  constructor.
Qed.

Lemma content_object_printable (chunk : string) :
  printable (content_object chunk).
Proof.
  unfold content_object. apply printable_object.
  apply Forall_cons; [|constructor].
  apply printable_member. apply printable_quote.
Qed.

Lemma printable_no_newline (s : string) :
  printable s -> ~ In newline_char (chars s).
Proof.
  unfold printable. intros H Hin.
  rewrite Forall_forall in H. specialize (H _ Hin).
  change (nat_of_ascii newline_char) with 10%nat in H. lia.
Qed.

Lemma split_newline_line (a rest : string) :
  ~ In newline_char (chars a) ->
  split_newline (a ++ newline ++ rest)%string = a :: split_newline rest.
Proof.
  induction a as [|c a IH]; intros Hn.
  - reflexivity.
  - simpl. destruct (Ascii.eqb_spec c (ascii_of_nat 10)) as [->|Hc].
    + exfalso. apply Hn. left. reflexivity.
    + change (a ++ String (ascii_of_nat 10) rest)%string
        with (a ++ newline ++ rest)%string.
      rewrite IH; [reflexivity|]. intros Hin. apply Hn. right. exact Hin.
Qed.

Lemma data_line_splits (payload : string) :
  printable payload ->
  split_newline (data_frame payload)
  = [ ("data: " ++ payload)%string; EmptyString; EmptyString ].
Proof.
  intros Hp.
  change (data_frame payload)
    with (("data: " ++ payload) ++ newline ++ newline)%string.
  rewrite split_newline_line; [reflexivity|].
  apply printable_no_newline. apply printable_app; [printable_literal|].
  exact Hp.
Qed.

End PrintableFacts.

(* ================================================================== *)
(** * Further properties of the chat endpoint *)
(* ================================================================== *)

Section FrameFacts.
Import Agent Trace Server.
Local Open Scope list_scope.

(** X12. A chunk that is wrapped as content is written as one line: quoting
    leaves no control character in the payload, so the frame splits into
    its data line and the two empty strings after the blank line that
    ends the event, whatever the chunk holds. *)
Theorem wrapped_frame_is_one_line (chunk : string) :
  prefix structured_prefix chunk = false ->
  printable (content_object chunk)
  /\ split_newline (chunk_frame chunk)
     = [ ("data: " ++ content_object chunk)%string; EmptyString; EmptyString ].
Proof.
  intros Hp. split; [apply content_object_printable|].
  unfold chunk_frame. rewrite Hp.
  apply data_line_splits. apply content_object_printable.
Qed.

(** X13. The places event passes the endpoint unwrapped, and its payload
    holds no control character, whatever the provider sent (names with
    newlines or quotes included): its frame is one data line followed by
    the blank line that ends the event. *)
Theorem places_frame_is_one_line (places : list Places.PlaceRecord) :
  printable (places_payload places)
  /\ split_newline (chunk_frame (places_payload places))
     = [ ("data: " ++ places_payload places)%string;
         EmptyString; EmptyString ].
Proof.
  pose proof (printable_places_payload places) as Hp.
  split; [exact Hp|].
  assert (Hs : prefix structured_prefix (places_payload places) = true)
    by reflexivity.
  unfold chunk_frame. rewrite Hs. apply data_line_splits. exact Hp.
Qed.

End FrameFacts.

Section EndpointFacts.
Import Agent Trace Server.
Variable h : Host.
Variable w : World.
Local Open Scope list_scope.

Lemma fold_deliver (calls : list Call) (res : Response) :
  written (fold_left deliver calls res)
    = written res ++ map frame_of_call calls
  /\ ended (fold_left deliver calls res) = ended res
  /\ statusCode (fold_left deliver calls res) = statusCode res
  /\ headers (fold_left deliver calls res) = headers res.
Proof.
  revert res. induction calls as [|c calls IH]; intros res; simpl.
  - rewrite app_nil_r. repeat split.
  - destruct (IH (deliver res c)) as (H1 & H2 & H3 & H4).
    rewrite H1, H2, H3, H4.
    destruct c; simpl; rewrite <- app_assoc; repeat split.
Qed.

(** X14. Whenever the orchestrator returns, the endpoint closes the stream:
    the frames of its calls are written in order, the done frame is
    written last, and the response is ended with status 200 and the
    event-stream headers. *)
Theorem returned_turn_is_closed (req : ChatRequest)
  (msgs : list ChatMessage) :
  messages req = Some msgs ->
  snd (streamChatWithTools h w msgs (userLocation req)) = Returned tt ->
  written (chat h w req)
    = map frame_of_call (fst (streamChatWithTools h w msgs (userLocation req)))
      ++ [done_frame]
  /\ ended (chat h w req) = true
  /\ statusCode (chat h w req) = 200
  /\ headers (chat h w req)
     = [("Content-Type", "text/event-stream"); ("Cache-Control", "no-cache");
        ("Connection", "keep-alive")]%string.
Proof.
  intros Hm Ht. unfold chat. rewrite Hm.
  destruct (streamChatWithTools h w msgs (userLocation req)) as [calls o].
  simpl in Ht. subst o. simpl fst.
  set (res0 := setHeader _ _ _).
  destruct (fold_deliver calls res0) as (H1 & H2 & H3 & H4).
  cbn [end_ write written ended statusCode headers].
  rewrite H1, H3, H4. repeat split.
Qed.

Lemma successful_turn_body (req : ChatRequest)
  (msgs : list ChatMessage) (lastUser : ChatMessage)
  (placesResult : Places.SearchResult) :
  messages req = Some msgs ->
  lastUserMessage msgs = Some lastUser ->
  search_of_turn h w (content lastUser) (userLocation req)
    = Returned placesResult ->
  truthy_string (Places.error placesResult) = false ->
  let places := Places.results placesResult in
  let deltas := narration_deltas h w (content lastUser) places in
  forallb (fun d => negb (prefix structured_prefix d)) deltas = true ->
  written (chat h w req)
    = map data_frame
        (match places with
         | [] => []
         | _ :: _ => [places_payload places]
         end
         ++ map content_object deltas
         ++ [content_object EmptyString; "[DONE]"%string])
  /\ ended (chat h w req) = true.
Proof.
  intros Hm Hlast Hsearch Herr places deltas Hd.
  pose proof (turn_when_search_returns h w _ _ _ _ Hlast Hsearch) as Hturn.
  rewrite Herr in Hturn. fold places deltas in Hturn.
  unfold chat. rewrite Hm, Hturn.
  set (res0 := setHeader _ _ _).
  match goal with
  | |- context [fold_left deliver ?c res0] =>
      destruct (fold_deliver c res0) as (H1 & H2 & _ & _)
  end.
  cbn [end_ write written ended]. rewrite H1. split; [|reflexivity].
  simpl written. rewrite !map_app. simpl app.
  assert (Hmap : map frame_of_call (map OnChunk deltas)
                 = map data_frame (map content_object deltas)).
  { clear - Hd. induction deltas as [|d ds IH]; [reflexivity|].
    simpl in Hd. apply andb_true_iff in Hd. destruct Hd as [Hd1 Hd2].
    simpl. rewrite (IH Hd2). f_equal.
    unfold chunk_frame. apply negb_true_iff in Hd1. rewrite Hd1.
    reflexivity. }
  rewrite Hmap. rewrite <- !app_assoc. simpl.
  unfold places_events. destruct places as [|p ps]; simpl.
  - reflexivity.
  - f_equal.
Qed.

(** X15. The body of the event stream of a successful turn, when no narration
    delta starts with the structured prefix: the places payload as it is
    (when places were found), every delta wrapped as content, the wrapped
    empty delta, and the done frame; the response is ended. *)
Theorem sse_body_of_successful_turn (req : ChatRequest)
  (msgs : list ChatMessage) (lastUser : ChatMessage)
  (placesResult : Places.SearchResult) :
  messages req = Some msgs ->
  lastUserMessage msgs = Some lastUser ->
  search_of_turn h w (content lastUser) (userLocation req)
    = Returned placesResult ->
  truthy_string (Places.error placesResult) = false ->
  let places := Places.results placesResult in
  let deltas := narration_deltas h w (content lastUser) places in
  forallb (fun d => negb (prefix structured_prefix d)) deltas = true ->
  written (chat h w req)
    = map data_frame
        (match places with
         | [] => []
         | _ :: _ => [places_payload places]
         end
         ++ map content_object deltas
         ++ [content_object EmptyString; "[DONE]"%string])
  /\ ended (chat h w req) = true.
Proof.
  intros Hm Hlast Hsearch Herr.
  exact (successful_turn_body req msgs lastUser placesResult
           Hm Hlast Hsearch Herr).
Qed.

End EndpointFacts.

(* ================================================================== *)
(** * Further properties of the query routes *)
(* ================================================================== *)

Section RouteFacts.
Import Routes Trace.
Local Open Scope list_scope.

(** X16. The search route: a missing or empty query is refused with 400
    whatever the provider; an authorization failure of the provider is
    answered 200 with an empty result list and the error text; any other
    failure is answered 500 with the message of the error; a provider
    answer is answered 200. *)
Theorem places_search_statuses (h : FloatGeo.MathHost) (sh : StringHost)
  (client : Places.Client) (q : SearchQuery) :
  (truthy_string (sq_query q) = false ->
     places_search h sh client q = fail 400 "Query parameter is required" None)
  /\ (truthy_string (sq_query q) = true ->
      forall params,
        params = Places.searchParams
                   {| Places.query :=
                        slice_to sh 200
                          (trim sh (Places.default EmptyString (sq_query q)));
                      Places.location :=
                        option_map Places.LocationText (sq_location q);
                      Places.radius :=
                        Some match sq_radius q with
                             | Some r => parseInt sh r
                             | None => 5000%float
                             end;
                      Places.userLocation :=
                        user_location sh (sq_userLat q) (sq_userLng q);
                      Places.language := None |} ->
        (forall failure,
           Places.textSearch client params = Thrown failure ->
           (err_status failure = Some 403 ->
              places_search h sh client q =
                ok {| Places.results := []; Places.search_center := None;
                      Places.error := Some Places.auth_error_text |})
           /\ (err_status failure <> Some 403 ->
                 places_search h sh client q =
                   fail 500 "Failed to search places"
                     (Some (err_message failure))))
        /\ (forall data, Places.textSearch client params = Returned data ->
              status (places_search h sh client q) = 200)).
Proof.
  split.
  - intros Hq. unfold places_search. rewrite Hq. reflexivity.
  - intros Hq params ->. unfold places_search. rewrite Hq.
    cbn [negb]. split.
    + intros failure Hf.
      rewrite (searchPlaces_rejected h _ _ _ Hf). split.
      * intros ->. reflexivity.
      * intros Hs. destruct (err_status failure) as [z|]; [|reflexivity].
        rewrite status_other_than_403; [reflexivity|].
        intros ->. apply Hs. reflexivity.
    + intros data Hd. rewrite (searchPlaces_resolved h _ _ _ Hd).
      reflexivity.
Qed.

(** X17. The details route: a missing place id is refused with 400; a place
    the provider does not know (404) is answered 500 with the details
    "Place not found", not 404; an authorization failure is answered 200
    with a null result and an error text; any other failure, and a
    provider answer without a result, are answered 500 with the message
    of the error. *)
Theorem places_details_statuses (h : FloatGeo.MathHost) (sh : StringHost)
  (client : PlaceDetails.Client) (q : DetailsQuery) :
  (truthy_string (dq_placeId q) = false ->
     places_details h sh client q
       = fail 400 "placeId parameter is required" None)
  /\ (forall placeId, dq_placeId q = Some placeId ->
      nonempty placeId = true ->
      let params := {| PlaceDetails.params_place_id := placeId;
                       PlaceDetails.params_fields := PlaceDetails.fields |} in
      (forall failure,
         PlaceDetails.placeDetails client params = Thrown failure ->
         (err_status failure = Some 404 ->
            places_details h sh client q
              = fail 500 "Failed to get place details"
                  (Some "Place not found"))
         /\ (err_status failure = Some 403 ->
               places_details h sh client q
                 = ok {| PlaceDetails.result := None;
                         PlaceDetails.error := Some "API key issue" |})
         /\ (err_status failure <> Some 404 ->
             err_status failure <> Some 403 ->
               places_details h sh client q
                 = fail 500 "Failed to get place details"
                     (Some (err_message failure))))
      /\ (PlaceDetails.placeDetails client params = Returned None ->
            places_details h sh client q
              = fail 500 "Failed to get place details"
                  (Some (err_message (TypeError "geometry")))))%string.
Proof.
  split.
  - intros Hq. unfold places_details. rewrite Hq. reflexivity.
  - intros placeId Hq Hp params. unfold places_details. rewrite Hq.
    cbn [truthy_string Places.default]. rewrite Hp. cbn [negb].
    unfold PlaceDetails.getPlaceDetails. fold params. split.
    + intros failure ->. cbn [bind try_catch]. split; [|split].
      * intros ->. reflexivity.
      * intros ->. reflexivity.
      * intros H4 H3. destruct (err_status failure) as [z|]; [|reflexivity].
        rewrite status_other_than_404_403; [reflexivity| |];
          intros ->; [apply H4 | apply H3]; reflexivity.
    + intros ->. reflexivity.
Qed.

(** X18. The reverse-geocode route never answers 500 and never answers 200
    with an empty address: a provider failure, an empty result list and
    a first result without a non-empty address are all answered 404; a
    200 answer carries the address with the coordinates as they were
    parsed. *)
Theorem reverse_geocode_route_statuses (sh : StringHost)
  (client : Geocoding.Client) (lat lng : string) :
  nonempty lat = true -> nonempty lng = true ->
  let reply := reverse_geocode sh client (Some lat) (Some lng) in
  (status reply = 200 \/ status reply = 404)
  /\ (forall failure,
        Geocoding.reverseGeocode client
          {| LatLng.lat := Some (parseFloat sh lat);
             LatLng.lng := Some (parseFloat sh lng) |} = Thrown failure ->
        reply = fail 404 "Address not found for given coordinates" None)
  /\ (forall a, body reply = Payload a ->
        nonempty (address a) = true
        /\ address_lat a = parseFloat sh lat
        /\ address_lng a = parseFloat sh lng).
Proof.
  intros Hlat Hlng reply. subst reply. unfold reverse_geocode.
  cbn [truthy_string Places.default]. rewrite Hlat, Hlng. cbn [negb orb].
  unfold Geocoding.reverseGeocode_.
  destruct (Geocoding.reverseGeocode client _) as [[[|first others]|]|e];
    cbn [bind recover];
    try (split; [right; reflexivity|];
         split; [intros f E; try discriminate E; reflexivity|];
         intros a E; discriminate E).
  destruct (Geocoding.formatted_address first) as [text|];
    [destruct (nonempty text) eqn:Ht|];
    try (split; [right; reflexivity|];
         split; [intros f E; discriminate E|];
         intros a E; discriminate E).
  split; [left; reflexivity|]. split; [intros f E; discriminate E|].
  intros a E. injection E as <-. cbn [address address_lat address_lng].
  repeat split. exact Ht.
Qed.

(** ** [encodeURIComponent] *)

Lemma upper_hex_unreserved (n : nat) :
  Forall (fun c => unreserved c = true) (chars (upper_hex n)).
Proof.
  unfold upper_hex.
  do 16 (destruct n as [|n]; [repeat constructor|]).
  simpl. constructor.
Qed.

Lemma encode_chars (s : string) :
  Forall (fun c => unreserved c = true \/ c = "%"%char)
         (chars (encodeURIComponent s)).
Proof.
  induction s as [|c s IH]; simpl; [constructor|].
  rewrite chars_app. apply Forall_app. split; [|exact IH].
  destruct (unreserved c) eqn:U.
  - simpl. constructor; [left; exact U | constructor].
  - constructor; [right; reflexivity|].
    apply (Forall_chars_app _ (upper_hex _) (upper_hex _));
      (eapply Forall_impl; [|apply upper_hex_unreserved]);
      intros a Ha; left; exact Ha.
Qed.

(** X19. The embed route encodes the search text but not the place id.
    Without a place id, what the route builds from a search text [q]
    cannot leave the [src] attribute of the iframe: the encoded text
    holds only unreserved characters and percent signs, so the embed URL
    holds no double quote, no angle bracket and no space.  With a place
    id, whatever [q] is, the id is put into the URL as it is: every
    character of it, a double quote included, is in the embed URL and in
    the html. *)
Theorem map_embed_encodes_query_only (placeId q : option string) :
  (truthy_string placeId = false ->
   forall text, q = Some text -> nonempty text = true ->
   exists e : Embed,
     map_embed placeId q = ok e
     /\ embedUrl e
        = ("https://www.google.com/maps?q=" ++ encodeURIComponent text
           ++ "&output=embed")%string
     /\ html e = iframe (embedUrl e)
     /\ Forall (fun c => unreserved c = true \/ c = "%"%char)
               (chars (encodeURIComponent text))
     /\ (forall c, In c (chars (embedUrl e)) ->
           c <> ascii_of_nat 34 /\ c <> "<"%char /\ c <> ">"%char
           /\ c <> " "%char))
  /\ (forall id, placeId = Some id -> nonempty id = true ->
      exists e : Embed,
        map_embed placeId q = ok e
        /\ embedUrl e = (place_embed_prefix ++ id)%string
        /\ html e = iframe (embedUrl e)
        /\ (forall c, In c (chars id) ->
              In c (chars (embedUrl e)) /\ In c (chars (html e)))).
Proof.
  split.
  - intros Hid text -> Hq. unfold map_embed.
    cbn [truthy_string Places.default]. rewrite Hid, Hq. cbn [negb andb].
    eexists. split; [reflexivity|]. cbn [embedUrl html].
    split; [reflexivity|]. split; [reflexivity|].
    split; [apply encode_chars|].
    intros c Hin.
    assert (Hsafe : unreserved c = true \/ c = "%"%char \/ c = "&"%char
                    \/ c = "="%char \/ c = ":"%char \/ c = "/"%char
                    \/ c = "?"%char).
    { change (chars ("https://www.google.com/maps?q="
                     ++ encodeURIComponent text ++ "&output=embed"))
        with (chars "https://www.google.com/maps?q="
              ++ chars (encodeURIComponent text ++ "&output=embed"))%list
        in Hin.
      apply in_app_or in Hin. destruct Hin as [Hin|Hin].
      - cbn in Hin.
        repeat (destruct Hin as [<-|Hin]; [vm_compute; tauto|]).
        destruct Hin.
      - rewrite chars_app in Hin. apply in_app_or in Hin.
        destruct Hin as [Hin|Hin].
        + pose proof (encode_chars text) as He. rewrite Forall_forall in He.
          destruct (He c Hin) as [H|H]; tauto.
        + cbn in Hin.
          repeat (destruct Hin as [<-|Hin]; [vm_compute; tauto|]).
          destruct Hin. }
    repeat split; intros ->;
      destruct Hsafe as [H|[H|[H|[H|[H|[H|H]]]]]]; discriminate H.
  - intros id -> Hid. unfold map_embed.
    cbn [truthy_string Places.default]. rewrite Hid. cbn [negb andb].
    eexists. split; [reflexivity|]. cbn [embedUrl html].
    split; [reflexivity|]. split; [reflexivity|].
    intros c Hin.
    assert (Hurl : In c (chars (place_embed_prefix ++ id))).
    { rewrite chars_app. apply in_or_app. right. exact Hin. }
    split; [exact Hurl|].
    unfold iframe. rewrite !chars_app. apply in_or_app. right.
    apply in_or_app. left. rewrite <- chars_app. exact Hurl.
Qed.

Lemma nat_of_ascii_lt (c : ascii) : (nat_of_ascii c < 256)%nat.
Proof.
  destruct c as [[] [] [] [] [] [] [] []]; vm_compute; lia.
Qed.

Lemma upper_hex_inj (a b : nat) :
  (a < 16)%nat -> (b < 16)%nat -> upper_hex a = upper_hex b -> a = b.
Proof.
  intros Ha Hb.
  do 16 (destruct a as [|a]; [
    do 16 (destruct b as [|b]; [intros H; try reflexivity; discriminate H|]);
    lia |]).
  lia.
Qed.

Lemma upper_hex_one (a : nat) :
  (a < 16)%nat -> exists c, upper_hex a = String c EmptyString.
Proof.
  intros Ha. do 16 (destruct a as [|a]; [eexists; reflexivity|]). lia.
Qed.

Lemma percent_reserved : unreserved "%"%char = false.
Proof. reflexivity. Qed.

Lemma encodeURIComponent_injective (a b : string) :
  encodeURIComponent a = encodeURIComponent b -> a = b.
Proof.
  revert b. induction a as [|c a IH]; intros [|d b] H.
  - reflexivity.
  - cbn [encodeURIComponent] in H.
    destruct (unreserved d); cbn [append] in H; discriminate H.
  - cbn [encodeURIComponent] in H.
    destruct (unreserved c); cbn [append] in H; discriminate H.
  - cbn [encodeURIComponent] in H.
    pose proof (nat_of_ascii_lt c) as Lc. pose proof (nat_of_ascii_lt d) as Ld.
    assert (Hc1 : (Nat.div (nat_of_ascii c) 16 < 16)%nat)
      by (apply Nat.Div0.div_lt_upper_bound; lia).
    assert (Hd1 : (Nat.div (nat_of_ascii d) 16 < 16)%nat)
      by (apply Nat.Div0.div_lt_upper_bound; lia).
    assert (Hc2 : (Nat.modulo (nat_of_ascii c) 16 < 16)%nat)
      by (apply Nat.mod_upper_bound; lia).
    assert (Hd2 : (Nat.modulo (nat_of_ascii d) 16 < 16)%nat)
      by (apply Nat.mod_upper_bound; lia).
    destruct (upper_hex_one _ Hc1) as [c1 Ec1].
    destruct (upper_hex_one _ Hc2) as [c2 Ec2].
    destruct (upper_hex_one _ Hd1) as [d1 Ed1].
    destruct (upper_hex_one _ Hd2) as [d2 Ed2].
    destruct (unreserved c) eqn:Uc, (unreserved d) eqn:Ud.
    + cbn [append] in H. injection H as Hcd H. subst d.
      f_equal. apply IH. exact H.
    + rewrite Ed1, Ed2 in H. cbn [append] in H. injection H as Hcd _.
      subst c. rewrite percent_reserved in Uc. discriminate Uc.
    + rewrite Ec1, Ec2 in H. cbn [append] in H. injection H as Hcd _.
      subst d. rewrite percent_reserved in Ud. discriminate Ud.
    + rewrite Ec1, Ec2, Ed1, Ed2 in H. cbn [append] in H.
      injection H as H1 H2 Ht.
      assert (E1 : Nat.div (nat_of_ascii c) 16 = Nat.div (nat_of_ascii d) 16).
      { apply upper_hex_inj; [assumption|assumption|].
        rewrite Ec1, Ed1, H1. reflexivity. }
      assert (E2 : Nat.modulo (nat_of_ascii c) 16
                   = Nat.modulo (nat_of_ascii d) 16).
      { apply upper_hex_inj; [assumption|assumption|].
        rewrite Ec2, Ed2, H2. reflexivity. }
      assert (En : nat_of_ascii c = nat_of_ascii d).
      { rewrite (Nat.div_mod_eq (nat_of_ascii c) 16).
        rewrite (Nat.div_mod_eq (nat_of_ascii d) 16).
        rewrite E1, E2. reflexivity. }
      f_equal; [|apply IH; exact Ht].
      rewrite <- (ascii_nat_embedding c), <- (ascii_nat_embedding d).
      rewrite En. reflexivity.
Qed.

End RouteFacts.

(* ================================================================== *)
(** * The browser's reading of the event stream *)
(* ================================================================== *)

Section BrowserFacts.
Import Agent Trace Server Browser Wire.
Variable bh : Browser.Host.
Local Open Scope list_scope.

Lemma string_app_nil_r (a : string) : (a ++ EmptyString)%string = a.
Proof. induction a as [|x a IH]; simpl; [reflexivity|]. f_equal. exact IH. Qed.

Lemma removelast_cons (A : Type) (x : A) (l : list A) :
  l <> [] -> removelast (x :: l) = x :: removelast l.
Proof. destruct l; [congruence | reflexivity]. Qed.

Lemma last_cons (A : Type) (x d : A) (l : list A) :
  l <> [] -> last (x :: l) d = last l d.
Proof. destruct l; [congruence | reflexivity]. Qed.

Lemma last_app_nonempty (A : Type) (a b : list A) (d : A) :
  b <> [] -> last (a ++ b) d = last b d.
Proof.
  intros Hb. induction a as [|x a IH]; [reflexivity|].
  simpl app. rewrite last_cons; [exact IH|].
  destruct a; simpl; [exact Hb | discriminate].
Qed.

(** Splitting a text that arrives in two parts. *)
Lemma split_newline_app (x y : string) :
  split_newline (x ++ y)
  = removelast (split_newline x)
    ++ split_newline (last (split_newline x) EmptyString ++ y).
Proof.
  induction x as [|c x IH].
  - reflexivity.
  - pose proof (split_newline_nonempty x) as Hx.
    cbn [append split_newline].
    destruct (Ascii.eqb c (ascii_of_nat 10)) eqn:E.
    + rewrite removelast_cons by exact Hx.
      rewrite last_cons by exact Hx. rewrite IH. reflexivity.
    + rewrite IH.
      destruct (split_newline x) as [|l ls]; [congruence|].
      destruct ls as [|l2 ls].
      * cbn [removelast last app append split_newline]. rewrite E.
        reflexivity.
      * rewrite !removelast_cons by discriminate.
        rewrite !last_cons by discriminate. reflexivity.
Qed.

Lemma take_lines_app (x y : string) :
  fst (take_lines (x ++ y))
  = fst (take_lines x) ++ fst (take_lines (snd (take_lines x) ++ y))
  /\ snd (take_lines (x ++ y)) = snd (take_lines (snd (take_lines x) ++ y)).
Proof.
  unfold take_lines. cbn [fst snd]. rewrite split_newline_app.
  pose proof (split_newline_nonempty
                (last (split_newline x) EmptyString ++ y)) as Hn.
  split.
  - apply removelast_app. exact Hn.
  - apply last_app_nonempty. exact Hn.
Qed.

Lemma split_one_line (s : string) :
  ~ In newline_char (chars s) -> split_newline s = [s].
Proof.
  induction s as [|c s IH]; intros Hn; [reflexivity|].
  simpl. destruct (Ascii.eqb_spec c (ascii_of_nat 10)) as [->|Hc].
  - exfalso. apply Hn. left. reflexivity.
  - rewrite IH; [reflexivity|]. intros Hin. apply Hn. right. exact Hin.
Qed.

Lemma Forall_last (A : Type) (P : A -> Prop) (l : list A) (d : A) :
  l <> [] -> Forall P l -> P (last l d).
Proof.
  intros Hl H. induction H as [|x l Hx Hl' IH]; [congruence|].
  destruct l as [|y l]; [exact Hx|].
  rewrite last_cons by discriminate. apply IH. discriminate.
Qed.

(** What is left in the buffer holds no complete line. *)
Lemma buffer_has_no_line (s : string) :
  fst (take_lines (snd (take_lines s))) = [].
Proof.
  unfold take_lines. cbn [fst snd].
  destruct (split_newline_round_trip s) as [_ Hf].
  rewrite split_one_line; [reflexivity|].
  apply (Forall_last _ (fun line => ~ In newline_char (chars line)));
    [apply split_newline_nonempty | exact Hf].
Qed.

Lemma handle_data_returns (data : string) :
  snd (handle_data bh data) = Returned tt.
Proof.
  unfold handle_data.
  destruct (JSON_parse_event bh data) as [parsed|]; [|reflexivity].
  destruct (truthy_string (ev_content parsed));
    destruct (truthy_string (ev_error parsed));
    try reflexivity;
    destruct (ev_type parsed) as [t|]; try reflexivity;
    destruct (String.eqb t "places"); reflexivity.
Qed.

Lemma silent_lines_are_last (lines : list string) :
  forallb silent lines = true -> done_is_last lines = true.
Proof.
  induction lines as [|l lines IH]; [reflexivity|].
  simpl. intros H. apply andb_true_iff in H. destruct H as [_ H].
  destruct (is_done_line l); [exact H | exact (IH H)].
Qed.

Lemma done_is_last_app (a b : list string) :
  done_is_last (a ++ b) = true ->
  done_is_last a = true /\ done_is_last b = true.
Proof.
  induction a as [|l a IH]; [intros H; split; [reflexivity | exact H]|].
  simpl. destruct (is_done_line l).
  - rewrite forallb_app. intros H. apply andb_true_iff in H.
    destruct H as [Ha Hb]. split; [exact Ha|].
    apply silent_lines_are_last. exact Hb.
  - exact IH.
Qed.

Lemma silent_lines_call_nothing (lines : list string) :
  forallb silent lines = true -> flat_map (calls_of_line bh) lines = [].
Proof.
  induction lines as [|l lines IH]; [reflexivity|].
  simpl. intros H. apply andb_true_iff in H. destruct H as [Hl H].
  unfold calls_of_line at 1. rewrite Hl. exact (IH H).
Qed.

(** The loop over the lines of one read. *)
Lemma for_lines_calls (lines : list string) :
  done_is_last lines = true ->
  for_lines bh lines = (flat_map (calls_of_line bh) lines, Returned tt).
Proof.
  induction lines as [|l lines IH]; [reflexivity|].
  intros H. cbn [for_lines flat_map done_is_last] in *.
  unfold calls_of_line at 1. unfold is_done_line, silent in *.
  destruct (blank l || negb (prefix data_prefix l)) eqn:Hskip;
    cbn [negb andb orb] in *.
  - exact (IH H).
  - destruct (String.eqb (slice6 l) "[DONE]") eqn:Hdone.
    + rewrite (silent_lines_call_nothing lines H). reflexivity.
    + pose proof (handle_data_returns (slice6 l)) as Hr.
      destruct (handle_data bh (slice6 l)) as [calls c].
      cbn [snd] in Hr. subst c. rewrite (IH H). reflexivity.
Qed.

Lemma read_all_calls (texts : list string) (buffer : string) :
  complete_lines buffer = [] ->
  done_is_last (complete_lines (buffer ++ received texts)) = true ->
  read_all bh buffer (arriving texts)
  = (flat_map (calls_of_line bh) (complete_lines (buffer ++ received texts)),
     Returned tt).
Proof.
  unfold complete_lines. revert buffer.
  induction texts as [|t texts IH]; intros buffer Hb Hd.
  - cbn [received fold_right]. rewrite string_app_nil_r, Hb. reflexivity.
  - cbn [received fold_right arriving map read_all] in *.
    fold (received texts) in *. fold (arriving texts).
    rewrite <- string_app_assoc in *.
    destruct (take_lines_app (buffer ++ t) (received texts)) as [Hf _].
    rewrite Hf in *. apply done_is_last_app in Hd. destruct Hd as [Hd1 Hd2].
    unfold feed. destruct (take_lines (buffer ++ t)) as [lines rest] eqn:E.
    cbn [fst snd] in *.
    rewrite (for_lines_calls lines Hd1). cbn [andThen ret].
    assert (Hrest : fst (take_lines rest) = []).
    { replace rest with (snd (take_lines (buffer ++ t)))
        by (rewrite E; reflexivity).
      apply buffer_has_no_line. }
    rewrite (IH rest Hrest Hd2). rewrite flat_map_app, app_nil_r.
    reflexivity.
Qed.

(** X22. How the network cuts the body into reads does not matter, as long as
    no line that could lead to a callback follows a done line: the
    callbacks are those of the complete lines of the whole text, in
    order, and two sequences of reads that deliver the same text lead to
    the same callbacks.  A last line without its newline is never
    handled. *)
Theorem reads_cut_anywhere (texts1 texts2 : list string) :
  received texts1 = received texts2 ->
  done_is_last (complete_lines (received texts1)) = true ->
  read_all bh EmptyString (arriving texts1)
    = (flat_map (calls_of_line bh) (complete_lines (received texts1)),
       Returned tt)
  /\ read_all bh EmptyString (arriving texts2)
     = read_all bh EmptyString (arriving texts1).
Proof.
  intros Heq Hd.
  assert (H1 : read_all bh EmptyString (arriving texts1)
               = (flat_map (calls_of_line bh)
                    (complete_lines (received texts1)), Returned tt)).
  { apply (read_all_calls texts1 EmptyString); [reflexivity | exact Hd]. }
  split; [exact H1|]. rewrite H1, Heq.
  apply (read_all_calls texts2 EmptyString); [reflexivity|].
  cbn [append]. rewrite <- Heq. exact Hd.
Qed.


(** ** Reading back what the endpoint wrote *)

Lemma substring_all (s : string) : substring 0 (String.length s) s = s.
Proof. induction s as [|c s IH]; simpl; [reflexivity|]. f_equal. exact IH. Qed.

Lemma slice6_data (p : string) : slice6 (data_prefix ++ p) = p.
Proof.
  unfold slice6, data_prefix. cbn [append String.length Nat.sub substring].
  rewrite Nat.sub_0_r. apply substring_all.
Qed.

Lemma data_line_handled (p : string) :
  blank (data_prefix ++ p) || negb (prefix data_prefix (data_prefix ++ p))
  = false.
Proof. destruct p; reflexivity. Qed.

Lemma frame_splits (p rest : string) :
  printable p ->
  split_newline (data_frame p ++ rest)
  = (data_prefix ++ p)%string :: EmptyString :: split_newline rest.
Proof.
  intros Hp.
  assert (E : (data_frame p ++ rest
               = (data_prefix ++ p) ++ newline ++ newline ++ rest)%string).
  { unfold data_frame, data_prefix. rewrite !string_app_assoc. reflexivity. }
  rewrite E. rewrite split_newline_line; [reflexivity|].
  apply printable_no_newline. apply printable_app; [|exact Hp].
  apply printable_check. reflexivity.
Qed.

Lemma lines_of_frames (ps : list string) :
  Forall printable ps ->
  take_lines (received (map data_frame ps))
  = (flat_map lines_of_frame ps, EmptyString).
Proof.
  induction 1 as [|p ps Hp _ IH]; [reflexivity|].
  cbn [map received fold_right flat_map]. fold (received (map data_frame ps)).
  unfold take_lines in *. rewrite (frame_splits _ _ Hp).
  pose proof (split_newline_nonempty (received (map data_frame ps))) as Hn.
  injection IH as IH1 IH2.
  rewrite !removelast_cons by (exact Hn || discriminate).
  rewrite !last_cons by (exact Hn || discriminate).
  rewrite IH1, IH2. reflexivity.
Qed.

Lemma frame_lines_calls (p : string) :
  p <> "[DONE]"%string ->
  flat_map (calls_of_line bh) (lines_of_frame p) = fst (handle_data bh p)
  /\ forallb (fun l => negb (is_done_line l)) (lines_of_frame p) = true.
Proof.
  intros Hp. apply String.eqb_neq in Hp.
  unfold lines_of_frame, calls_of_line, is_done_line, silent.
  cbn [flat_map forallb]. rewrite data_line_handled, slice6_data, Hp.
  cbn [negb orb andb blank app]. rewrite app_nil_r. split; reflexivity.
Qed.

Lemma done_is_last_skip (a b : list string) :
  forallb (fun l => negb (is_done_line l)) a = true ->
  done_is_last (a ++ b) = done_is_last b.
Proof.
  induction a as [|l a IH]; [reflexivity|].
  cbn [forallb app done_is_last]. intros H.
  apply andb_true_iff in H. destruct H as [Hl H].
  apply negb_true_iff in Hl. rewrite Hl. exact (IH H).
Qed.

Lemma frames_calls (ps : list string) :
  Forall (fun p => p <> "[DONE]"%string) ps ->
  flat_map (calls_of_line bh) (flat_map lines_of_frame ps)
  = flat_map (fun p => fst (handle_data bh p)) ps
  /\ forallb (fun l => negb (is_done_line l)) (flat_map lines_of_frame ps)
     = true.
Proof.
  induction 1 as [|p ps Hp _ [IH1 IH2]]; [split; reflexivity|].
  destruct (frame_lines_calls p Hp) as [H1 H2].
  cbn [flat_map]. rewrite flat_map_app, forallb_app, H1, H2, IH1, IH2.
  split; reflexivity.
Qed.

Lemma read_frames (payloads texts : list string) :
  Forall printable payloads ->
  Forall (fun p => p <> "[DONE]"%string) payloads ->
  received texts = received (map data_frame payloads ++ [done_frame]) ->
  read_all bh EmptyString (arriving texts)
  = (flat_map (fun p => fst (handle_data bh p)) payloads, Returned tt).
Proof.
  intros Hp Hd Ht.
  assert (Hl : complete_lines (received texts)
               = flat_map lines_of_frame payloads
                 ++ lines_of_frame "[DONE]").
  { unfold complete_lines. rewrite Ht.
    change [done_frame] with (map data_frame ["[DONE]"%string]).
    rewrite <- map_app. rewrite lines_of_frames.
    - cbn [fst]. rewrite flat_map_app. reflexivity.
    - apply Forall_app. split; [exact Hp|].
      constructor; [apply printable_check; reflexivity | constructor]. }
  destruct (frames_calls payloads Hd) as [Hc Hn].
  rewrite (read_all_calls texts EmptyString); cbn [append].
  - rewrite Hl, flat_map_app, Hc.
    change (flat_map (calls_of_line bh) (lines_of_frame "[DONE]"))
      with (@nil Call).
    rewrite app_nil_r. reflexivity.
  - reflexivity.
  - rewrite Hl, (done_is_last_skip _ _ Hn). reflexivity.
Qed.

(** X23. The browser reads back what the endpoint wrote, however the body is
    cut into reads: for a body made of data frames and closed by the done
    frame, the callbacks are those of the payloads, in order; the blank
    lines and the done frame lead to none, and the function returns. *)
Theorem frames_are_read_back (payloads texts : list string) :
  Forall printable payloads ->
  Forall (fun p => p <> "[DONE]"%string) payloads ->
  received texts = received (map data_frame payloads ++ [done_frame]) ->
  streamChat bh (Response true 200 (arriving texts))
  = (flat_map (fun p => fst (handle_data bh p)) payloads, Returned tt).
Proof.
  intros Hp Hd Ht. unfold streamChat. cbn [negb].
  rewrite (read_frames payloads texts Hp Hd Ht). reflexivity.
Qed.

(** X24. The done line ends the handling of the lines of its own read only:
    a frame that arrives in the same read as the done frame, after it, is
    dropped, but the same frame is handled when it arrives in a later
    read (the reading itself goes on until the body ends). *)
Theorem done_line_only_ends_its_read (p : string) :
  printable p -> p <> "[DONE]"%string ->
  read_all bh EmptyString (arriving [ (done_frame ++ data_frame p)%string ])
    = ([], Returned tt)
  /\ read_all bh EmptyString (arriving [ done_frame; data_frame p ])
     = (fst (handle_data bh p), Returned tt).
Proof.
  intros Hp Hd.
  assert (Hs : split_newline (data_frame p)
               = [ (data_prefix ++ p)%string; EmptyString; EmptyString ])
    by (apply data_line_splits; exact Hp).
  destruct (frame_lines_calls p Hd) as [Hc _].
  pose proof (handle_data_returns p) as Hr.
  assert (F1 : feed bh EmptyString done_frame = ([], Returned EmptyString))
    by reflexivity.
  assert (F2 : feed bh EmptyString (data_frame p)
               = (fst (handle_data bh p), Returned EmptyString)).
  { unfold feed, take_lines. cbn [append]. rewrite Hs.
    cbn [removelast last for_lines].
    rewrite data_line_handled, slice6_data.
    apply String.eqb_neq in Hd. rewrite Hd.
    destruct (handle_data bh p) as [calls c]. cbn [snd fst] in *. subst c.
    cbn [blank orb for_lines andThen ret]. rewrite !app_nil_r.
    reflexivity. }
  unfold arriving. cbn [map read_all]. split.
  - unfold feed, take_lines. cbn [append].
    change (done_frame ++ data_frame p)%string
      with (data_frame "[DONE]" ++ data_frame p)%string.
    rewrite frame_splits by (apply printable_check; reflexivity).
    rewrite Hs. reflexivity.
  - rewrite F1. cbn [andThen ret]. rewrite F2. cbn [andThen ret app].
    rewrite !app_nil_r. reflexivity.
Qed.

End BrowserFacts.

(* ================================================================== *)
(** * A turn, from the orchestrator to the browser's callbacks *)
(* ================================================================== *)

Section EndToEnd.
Import Agent Trace Server Browser Wire.
Variable h : Agent.Host.
Variable w : World.
Variable bh : Browser.Host.
Local Open Scope list_scope.

Lemma content_object_not_done (d : string) :
  content_object d <> "[DONE]"%string.
Proof. intros H. discriminate H. Qed.

Lemma places_payload_not_done (places : list Places.PlaceRecord) :
  places_payload places <> "[DONE]"%string.
Proof. intros H. discriminate H. Qed.

Lemma heard_content (d : string) :
  reads_back bh d ->
  fst (handle_data bh (content_object d))
  = if nonempty d then [OnChunk d] else [].
Proof.
  unfold reads_back, handle_data. intros ->.
  unfold content_event. cbn [ev_content ev_type ev_error truthy_string].
  destruct (nonempty d); reflexivity.
Qed.

Lemma heard_deltas (deltas : list string) :
  Forall (reads_back bh) deltas ->
  Forall (fun d => d <> EmptyString) deltas ->
  flat_map (fun p => fst (handle_data bh p)) (map content_object deltas)
  = map OnChunk deltas.
Proof.
  induction 1 as [|d ds Hd _ IH]; intros Hn; [reflexivity|].
  inversion Hn as [|? ? Hd0 Hn']; subst.
  cbn [map flat_map]. rewrite (heard_content d Hd), (IH Hn').
  destruct d; [congruence | reflexivity].
Qed.

Lemma heard_places (places : list Places.PlaceRecord) :
  reads_places bh (places_payload places) ->
  fst (handle_data bh (places_payload places))
  = [OnChunk (places_payload places)].
Proof.
  intros (ev & Hp & Hc & Ht & He). unfold handle_data.
  rewrite Hp, Hc, Ht, He. reflexivity.
Qed.

(** X25. A successful turn in which no narration delta starts with the
    structured prefix, as the browser hears it, however the body is cut
    into reads and provided the browser's [JSON.parse] reads back the
    frames of this turn: its [onChunk] receives the places payload as
    text (when places were found) and then the narration deltas, in
    order; the empty delta that ends the turn and the done frame lead to
    no callback, [onError] is not called, and [streamChat] returns.  (A
    delta that starts with the structured prefix is written unwrapped
    and is not heard as narration.) *)
Theorem browser_hears_successful_turn (req : ChatRequest)
  (msgs : list ChatMessage) (lastUser : ChatMessage)
  (placesResult : Places.SearchResult) (texts : list string) :
  messages req = Some msgs ->
  lastUserMessage msgs = Some lastUser ->
  search_of_turn h w (content lastUser) (userLocation req)
    = Returned placesResult ->
  truthy_string (Places.error placesResult) = false ->
  let places := Places.results placesResult in
  let deltas := narration_deltas h w (content lastUser) places in
  forallb (fun d => negb (prefix structured_prefix d)) deltas = true ->
  Forall (reads_back bh) (deltas ++ [EmptyString]) ->
  (places <> [] -> reads_places bh (places_payload places)) ->
  received texts = received (written (chat h w req)) ->
  streamChat bh (Response true 200 (arriving texts))
  = (places_events places ++ map OnChunk deltas, Returned tt).
Proof.
  intros Hm Hlast Hsearch Herr places deltas Hd Hback Hplaces Ht.
  destruct (successful_turn_body h w req msgs lastUser placesResult
              Hm Hlast Hsearch Herr Hd) as [Hbody _].
  fold places deltas in Hbody.
  destruct (narration_calls h w (content lastUser) places) as [_ Hnonempty].
  fold deltas in Hnonempty.
  apply Forall_app in Hback. destruct Hback as [Hback Hlast0].
  inversion Hlast0 as [|? ? Hempty _]; subst.
  set (event := match places with
                | [] => []
                | _ :: _ => [places_payload places]
                end) in *.
  set (payloads := event ++ map content_object deltas
                   ++ [content_object EmptyString]).
  assert (Hw : written (chat h w req)
               = map data_frame payloads ++ [done_frame]).
  { rewrite Hbody. unfold payloads. rewrite !map_app, <- !app_assoc.
    reflexivity. }
  rewrite Hw in Ht. unfold streamChat. cbn [negb].
  rewrite (read_frames bh payloads texts).
  - cbn [tryCatch]. f_equal. unfold payloads.
    rewrite !flat_map_app. rewrite (heard_deltas deltas Hback Hnonempty).
    cbn [flat_map]. rewrite (heard_content EmptyString Hempty).
    cbn [nonempty app]. rewrite !app_nil_r. f_equal.
    unfold event, places_events. destruct places as [|p ps] eqn:E;
      [reflexivity|].
    cbn [flat_map]. rewrite heard_places; [reflexivity|].
    apply Hplaces. discriminate.
  - unfold payloads. repeat (apply Forall_app; split).
    + unfold event. destruct places; constructor;
        [apply printable_places_payload | constructor].
    + apply Forall_map. apply Forall_forall. intros d _.
      apply content_object_printable.
    + constructor; [apply content_object_printable | constructor].
  - unfold payloads. repeat (apply Forall_app; split).
    + unfold event. destruct places; constructor;
        [apply places_payload_not_done | constructor].
    + apply Forall_map. apply Forall_forall. intros d _.
      apply content_object_not_done.
    + constructor; [apply content_object_not_done | constructor].
  - exact Ht.
Qed.

(** X26. An error the orchestrator reports before it returns is not heard by
    the browser: the endpoint writes it as the empty object, which leads
    to no callback, so [streamChat] returns without having called
    [onChunk] or [onError]. *)
Theorem reported_error_is_not_heard (req : ChatRequest)
  (msgs : list ChatMessage) (text : string) (texts : list string) :
  messages req = Some msgs ->
  streamChatWithTools h w msgs (userLocation req)
    = ([OnError text], Returned tt) ->
  JSON_parse_event bh "{}" = Some no_event ->
  received texts = received (written (chat h w req)) ->
  written (chat h w req) = [data_frame "{}"; done_frame]
  /\ streamChat bh (Response true 200 (arriving texts)) = ([], Returned tt).
Proof.
  intros Hm Hturn Hparse Ht.
  assert (Hw : written (chat h w req) = [data_frame "{}"; done_frame]).
  { unfold chat. rewrite Hm, Hturn. reflexivity. }
  split; [exact Hw|]. rewrite Hw in Ht.
  unfold streamChat. cbn [negb].
  rewrite (read_frames bh ["{}"%string] texts).
  - cbn [flat_map]. unfold handle_data. rewrite Hparse. reflexivity.
  - constructor; [apply printable_check; reflexivity | constructor].
  - constructor; [discriminate | constructor].
  - exact Ht.
Qed.

End EndToEnd.

(* ================================================================== *)
(** * Coordinates that are not numbers *)
(* ================================================================== *)

Section NotANumber.
Import JsNumber Routes.











Lemma formatDistance_nan : Geo.formatDistance PrimFloat.nan = "NaNkm".
Proof. reflexivity. Qed.



End NotANumber.

(* ================================================================== *)
(** * The further properties on concrete providers and turns *)
(* ================================================================== *)

Section OnExamples.
Import JsNumber Agent Trace Server Routes Wire Examples MoreExamples.
Local Open Scope list_scope.

Lemma searchPlaces_caps_witness :
  (List.length (Places.results found) <= 20)%nat
  /\ List.length (Places.results found) = 2%nat.
Proof.
  destruct (searchPlaces_caps series_math (client_returning two_places)
              (search_options (fallback_intent "coffee") origin) found)
    as (Hcap & _ & Hprovider).
  - vm_compute. reflexivity.
  - split; [exact Hcap|].
    exact (proj1 (Hprovider two_places eq_refl)).
Defined.

Lemma getPlaceDetails_failure_policy_witness :
  PlaceDetails.getPlaceDetails series_math
    (details_client (Thrown (http_error 404))) "id-Cafe A" None
  = Thrown (Error "Place not found")
  /\ PlaceDetails.getPlaceDetails series_math
       (details_client (Returned None)) "id-Cafe A" None
     = Thrown (TypeError "geometry").
Proof.
  split.
  - pose proof (getPlaceDetails_failure_policy series_math
                  (details_client (Thrown (http_error 404))) "id-Cafe A" None)
      as H.
    cbv zeta in H. destruct H as [H _].
    destruct (H (http_error 404) eq_refl) as [H404 _].
    exact (H404 eq_refl).
  - pose proof (getPlaceDetails_failure_policy series_math
                  (details_client (Returned None)) "id-Cafe A" None) as H.
    cbv zeta in H. destruct H as [_ H]. exact (H eq_refl).
Defined.

Lemma getPlaceDetails_result_witness :
  let d := PlaceDetails.details_of series_math "requested" origin raw_cafe in
  nonempty (PlaceDetails.place_id d) = true
  /\ (List.length (PlaceDetails.photos d) <= 10)%nat.
Proof.
  intros d.
  destruct (getPlaceDetails_result series_math
              (details_client (Returned (Some raw_cafe))) "requested" origin
              {| PlaceDetails.result := Some d; PlaceDetails.error := None |}
              d eq_refl eq_refl)
    as (_ & Hid & Hphotos & _).
  split; [exact (Hid eq_refl) | exact Hphotos].
Defined.

Lemma geocode_route_statuses_witness :
  geocode (geocoder (Thrown (http_error 500))) (Some "Taipei 101")
  = fail 404 "Address not found" None
  /\ geocode (geocoder (Returned (Some [taipei_101]))) (Some "Taipei 101")
     = ok {| LatLng.lat := Some 25.0339%float;
             LatLng.lng := Some 121.5645%float |}.
Proof.
  split.
  - destruct (geocode_route_statuses (geocoder (Thrown (http_error 500)))
                "Taipei 101" eq_refl) as (_ & H & _).
    exact (H (http_error 500) eq_refl).
  - destruct (geocode_route_statuses
                (geocoder (Returned (Some [taipei_101]))) "Taipei 101"
                eq_refl) as (_ & _ & _ & H).
    exact (H taipei_101 [] _ eq_refl eq_refl).
Defined.

Lemma getDirections_result_xor_error_witness :
  let o := {| Directions.origin := "Taipei 101";
              Directions.destination := "Taipei Main Station";
              Directions.mode := None |} in
  Directions.error (Directions.getDirections
                      (router (Thrown (http_error 403))) o)
  = Some "API key issue"
  /\ exists leg,
       Directions.result (Directions.getDirections
                            (router (Returned (Some [walk]))) o)
       = Some {| Directions.routes :=
                   [ {| Directions.route_legs := [leg] |} ] |}.
Proof.
  intros o. split.
  - pose proof (getDirections_result_xor_error
                  (router (Thrown (http_error 403))) o) as H.
    cbv zeta in H. destruct H as (_ & _ & H).
    exact (proj2 (H (http_error 403) eq_refl)).
  - pose proof (getDirections_result_xor_error
                  (router (Returned (Some [walk]))) o) as H.
    cbv zeta in H. destruct H as (_ & H & _).
    destruct (H _ eq_refl) as [leg Hleg].
    exists leg. rewrite <- Hleg. reflexivity.
Defined.

Lemma directions_route_statuses_witness :
  status (directions strings (router (Thrown (http_error 500)))
            {| dir_origin := Some (Text "Taipei 101");
               dir_destination := Some (Text "Taipei Main Station");
               dir_mode := Some (Text "walking") |}) = 200
  /\ status (directions strings (router (Returned (Some [walk])))
               {| dir_origin := Some Structure;
                  dir_destination := Some (Text "Taipei Main Station");
                  dir_mode := None |}) = 500
  /\ status (directions strings (router (Returned (Some [walk])))
               {| dir_origin := Some (Text "Taipei 101");
                  dir_destination := Some (Text "Taipei Main Station");
                  dir_mode := Some (Text "flying") |}) = 400.
Proof.
  split; [|split].
  - pose proof (directions_route_statuses strings
                  (router (Thrown (http_error 500)))
                  {| dir_origin := Some (Text "Taipei 101");
                     dir_destination := Some (Text "Taipei Main Station");
                     dir_mode := Some (Text "walking") |}) as H.
    cbv zeta in H. destruct H as (_ & _ & H & _).
    exact (proj1 (H eq_refl eq_refl eq_refl) eq_refl eq_refl).
  - pose proof (directions_route_statuses strings
                  (router (Returned (Some [walk])))
                  {| dir_origin := Some Structure;
                     dir_destination := Some (Text "Taipei Main Station");
                     dir_mode := None |}) as H.
    cbv zeta in H. destruct H as (_ & _ & H & _).
    exact (proj1 (proj2 (H eq_refl eq_refl eq_refl) (or_introl eq_refl))).
  - pose proof (directions_route_statuses strings
                  (router (Returned (Some [walk])))
                  {| dir_origin := Some (Text "Taipei 101");
                     dir_destination := Some (Text "Taipei Main Station");
                     dir_mode := Some (Text "flying") |}) as H.
    cbv zeta in H. destruct H as (_ & H & _).
    apply H. right. right. reflexivity.
Defined.

Lemma search_query_never_empty_witness :
  nonempty (formatted_query
              (extract_with_timeout host confused_extractor "pizza")) = true.
Proof.
  pose proof (search_query_never_empty host confused_extractor "pizza" None
                eq_refl) as H.
  cbv zeta in H. exact (proj1 (proj2 H)).
Defined.

Lemma lastUserMessage_is_last_user_witness :
  lastUserMessage [ user "pizza"; user "coffee"; system "be brief" ]
  = Some (user "coffee").
Proof.
  destruct (lastUserMessage_is_last_user
              [ user "pizza"; user "coffee"; system "be brief" ]) as [H _].
  apply (H [user "pizza"] (user "coffee") [system "be brief"]);
    reflexivity.
Defined.

Lemma turn_without_user_message_witness :
  streamChatWithTools host fine [ system "be brief" ] origin
  = ([OnError "No user message found"], Returned tt).
Proof.
  exact (proj1 (turn_without_user_message host fine [ system "be brief" ]
                  origin eq_refl)).
Defined.

Lemma narration_sees_top_five_witness :
  narration_context six_places = narration_context six_other_places.
Proof.
  apply (narration_sees_top_five host fine "coffee" six_places
           six_other_places).
  - reflexivity.
  - vm_compute. repeat constructor.
Defined.

Lemma narration_in_arrival_order_witness :
  forwarded host [ Ollama.Chunk (frame_line "Here are ");
                   Ollama.ReadFails (Error "socket hang up");
                   Ollama.Chunk (frame_line "two cafes.") ]
  = forwarded host [ Ollama.Chunk (frame_line "Here are ") ].
Proof.
  destruct (narration_in_arrival_order host) as (_ & _ & H).
  exact (proj1 (H [ Ollama.Chunk (frame_line "Here are ") ]
                  (Error "socket hang up")
                  [ Ollama.Chunk (frame_line "two cafes.") ] eq_refl)).
Defined.

Lemma wrapped_frame_is_one_line_witness :
  split_newline (chunk_frame ("two" ++ newline ++ "lines"))
  = [ ("data: " ++ content_object ("two" ++ newline ++ "lines"))%string;
      EmptyString; EmptyString ].
Proof.
  exact (proj2 (wrapped_frame_is_one_line ("two" ++ newline ++ "lines")
                  eq_refl)).
Defined.

Lemma returned_turn_is_closed_witness :
  ended (chat host fine chat_request) = true
  /\ statusCode (chat host fine chat_request) = 200.
Proof.
  destruct (returned_turn_is_closed host fine chat_request coffee)
    as (_ & He & Hs & _).
  - reflexivity.
  - vm_compute. reflexivity.
  - split; [exact He | exact Hs].
Defined.

Lemma sse_body_of_successful_turn_witness :
  written (chat host fine chat_request)
  = map data_frame
      [ places_payload (Places.results found);
        content_object "Here are "; content_object "two cafes.";
        content_object EmptyString; "[DONE]"%string ].
Proof.
  pose proof (sse_body_of_successful_turn host fine chat_request coffee
                coffee_question found) as H.
  cbv zeta in H.
  assert (H2 : search_of_turn host fine (content coffee_question)
                 (userLocation chat_request) = Returned found)
    by (vm_compute; reflexivity).
  assert (H4 : forallb (fun d => negb (prefix structured_prefix d))
                 (narration_deltas host fine (content coffee_question)
                    (Places.results found)) = true)
    by (vm_compute; reflexivity).
  destruct (H eq_refl eq_refl H2 eq_refl H4) as [Hw _].
  rewrite Hw. vm_compute. reflexivity.
Defined.

Lemma places_search_statuses_witness :
  places_search series_math strings (client_failing 403)
    {| sq_query := None; sq_location := None; sq_radius := None;
       sq_userLat := None; sq_userLng := None |}
  = fail 400 "Query parameter is required" None
  /\ places_search series_math strings (client_failing 403)
       {| sq_query := Some " pizza "; sq_location := None;
          sq_radius := Some "500"; sq_userLat := None; sq_userLng := None |}
     = ok refused.
Proof.
  split.
  - destruct (places_search_statuses series_math strings (client_failing 403)
                {| sq_query := None; sq_location := None; sq_radius := None;
                   sq_userLat := None; sq_userLng := None |}) as [H _].
    exact (H eq_refl).
  - destruct (places_search_statuses series_math strings (client_failing 403)
                {| sq_query := Some " pizza "; sq_location := None;
                   sq_radius := Some "500"; sq_userLat := None;
                   sq_userLng := None |}) as [_ H].
    destruct (H eq_refl _ eq_refl) as [Hf _].
    destruct (Hf (http_error 403) eq_refl) as [H403 _].
    exact (H403 eq_refl).
Defined.

Lemma places_details_statuses_witness :
  places_details series_math strings
    (details_client (Thrown (http_error 404)))
    {| dq_placeId := Some "id-Cafe A"; dq_userLat := None;
       dq_userLng := None |}
  = fail 500 "Failed to get place details" (Some "Place not found").
Proof.
  destruct (places_details_statuses series_math strings
              (details_client (Thrown (http_error 404)))
              {| dq_placeId := Some "id-Cafe A"; dq_userLat := None;
                 dq_userLng := None |}) as [_ H].
  pose proof (H "id-Cafe A"%string eq_refl eq_refl) as H'.
  cbv zeta in H'. destruct H' as [Hf _].
  destruct (Hf (http_error 404) eq_refl) as [H404 _].
  exact (H404 eq_refl).
Defined.

Lemma reverse_geocode_route_statuses_witness :
  reverse_geocode strings (geocoder (Thrown (http_error 500)))
    (Some "25") (Some "121")
  = fail 404 "Address not found for given coordinates" None.
Proof.
  pose proof (reverse_geocode_route_statuses strings
                (geocoder (Thrown (http_error 500))) "25" "121"
                eq_refl eq_refl) as H.
  cbv zeta in H. destruct H as (_ & H & _).
  exact (H (http_error 500) eq_refl).
Defined.

Lemma map_embed_encodes_query_only_witness :
  (exists e,
     map_embed None (Some (dquotes "~><script> & more")) = ok e
     /\ embedUrl e
        = "https://www.google.com/maps?q=%22%3E%3Cscript%3E%20%26%20more&output=embed"%string)
  /\ (exists e,
        map_embed (Some (dquotes "1~ onload=~x")) (Some "pizza") = ok e
        /\ In (ascii_of_nat 34) (chars (embedUrl e))).
Proof.
  split.
  - destruct (map_embed_encodes_query_only None
                (Some (dquotes "~><script> & more"))) as [H _].
    destruct (H eq_refl _ eq_refl eq_refl) as (e & H1 & H2 & _).
    exists e. split; [exact H1|]. rewrite H2. reflexivity.
  - destruct (map_embed_encodes_query_only
                (Some (dquotes "1~ onload=~x")) (Some "pizza"%string))
      as [_ H].
    destruct (H _ eq_refl eq_refl) as (e & H1 & _ & _ & H4).
    exists e. split; [exact H1|].
    apply (H4 (ascii_of_nat 34)). right. left. reflexivity.
Defined.

Lemma reads_cut_anywhere_witness :
  Browser.read_all browser EmptyString (Wire.arriving [ fine_body ])
  = Browser.read_all browser EmptyString (Wire.arriving fine_reads).
Proof.
  destruct (reads_cut_anywhere browser fine_reads [ fine_body ])
    as [_ H].
  - vm_compute. reflexivity.
  - vm_compute. reflexivity.
  - exact H.
Defined.

Lemma frames_are_read_back_witness :
  Browser.streamChat browser
    (Browser.Response true 200
       (Wire.arriving
          [ "data: {"%string;
            (dquotes "~content~:~Hi~}" ++ newline)%string;
            (newline ++ done_frame)%string ]))
  = ([OnChunk "Hi"], Returned tt).
Proof.
  apply (frames_are_read_back browser [ content_object "Hi" ]).
  - constructor; [apply printable_check; reflexivity | constructor].
  - constructor; [discriminate | constructor].
  - vm_compute. reflexivity.
Defined.

Lemma done_line_only_ends_its_read_witness :
  Browser.read_all browser EmptyString
    (Wire.arriving [ (done_frame ++ data_frame (content_object "Hi"))%string ])
  = ([], Returned tt)
  /\ Browser.read_all browser EmptyString
       (Wire.arriving [ done_frame; data_frame (content_object "Hi") ])
     = ([OnChunk "Hi"], Returned tt).
Proof.
  apply (done_line_only_ends_its_read browser (content_object "Hi")).
  - apply printable_check. reflexivity.
  - discriminate.
Defined.

Lemma browser_hears_successful_turn_witness :
  Browser.streamChat browser
    (Browser.Response true 200 (Wire.arriving fine_reads))
  = ([ OnChunk (places_payload (Places.results found));
       OnChunk "Here are "; OnChunk "two cafes." ], Returned tt).
Proof.
  pose proof (browser_hears_successful_turn host fine browser chat_request
                coffee coffee_question found fine_reads) as H.
  cbv zeta in H.
  assert (H2 : search_of_turn host fine (content coffee_question)
                 (userLocation chat_request) = Returned found)
    by (vm_compute; reflexivity).
  assert (Hd : narration_deltas host fine (content coffee_question)
                 (Places.results found) = [ "Here are "; "two cafes." ]%string)
    by (vm_compute; reflexivity).
  rewrite Hd in H.
  assert (Hback : Forall (reads_back browser)
                    ([ "Here are "%string; "two cafes."%string ]
                     ++ [ EmptyString ]))
    by (repeat constructor).
  assert (Hplaces : Places.results found <> [] ->
                    reads_places browser
                      (places_payload (Places.results found))).
  { intros _. eexists. split; [vm_compute; reflexivity|]. repeat split. }
  assert (Ht : received fine_reads
               = received (written (chat host fine chat_request)))
    by (vm_compute; reflexivity).
  rewrite (H eq_refl eq_refl H2 eq_refl eq_refl Hback Hplaces Ht).
  reflexivity.
Defined.

Lemma reported_error_is_not_heard_witness :
  Browser.streamChat browser
    (Browser.Response true 200
       (Wire.arriving
          [ received (written (chat host unauthorized chat_request)) ]))
  = ([], Returned tt).
Proof.
  destruct (reported_error_is_not_heard host unauthorized browser chat_request
              coffee Places.auth_error_text
              [ received (written (chat host unauthorized chat_request)) ])
    as [_ H].
  - reflexivity.
  - vm_compute. reflexivity.
  - reflexivity.
  - vm_compute. reflexivity.
  - exact H.
Defined.



End OnExamples.
